(** * CryptoBot: the opportunity-to-trade pipeline

    A shallow embedding of the JavaScript services of the execution pipeline
    (options scanner, risk engine, router-executor, order simulator and trade
    assembler) and the properties of the specification that concern them.

    Conventions of the embedding.
    - JavaScript numbers are IEEE-754 binary64: Rocq's primitive floats.
    - Parsed JSON documents and the objects the services build are [value]s;
      an object is the ordered list of its own properties.
    - Strings are byte strings; case mapping and trimming are the ASCII ones.
    - The host's string/number conversions, its clock and its uuid generator
      are not code of the repository: they are the fields of [Runtime], and
      every definition and theorem is parametric in them.
    - A handler runs in the monad [M]: the service state is threaded through,
      and an exception keeps the state reached when it was thrown.  Each
      handler is run to completion; interleavings at [await] points are not
      represented.  Redis and Mongo calls are total (connection failures are
      not represented). *)

From Stdlib Require Import List String Ascii Bool Arith NArith ZArith Lia.
From Stdlib Require Import Permutation.
From Stdlib Require Import Uint63 Floats.
Import ListNotations.
Local Open Scope string_scope.
Local Open Scope list_scope.

Set Implicit Arguments.
Local Set Warnings "-register-all".
Local Set Warnings "-inexact-float".
Local Unset Elimination Schemes.

(** ** JavaScript values *)

Inductive value : Type :=
| Undefined
| Null
| Bool (b : bool)
| Num (n : float)
| Str (s : string)
| Arr (xs : list value)
| Obj (props : list (string * value)).

(** The services of the host that the code calls and the repository does not
    define. [Date_now k] and [uuidv4 k] are the results of the [k]-th call. *)
Class Runtime : Type := {
  StringToNumber : string -> float;
  NumberToString : float -> string;
  toFixed : float -> nat -> string;
  Date_now : nat -> float;
  uuidv4 : nat -> string
}.

Module JS.

Definition upper_ascii (c : ascii) : ascii :=
  let n := nat_of_ascii c in
  if Nat.leb 97 n && Nat.leb n 122 then ascii_of_nat (n - 32) else c.

Definition lower_ascii (c : ascii) : ascii :=
  let n := nat_of_ascii c in
  if Nat.leb 65 n && Nat.leb n 90 then ascii_of_nat (n + 32) else c.

Fixpoint map_string (f : ascii -> ascii) (s : string) : string :=
  match s with
  | EmptyString => EmptyString
  | String c r => String (f c) (map_string f r)
  end.

Definition toUpperCase : string -> string := map_string upper_ascii.
Definition toLowerCase : string -> string := map_string lower_ascii.

(** White space of [String.prototype.trim] within ASCII: TAB, LF, VT, FF, CR
    and the space. *)
Definition is_space (c : ascii) : bool :=
  let n := nat_of_ascii c in
  (Nat.leb 9 n && Nat.leb n 13) || Nat.eqb n 32.

Fixpoint trimStart (s : string) : string :=
  match s with
  | String c r => if is_space c then trimStart r else s
  | EmptyString => EmptyString
  end.

Fixpoint rev_string (s acc : string) : string :=
  match s with
  | EmptyString => acc
  | String c r => rev_string r (String c acc)
  end.

Definition trim (s : string) : string :=
  rev_string (trimStart (rev_string (trimStart s) "")) "".

Fixpoint join (sep : string) (l : list string) : string :=
  match l with
  | [] => ""
  | [s] => s
  | s :: r => String.append s (String.append sep (join sep r))
  end.

(** Decimal numeral of a natural number, for array-index property keys and
    entry ids. *)
Definition digit (n : N) : ascii := ascii_of_N (48 + n).

Fixpoint decimal_fuel (fuel : nat) (n : N) (acc : string) : string :=
  match fuel with
  | O => acc
  | S f =>
      let acc' := String (digit (n mod 10)) acc in
      if (n / 10 =? 0)%N then acc' else decimal_fuel f (n / 10) acc'
  end.

Definition decimalN (n : N) : string :=
  decimal_fuel (S (N.to_nat (N.log2 n))) n "".

Definition decimal (n : nat) : string := decimalN (N.of_nat n).

(** *** Numbers *)

(** [Math.min] of two numbers: NaN if either is NaN, and -0 below +0. *)
Definition Math_min (a b : float) : float :=
  if PrimFloat.is_nan a || PrimFloat.is_nan b then nan
  else if PrimFloat.ltb a b then a
  else if PrimFloat.ltb b a then b
  else if PrimFloat.get_sign a then a else b.

(** The integer a float denotes, when it denotes one. *)
Definition float_to_Z (n : float) : option Z :=
  match Prim2SF n with
  | S754_zero _ => Some 0%Z
  | S754_finite s m e =>
      let mag :=
        if (0 <=? e)%Z then Some (Z.pos m * 2 ^ e)%Z
        else if (Z.pos m mod 2 ^ (- e) =? 0)%Z then Some (Z.pos m / 2 ^ (- e))%Z
        else None in
      option_map (fun z => if s then (- z)%Z else z) mag
  | _ => None
  end.

Section Conversions.
Context {rt : Runtime}.

(** *** Type conversions (ECMAScript ToBoolean, ToString, ToNumber) *)

Definition truthy (v : value) : bool :=
  match v with
  | Undefined | Null => false
  | Bool b => b
  | Num n => negb (PrimFloat.is_zero n || PrimFloat.is_nan n)
  | Str s => negb (String.eqb s "")
  | Arr _ | Obj _ => true
  end.

Fixpoint ToString (v : value) : string :=
  match v with
  | Undefined => "undefined"
  | Null => "null"
  | Bool true => "true"
  | Bool false => "false"
  | Num n => NumberToString n
  | Str s => s
  | Arr xs =>
      join "," (map (fun x => match x with
                              | Undefined | Null => ""
                              | _ => ToString x
                              end) xs)
  | Obj _ => "[object Object]"
  end.

(** [Number(v)]: an array or object is converted through its string. *)
Definition ToNumber (v : value) : float :=
  match v with
  | Undefined => nan
  | Null => 0%float
  | Bool true => 1%float
  | Bool false => 0%float
  | Num n => n
  | Str s => StringToNumber s
  | Arr _ | Obj _ => StringToNumber (ToString v)
  end.

(** [a || b], [a ?? b], [v == null], [!!v]. *)
Definition or_else (a b : value) : value := if truthy a then a else b.
Definition nullish (v : value) : bool :=
  match v with Undefined | Null => true | _ => false end.
Definition coalesce (a b : value) : value := if nullish a then b else a.

(** [Number.isFinite(v)] does not convert: only a finite number passes. *)
Definition Number_isFinite (v : value) : bool :=
  match v with Num n => PrimFloat.is_finite n | _ => false end.

(** The global [isNaN(v)] converts first. *)
Definition isNaN (v : value) : bool := PrimFloat.is_nan (ToNumber v).

Definition Array_isArray (v : value) : bool :=
  match v with Arr _ => true | _ => false end.

(** [v > n] and [v >= n] against a number: [v] is converted to a number. *)
Definition gt_num (v : value) (n : float) : bool := PrimFloat.ltb n (ToNumber v).

(** [v === w] for a string literal or a number literal [w]. *)
Definition strict_eq_str (v : value) (s : string) : bool :=
  match v with Str t => String.eqb t s | _ => false end.
Definition strict_eq_num (v : value) (n : float) : bool :=
  match v with Num m => PrimFloat.eqb m n | _ => false end.

(** *** Property access *)

Fixpoint lookup (k : string) (ps : list (string * value)) : value :=
  match ps with
  | [] => Undefined
  | (k', v) :: r => if String.eqb k' k then v else lookup k r
  end.

(** [v?.k], also [v.k] once [v] is known not to be null or undefined. None of
    the property names the services read is a property of the built-in
    prototypes, so a primitive or an array has none of them. *)
Definition get (k : string) (v : value) : value :=
  match v with
  | Obj ps => lookup k ps
  | _ => Undefined
  end.

(** [obj.k = v] on an object, and a property of an object literal: an
    existing property keeps its place. *)
Fixpoint setProp (k : string) (v : value) (ps : list (string * value))
  : list (string * value) :=
  match ps with
  | [] => [(k, v)]
  | (k', v') :: r =>
      if String.eqb k' k then (k, v) :: r else (k', v') :: setProp k v r
  end.

Fixpoint indexed (i : nat) (xs : list value) : list (string * value) :=
  match xs with
  | [] => []
  | x :: r => (decimal i, x) :: indexed (S i) r
  end.

Fixpoint chars (s : string) : list value :=
  match s with
  | EmptyString => []
  | String c r => Str (String c EmptyString) :: chars r
  end.

(** Own enumerable properties, as the spread [{...v}] copies them. *)
Definition ownProps (v : value) : list (string * value) :=
  match v with
  | Obj ps => ps
  | Arr xs => indexed 0 xs
  | Str s => indexed 0 (chars s)
  | _ => []
  end.

Definition spread (v : value) (ps : list (string * value))
  : list (string * value) :=
  fold_left (fun acc kv => setProp (fst kv) (snd kv) acc) (ownProps v) ps.

(** The object literal whose properties are written in the order of [kvs]. *)
Definition object (kvs : list (string * value)) : list (string * value) :=
  fold_left (fun acc kv => setProp (fst kv) (snd kv) acc) kvs [].

(** *** JSON *)

(** [JSON.parse(JSON.stringify(v))] for the property values, array elements
    and documents the services write: a property whose value is undefined is
    left out, an undefined array element and a non-finite number become null,
    and -0 is written 0. *)
Fixpoint wire (v : value) : value :=
  match v with
  | Num n =>
      if PrimFloat.is_finite n
      then (if PrimFloat.is_zero n then Num 0%float else Num n)
      else Null
  | Arr xs => Arr (map (fun x => match x with
                                  | Undefined => Null
                                  | _ => wire x
                                  end) xs)
  | Obj ps =>
      Obj (flat_map (fun kv => match kv with
                               | (_, Undefined) => []
                               | (k, x) => [(k, wire x)]
                               end) ps)
  | _ => v
  end.

End Conversions.

(** *** [Map] objects *)

(** Key equality of a [Map] (SameValueZero). An object or array key is
    compared by identity, and the keys looked up come from freshly parsed
    documents, so such a key is equal to no stored one. *)
Definition sameValueZero (a b : value) : bool :=
  match a, b with
  | Undefined, Undefined => true
  | Null, Null => true
  | Bool x, Bool y => Bool.eqb x y
  | Num x, Num y => PrimFloat.eqb x y || (PrimFloat.is_nan x && PrimFloat.is_nan y)
  | Str x, Str y => String.eqb x y
  | _, _ => false
  end.

Fixpoint Map_get {A} (k : value) (m : list (value * A)) : option A :=
  match m with
  | [] => None
  | (k', a) :: r => if sameValueZero k' k then Some a else Map_get k r
  end.

Fixpoint Map_set {A} (k : value) (a : A) (m : list (value * A))
  : list (value * A) :=
  match m with
  | [] => [(k, a)]
  | (k', a') :: r =>
      if sameValueZero k' k then (k', a) :: r else (k', a') :: Map_set k a r
  end.

Definition Map_delete {A} (k : value) (m : list (value * A))
  : list (value * A) :=
  filter (fun ka => negb (sameValueZero (fst ka) k)) m.

End JS.

(** ** Exceptions and state *)

Inductive error : Type :=
| TypeError (what : string)
| ReferenceError (name : string)
| SyntaxError.

Inductive completion (A : Type) : Type :=
| Normal (a : A)
| Throw (e : error).
Arguments Normal {A} a.
Arguments Throw {A} e.

(** A computation over a state [S]: the state reached is kept when the
    computation throws, as the effects of a JavaScript function are. *)
Definition M (S A : Type) : Type := S -> completion A * S.

Definition ret {S A} (a : A) : M S A := fun s => (Normal a, s).

Definition bind {S A B} (m : M S A) (k : A -> M S B) : M S B :=
  fun s => match m s with
           | (Normal a, s') => k a s'
           | (Throw e, s') => (Throw e, s')
           end.

Definition throw {S A} (e : error) : M S A := fun s => (Throw e, s).

(** [try { m } catch { h }]. *)
Definition try_catch {S A} (m : M S A) (h : error -> M S A) : M S A :=
  fun s => match m s with
           | (Normal a, s') => (Normal a, s')
           | (Throw e, s') => h e s'
           end.

(** [try { m } finally { f }]. *)
Definition try_finally {S A} (m : M S A) (f : M S unit) : M S A :=
  fun s => match m s with
           | (r, s') => match f s' with
                        | (Normal _, s'') => (r, s'')
                        | (Throw e, s'') => (Throw e, s'')
                        end
           end.

Definition gets {S A} (f : S -> A) : M S A := fun s => (Normal (f s), s).
Definition modify {S} (f : S -> S) : M S unit := fun s => (Normal tt, f s).
Definition lift {S A} (c : completion A) : M S A := fun s => (c, s).

Definition when {S} (b : bool) (m : M S unit) : M S unit :=
  if b then m else ret tt.

(** [for (const x of xs) body(x)]. *)
Fixpoint for_of {S A} (xs : list A) (body : A -> M S unit) : M S unit :=
  match xs with
  | [] => ret tt
  | x :: r => bind (body x) (fun _ => for_of r body)
  end.

Definition exec {S A} (m : M S A) (s : S) : S := snd (m s).

Declare Scope js_scope.
Delimit Scope js_scope with js.
Notation "x <- m ;; k" := (bind m (fun x => k))
  (at level 61, m at next level, right associativity) : js_scope.
Notation "m ;; k" := (bind m (fun _ => k))
  (at level 61, right associativity) : js_scope.
Local Open Scope js_scope.

(** ** Redis: streams with consumer groups, and keys *)

Module Redis.

Definition upd {A} (f : string -> A) (k : string) (a : A) : string -> A :=
  fun k' => if String.eqb k' k then a else f k'.

(** The data of a stream entry or of a key that is read through [JSON.parse]
    is given by the document it parses to; [None] is a text that is not
    JSON.  An entry's id is its position in the stream.  Keys that are read
    as text ([toggles:*]) are in [text]. *)
Record t : Type := {
  streams : string -> list (option value);
  delivered : string -> string -> nat;
  pending : string -> string -> list nat;
  text : string -> option string;
  docs : string -> option (option value)
}.

Definition message : Type := (nat * option value)%type.

(** [XADD stream * data json]: the entry holds what [JSON.stringify] wrote. *)
Definition xadd (stream : string) (doc : value) (r : t) : t :=
  {| streams := upd (streams r) stream (streams r stream ++ [Some (JS.wire doc)]);
     delivered := delivered r;
     pending := pending r;
     text := text r;
     docs := docs r |}.

Fixpoint number_from {A} (i : nat) (l : list A) : list (nat * A) :=
  match l with
  | [] => []
  | a :: l' => (i, a) :: number_from (S i) l'
  end.

(** [XREADGROUP GROUP g c COUNT n STREAMS stream >]: the next entries never
    delivered to the group, at most [n]; they become pending. *)
Definition xreadgroup (group : string) (count : nat) (stream : string) (r : t)
  : list message * t :=
  let d := delivered r stream group in
  let msgs := number_from d (firstn count (skipn d (streams r stream))) in
  (msgs,
   {| streams := streams r;
      delivered := upd (delivered r) stream
                     (upd (delivered r stream) group (d + List.length msgs));
      pending := upd (pending r) stream
                   (upd (pending r stream) group
                        (pending r stream group ++ map fst msgs));
      text := text r;
      docs := docs r |}).

(** [XACK stream group id]. *)
Definition xack (stream group : string) (id : nat) (r : t) : t :=
  {| streams := streams r;
     delivered := delivered r;
     pending := upd (pending r) stream
                  (upd (pending r stream) group
                       (filter (fun i => negb (Nat.eqb i id))
                               (pending r stream group)));
     text := text r;
     docs := docs r |}.

(** [SET key text]. *)
Definition set (key : string) (s : string) (r : t) : t :=
  {| streams := streams r;
     delivered := delivered r;
     pending := pending r;
     text := upd (text r) key (Some s);
     docs := docs r |}.

Definition empty : t :=
  {| streams := fun _ => [];
     delivered := fun _ _ => 0;
     pending := fun _ _ => [];
     text := fun _ => None;
     docs := fun _ => None |}.

End Redis.

(** ** Router-executor (the second program of
    services/scanner-options-arb/src/index.js) *)

Module Executor.
Import JS.

(** An entry of the [inflight] table: [{ opp, legs, fills, startedTs }]. The
    array [fills] is given by its indexed elements, a hole being undefined. *)
Record entry : Type := {
  opp : value;
  legs : list value;
  fills : list value;
  startedTs : float
}.

(** The module's variables, its metrics, and the stores it talks to. [Trade]
    says whether the Mongo model was set by the connection at start-up;
    [clock] and [uuids] count the calls of [Date.now] and [uuidv4]. *)
Record state : Type := {
  AUTO_TRADE : bool;
  MODE : string;
  inflight : list (value * entry);
  Trade : bool;
  oppReady : bool;
  fillsReady : bool;
  execCounter : nat;
  legCounter : nat;
  tradeCounter : nat;
  redis : Redis.t;
  trades_collection : list value;
  clock : nat;
  uuids : nat
}.

Definition set_AUTO_TRADE (b : bool) (s : state) : state :=
  {| AUTO_TRADE := b; MODE := MODE s; inflight := inflight s; Trade := Trade s;
     oppReady := oppReady s; fillsReady := fillsReady s;
     execCounter := execCounter s; legCounter := legCounter s;
     tradeCounter := tradeCounter s; redis := redis s;
     trades_collection := trades_collection s; clock := clock s;
     uuids := uuids s |}.

Definition set_MODE (m : string) (s : state) : state :=
  {| AUTO_TRADE := AUTO_TRADE s; MODE := m; inflight := inflight s;
     Trade := Trade s; oppReady := oppReady s; fillsReady := fillsReady s;
     execCounter := execCounter s; legCounter := legCounter s;
     tradeCounter := tradeCounter s; redis := redis s;
     trades_collection := trades_collection s; clock := clock s;
     uuids := uuids s |}.

Definition set_inflight (t : list (value * entry)) (s : state) : state :=
  {| AUTO_TRADE := AUTO_TRADE s; MODE := MODE s; inflight := t;
     Trade := Trade s; oppReady := oppReady s; fillsReady := fillsReady s;
     execCounter := execCounter s; legCounter := legCounter s;
     tradeCounter := tradeCounter s; redis := redis s;
     trades_collection := trades_collection s; clock := clock s;
     uuids := uuids s |}.

Definition set_redis (r : Redis.t) (s : state) : state :=
  {| AUTO_TRADE := AUTO_TRADE s; MODE := MODE s; inflight := inflight s;
     Trade := Trade s; oppReady := oppReady s; fillsReady := fillsReady s;
     execCounter := execCounter s; legCounter := legCounter s;
     tradeCounter := tradeCounter s; redis := r;
     trades_collection := trades_collection s; clock := clock s;
     uuids := uuids s |}.

Definition set_counters (e l t : nat) (s : state) : state :=
  {| AUTO_TRADE := AUTO_TRADE s; MODE := MODE s; inflight := inflight s;
     Trade := Trade s; oppReady := oppReady s; fillsReady := fillsReady s;
     execCounter := e; legCounter := l; tradeCounter := t; redis := redis s;
     trades_collection := trades_collection s; clock := clock s;
     uuids := uuids s |}.

Definition set_trades_collection (c : list value) (s : state) : state :=
  {| AUTO_TRADE := AUTO_TRADE s; MODE := MODE s; inflight := inflight s;
     Trade := Trade s; oppReady := oppReady s; fillsReady := fillsReady s;
     execCounter := execCounter s; legCounter := legCounter s;
     tradeCounter := tradeCounter s; redis := redis s;
     trades_collection := c; clock := clock s; uuids := uuids s |}.

Definition set_clock (c u : nat) (s : state) : state :=
  {| AUTO_TRADE := AUTO_TRADE s; MODE := MODE s; inflight := inflight s;
     Trade := Trade s; oppReady := oppReady s; fillsReady := fillsReady s;
     execCounter := execCounter s; legCounter := legCounter s;
     tradeCounter := tradeCounter s; redis := redis s;
     trades_collection := trades_collection s; clock := c; uuids := u |}.

(** *** Arrays *)

Fixpoint digits_value (s : string) (acc : Z) : option Z :=
  match s with
  | EmptyString => Some acc
  | String c r =>
      let n := nat_of_ascii c in
      if Nat.leb 48 n && Nat.leb n 57
      then digits_value r (10 * acc + Z.of_nat (n - 48))%Z
      else None
  end.

(** A property key that is an array index: the canonical numeral of an
    integer below 2^32 - 1. *)
Definition parse_index (s : string) : option nat :=
  match s with
  | EmptyString => None
  | String c r =>
      if Ascii.eqb c "0"%char && negb (String.eqb r "") then None
      else match digits_value s 0 with
           | Some z => if (z <? 4294967295)%Z then Some (Z.to_nat z) else None
           | None => None
           end
  end.

Fixpoint assign (xs : list value) (i : nat) (v : value) : list value :=
  match i, xs with
  | O, [] => [v]
  | O, _ :: r => v :: r
  | S j, [] => Undefined :: assign [] j v
  | S j, x :: r => x :: assign r j v
  end.

Fixpoint filteri (p : nat -> bool) (i : nat) (xs : list value) : list value :=
  match xs with
  | [] => []
  | x :: r => if p i then x :: filteri p (S i) r else filteri p (S i) r
  end.

Fixpoint findIndex (p : value -> completion bool) (xs : list value) (i : nat)
  : completion (option nat) :=
  match xs with
  | [] => Normal None
  | x :: r =>
      match p x with
      | Throw e => Throw e
      | Normal true => Normal (Some i)
      | Normal false => findIndex p r (S i)
      end
  end.

Section Code.
Context {rt : Runtime}.
Variable MIN_REALIZED_PNL : float.

(** The index [xs[k] = v] writes, when the key [k] is an array index; any
    other key names a property that is not an element. *)
Definition arrayIndex (k : value) : option nat :=
  match k with
  | Num n =>
      match float_to_Z n with
      | Some z =>
          if ((0 <=? z) && (z <? 4294967295))%Z then Some (Z.to_nat z) else None
      | None => None
      end
  | _ => parse_index (ToString k)
  end.

Definition assign_key (xs : list value) (k v : value) : list value :=
  match arrayIndex k with
  | Some i => assign xs i v
  | None => xs
  end.

(** *** Feature toggles *)

Definition parseBool (v : value) (def : bool) : bool :=
  match v with
  | Bool true => true
  | Bool false => false
  | Str s =>
      let s := toLowerCase (trim s) in
      existsb (String.eqb s) ["true"; "1"; "yes"; "on"]
  | _ => def
  end.

Definition tradingEnabled (s : state) : bool := AUTO_TRADE s.

Definition refreshToggles (s : state) : state :=
  let at_ := Redis.text (redis s) "toggles:autoTrade" in
  let md := Redis.text (redis s) "toggles:mode" in
  let s1 :=
    match at_ with
    | Some a =>
        let next := parseBool (Str a) (AUTO_TRADE s) in
        if negb (Bool.eqb next (AUTO_TRADE s)) then
          let wasOn := AUTO_TRADE s in
          let s' := set_AUTO_TRADE next s in
          if wasOn && negb (AUTO_TRADE s') then set_inflight [] s' else s'
        else s
    | None => s
    end in
  match md with
  | Some m =>
      if String.eqb m "live" || String.eqb m "paper" then
        if negb (String.eqb m (MODE s1)) then set_MODE m s1 else s1
      else s1
  | None => s1
  end.

(** [app.post('/toggles')] on the request body. *)
Definition postToggles (body : value) (s : state) : state :=
  let b := or_else body (Obj []) in
  let autoTrade := get "autoTrade" b in
  let mode := get "mode" b in
  let s1 :=
    match autoTrade with
    | Undefined => s
    | _ =>
        let s' := set_redis
                    (Redis.set "toggles:autoTrade"
                       (if truthy autoTrade then "true" else "false") (redis s))
                    s in
        set_AUTO_TRADE (truthy autoTrade) s'
    end in
  if truthy mode && (strict_eq_str mode "live" || strict_eq_str mode "paper")
  then set_MODE (ToString mode)
         (set_redis (Redis.set "toggles:mode" (ToString mode) (redis s1)) s1)
  else s1.

(** *** Helpers *)

Definition now : M state float :=
  fun s => (Normal (Date_now (clock s)), set_clock (S (clock s)) (uuids s) s).

Definition fresh_uuid : M state string :=
  fun s => (Normal (uuidv4 (uuids s)), set_clock (clock s) (S (uuids s)) s).

(** The test of [findIndex] in [protectiveFirst]:
    [(l?.side || '').toUpperCase() === 'SELL']. A truthy [side] that is not a
    string has no [toUpperCase]. *)
Definition isSell (l : value) : completion bool :=
  match or_else (get "side" l) (Str "") with
  | Str s => Normal (String.eqb (toUpperCase s) "SELL")
  | _ => Throw (TypeError "toUpperCase is not a function")
  end.

Definition protectiveFirst (legs : value) : completion (list value) :=
  match or_else legs (Arr []) with
  | Arr xs =>
      match findIndex isSell xs 0 with
      | Throw e => Throw e
      | Normal (Some idx) =>
          Normal (nth idx xs Undefined
                    :: filteri (fun i => negb (Nat.eqb i idx)) 0 xs)
      | Normal None => Normal xs
      end
  | _ => Throw (TypeError "findIndex is not a function")
  end.

Definition sendOrder (corrId legIndex leg : value) (tif : string)
  : M state value :=
  enabled <- gets tradingEnabled ;;
  if negb enabled then ret Null
  else
    orderId <- fresh_uuid ;;
    ts <- now ;;
    let msg :=
      Obj (object
             [("id", Str orderId); ("ts", Num ts); ("type", Str "order.new");
              ("payload",
               Obj (spread leg
                      (object [("corrId", corrId); ("legIndex", legIndex);
                               ("tif", Str tif)])))]) in
    modify (fun s => set_redis (Redis.xadd "orders.new" msg (redis s)) s) ;;
    modify (fun s => set_counters (execCounter s) (S (legCounter s))
                       (tradeCounter s) s) ;;
    ret (Str orderId).

(** One turn of the loop over [fills] in [computePnlFromFills]. *)
Definition pnl_step (acc : float * float) (f : value) : float * float :=
  let side := toUpperCase
                (ToString (or_else (get "side" (get "payload" f)) (Str ""))) in
  let px := ToNumber (get "px" (get "payload" f)) in
  let sz := ToNumber (or_else (get "filledSize" (get "payload" f)) (Num 0)) in
  if negb (PrimFloat.is_finite px) || negb (PrimFloat.is_finite sz) then acc
  else
    let sgn := if String.eqb side "SELL" then 1%float
               else if String.eqb side "BUY" then (-1)%float
               else 0%float in
    ((fst acc + sgn * px * sz)%float, (snd acc + sz)%float).

Definition side_is (which : string) (l : value) : bool :=
  String.eqb (toUpperCase (ToString (get "side" l))) which.

Definition computePnlFromFills (opp : value) (fills : list value) : float :=
  let legs := or_else (get "legs" (get "payload" opp)) (Arr []) in
  if Nat.eqb (List.length fills) 0 then 0%float
  else
    let acc := fold_left pnl_step fills (0%float, 0%float) in
    let gross := fst acc in
    let qty := snd acc in
    match legs with
    | Arr ls =>
        let buy := match find (side_is "BUY") ls with
                   | Some l => l | None => Undefined end in
        let sell := match find (side_is "SELL") ls with
                    | Some l => l | None => Undefined end in
        let mid :=
          if negb (nullish (get "estPx" buy)) && negb (nullish (get "estPx" sell))
          then Num ((ToNumber (get "estPx" buy) + ToNumber (get "estPx" sell)) / 2)%float
          else Null in
        let costs := get "costs" (get "payload" opp) in
        let feesAbs := ToNumber (or_else (get "fees" costs) (Num 0)) in
        let slipAbs := ToNumber (or_else (get "slippage" costs) (Num 0)) in
        let borAbs := ToNumber (or_else (get "borrow" costs) (Num 0)) in
        let feesLikeAbs := (feesAbs + slipAbs + borAbs)%float in
        let totalFees :=
          if truthy mid && truthy (Num qty)
          then (feesLikeAbs * (qty * ToNumber mid))%float
          else 0%float in
        let realized := (gross - totalFees)%float in
        if PrimFloat.is_finite realized then realized else 0%float
    | _ => 0%float
    end.

(** The identifiers bound where the body of [emitTrade] is evaluated: its
    parameters and constants, then the module's imports and top-level
    declarations (a property of Node's global object is none of them, and
    none is called [approved]). *)
Definition emitTrade_scope : list string :=
  ["opp"; "fills"; "realizedPnl"; "trade";
   "express"; "client"; "Redis"; "mongoose"; "uuidv4";
   "app"; "register"; "execCounter"; "legCounter"; "tradeCounter";
   "REDIS_URL"; "redisKV"; "redisStreamOpp"; "redisStreamFills";
   "kvReady"; "oppReady"; "fillsReady"; "bindReadyLog";
   "MONGO_URL"; "Trade"; "parseBool"; "ENV_AUTO"; "ENV_MODE";
   "AUTO_TRADE"; "MODE"; "MIN_REALIZED_PNL"; "tradingEnabled";
   "refreshToggles"; "GROUP"; "CONSUMER"; "ensureGroup"; "inflight";
   "protectiveFirst"; "sendOrder"; "computePnlFromFills"; "emitTrade";
   "consumeOpportunities"; "consumeFills"; "withTimeout"; "PORT"].

(** Evaluating an identifier: one that no scope binds throws a
    ReferenceError. [env] gives the values of the bound data. *)
Definition identifier (env : list (string * value)) (x : string)
  : M state value :=
  if existsb (String.eqb x) emitTrade_scope then ret (lookup x env)
  else throw (ReferenceError x).

Definition emitTrade (opp : value) (fills : list value) : M state unit :=
  enabled <- gets tradingEnabled ;;
  if negb enabled then ret tt
  else
    let realizedPnl := computePnlFromFills opp fills in
    if negb (PrimFloat.is_finite realizedPnl
             && PrimFloat.ltb MIN_REALIZED_PNL realizedPnl)
    then ret tt
    else
      ts <- now ;;
      let mode := if truthy (get "paper" (get "payload" opp))
                  then "paper" else "live" in
      let legs := or_else (get "legs" (get "payload" opp)) (Arr []) in
      approved <- identifier [("opp", opp); ("fills", Arr fills);
                              ("realizedPnl", Num realizedPnl)] "approved" ;;
      let trade :=
        Obj (object [("ts", Num ts); ("mode", Str mode); ("legs", legs);
                     ("realizedPnl", Num realizedPnl); ("taken", Bool true);
                     ("approved", approved); ("source", Str "executor")]) in
      modify (fun s => set_redis (Redis.xadd "arb.trades" trade (redis s)) s) ;;
      modify (fun s => set_counters (execCounter s) (legCounter s)
                         (S (tradeCounter s)) s) ;;
      has_model <- gets Trade ;;
      when has_model
        (modify (fun s => set_trades_collection
                            (trades_collection s ++ [trade]) s)).

(** *** Consumers *)

Definition GROUP : string := "executor".

Definition xreadgroup (count : nat) (stream : string)
  : M state (list Redis.message) :=
  fun s => let (msgs, r) := Redis.xreadgroup GROUP count stream (redis s) in
           (Normal msgs, set_redis r s).

Definition xack (stream : string) (id : nat) : M state unit :=
  modify (fun s => set_redis (Redis.xack stream GROUP id (redis s)) s).

Definition JSON_parse (data : option value) : M state value :=
  match data with
  | Some v => ret v
  | None => throw SyntaxError
  end.

(** [v.k] where [v] may be null: reading a property of null throws. *)
Definition member (k : string) (v : value) : M state value :=
  match v with
  | Undefined | Null => throw (TypeError "cannot read properties of null")
  | _ => ret (get k v)
  end.

(** The body of the loop of [consumeOpportunities] for one message. *)
Definition onOpportunity (source : string) (msg : Redis.message)
  : M state unit :=
  let (id, data) := msg in
  try_catch
    (opp <- JSON_parse data ;;
     modify (fun s => set_counters (S (execCounter s)) (legCounter s)
                        (tradeCounter s) s) ;;
     c1 <- member "corrId" opp ;;
     corrId <- (if truthy c1 then ret c1
                else if truthy (get "id" opp) then ret (get "id" opp)
                else (u <- fresh_uuid ;; ret (Str u))) ;;
     legs <- lift (protectiveFirst
                     (or_else (get "legs" (get "payload" opp)) (Arr []))) ;;
     startedTs <- now ;;
     modify (fun s => set_inflight
                        (Map_set corrId
                           {| opp := opp; legs := legs; fills := [];
                              startedTs := startedTs |} (inflight s)) s) ;;
     (if truthy (nth 0 legs Undefined)
      then (_ <- sendOrder corrId (Num 0) (nth 0 legs Undefined) "IOC" ;; ret tt)
      else ret tt) ;;
     xack source id)
    (fun _ => xack source id).

Definition consumeOpportunities : M state unit :=
  enabled <- gets tradingEnabled ;;
  if negb enabled then ret tt
  else
    ready <- gets oppReady ;;
    if negb ready then ret tt
    else
      let source := "arb.opportunities" in
      msgs <- xreadgroup 20 source ;;
      for_of msgs (onOpportunity source).

(** The body of the loop of [consumeFills] for one message. *)
Definition onFill (msg : Redis.message) : M state unit :=
  let (id, data) := msg in
  try_catch
    (fill <- JSON_parse data ;;
     let p := or_else (get "payload" fill) (Obj []) in
     let corrId := get "corrId" p in
     let legIndex := get "legIndex" p in
     let filledSize := match get "filledSize" p with
                       | Undefined => Num 0
                       | v => v
                       end in
     table <- gets inflight ;;
     match Map_get corrId table with
     | None => xack "orders.fills" id
     | Some st0 =>
         let st := {| opp := opp st0; legs := legs st0;
                      fills := assign_key (fills st0) legIndex fill;
                      startedTs := startedTs st0 |} in
         modify (fun s => set_inflight (Map_set corrId st (inflight s)) s) ;;
         (if strict_eq_num legIndex 0 then
            if gt_num filledSize 0 then
              if truthy (nth 1 (legs st) Undefined)
              then (_ <- sendOrder corrId (Num 1) (nth 1 (legs st) Undefined)
                          "IOC" ;; ret tt)
              else (emitTrade (opp st) (fills st) ;;
                    modify (fun s => set_inflight
                                       (Map_delete corrId (inflight s)) s))
            else modify (fun s => set_inflight
                                    (Map_delete corrId (inflight s)) s)
          else (emitTrade (opp st) (fills st) ;;
                modify (fun s => set_inflight
                                   (Map_delete corrId (inflight s)) s))) ;;
         xack "orders.fills" id
     end)
    (fun _ => xack "orders.fills" id).

Definition consumeFills : M state unit :=
  enabled <- gets tradingEnabled ;;
  if negb enabled then ret tt
  else
    ready <- gets fillsReady ;;
    if negb ready then ret tt
    else
      msgs <- xreadgroup 50 "orders.fills" ;;
      for_of msgs onFill.

End Code.
End Executor.

(** ** Order simulator (services/order-simulator/src/index.js) *)

Module Simulator.
Import JS.

Record state : Type := {
  fillsCounter : nat;
  redis : Redis.t;
  clock : nat
}.

Definition set_redis (r : Redis.t) (s : state) : state :=
  {| fillsCounter := fillsCounter s; redis := r; clock := clock s |}.

Section Code.
Context {rt : Runtime}.

Definition now : M state float :=
  fun s => (Normal (Date_now (clock s)),
            {| fillsCounter := fillsCounter s; redis := redis s;
               clock := S (clock s) |}).

(** [Number(ord?.payload?.size ?? 1) || 1]. *)
Definition fillSize (ord : value) : float :=
  let n := ToNumber (coalesce (get "size" (get "payload" ord)) (Num 1)) in
  if truthy (Num n) then n else 1%float.

(** The fill [emitFillFromOrder] builds for an order, stamped [ts]. *)
Definition fillOf (ord : value) (ts : float) : value :=
  let size := fillSize ord in
  let p := get "payload" ord in
  Obj (object
         [("id", get "id" ord); ("ts", Num ts); ("type", Str "order.fill");
          ("payload",
           Obj (object
                  [("corrId", get "corrId" p); ("legIndex", get "legIndex" p);
                   ("exchange", get "exchange" p);
                   ("instrumentId", get "instrumentId" p);
                   ("side", get "side" p); ("px", get "estPx" p);
                   ("requestedSize", Num size); ("filledSize", Num size);
                   ("mode", get "mode" p)]))]).

Definition emitFillFromOrder (ord : value) : M state unit :=
  ts <- now ;;
  let fill := fillOf ord ts in
  modify (fun s => set_redis (Redis.xadd "orders.fills" fill (redis s)) s) ;;
  modify (fun s => {| fillsCounter := S (fillsCounter s); redis := redis s;
                      clock := clock s |}).

Definition GROUP : string := "sim".

Definition xack (id : nat) : M state unit :=
  modify (fun s => set_redis (Redis.xack "orders.new" GROUP id (redis s)) s).

(** The body of the loop of [run] for one message; [readJsonFromFields]
    gives null for a text that does not parse. *)
Definition onOrder (msg : Redis.message) : M state unit :=
  let (id, data) := msg in
  try_finally
    (try_catch
       (match data with
        | None => xack id
        | Some ord => if negb (truthy ord) then xack id
                      else emitFillFromOrder ord
        end)
       (fun _ => ret tt))
    (xack id).

(** One pass of the loop of [run]: a read of [orders.new] and its messages. *)
Definition run_once : M state unit :=
  fun s =>
    let (msgs, r) := Redis.xreadgroup GROUP 50 "orders.new" (redis s) in
    for_of msgs onOrder (set_redis r s).

End Code.
End Simulator.

(** ** Trade assembler (services/trade-assembler/src/index.js) *)

Module Assembler.
Import JS.

(** A record of the join buffer: [{ legs, ts, mode }]. *)
Record rec : Type := {
  legs : list value;
  ts : value;
  mode : value
}.

Record state : Type := {
  pending : list (value * rec);
  tradesBuilt : nat;
  redis : Redis.t;
  trades_collection : list value;
  clock : nat
}.

Definition set_pending (p : list (value * rec)) (s : state) : state :=
  {| pending := p; tradesBuilt := tradesBuilt s; redis := redis s;
     trades_collection := trades_collection s; clock := clock s |}.

Definition set_redis (r : Redis.t) (s : state) : state :=
  {| pending := pending s; tradesBuilt := tradesBuilt s; redis := r;
     trades_collection := trades_collection s; clock := clock s |}.

(** A leg of a trade, as [computeTradeFromFills] maps a fill. *)
Record leg : Type := {
  exchange : value;
  instrumentId : value;
  side : string;
  px : float;
  size : float
}.

Definition leg_value (l : leg) : value :=
  Obj (object [("exchange", exchange l); ("instrumentId", instrumentId l);
               ("side", Str (side l)); ("px", Num (px l));
               ("size", Num (size l))]).

Section Code.
Context {rt : Runtime}.

Definition now : M state float :=
  fun s => (Normal (Date_now (clock s)),
            {| pending := pending s; tradesBuilt := tradesBuilt s;
               redis := redis s; trades_collection := trades_collection s;
               clock := S (clock s) |}).

Definition upsertFill (fill : value) : M state (option rec) :=
  let corr := get "corrId" (get "payload" fill) in
  if negb (truthy corr) then ret None
  else
    table <- gets pending ;;
    rec0 <- match Map_get corr table with
            | Some r => ret r
            | None => (t <- now ;;
                       ret {| legs := []; ts := Num t; mode := Str "paper" |})
            end ;;
    let m := get "mode" (get "payload" fill) in
    let r := {| legs := legs rec0 ++ [fill];
                ts := or_else (get "ts" fill) (ts rec0);
                mode := if truthy m then m else mode rec0 |} in
    modify (fun s => set_pending (Map_set corr r (pending s)) s) ;;
    if Nat.leb 2 (List.length (legs r))
    then (modify (fun s => set_pending (Map_delete corr (pending s)) s) ;;
          ret (Some r))
    else ret None.

Definition leg_of_fill (f : value) : leg :=
  let p := get "payload" f in
  {| exchange := get "exchange" p;
     instrumentId := get "instrumentId" p;
     side := toUpperCase (ToString (or_else (get "side" p) (Str "")));
     px := ToNumber (get "px" p);
     size := ToNumber (or_else (get "filledSize" p) (Num 0)) |}.

Definition computeTradeFromFills (r : rec) : option value :=
  let ls := map leg_of_fill (legs r) in
  if Nat.ltb (List.length ls) 2 then None
  else
    match find (fun l => String.eqb (side l) "BUY") ls,
          find (fun l => String.eqb (side l) "SELL") ls with
    | Some buy, Some sell =>
        let sz := Math_min (size buy) (size sell) in
        let realized := ((px sell - px buy) * sz)%float in
        Some (Obj (object
                     [("ts", ts r);
                      ("mode", or_else (mode r) (Str "paper"));
                      ("legs", Arr (map leg_value ls));
                      ("realizedPnl",
                       Num (if PrimFloat.is_finite realized then realized
                            else 0%float))]))
    | _, _ => None
    end.

Definition GROUP : string := "asm".

(** The text of an entry id; ids are positions in a stream here. *)
Definition id_text (id : nat) : string := decimal id.

(** The body of the loop of [run] for one message (a missing or empty text
    is parsed as [{}]: it is the message [Some (Obj [])]). *)
Definition onFill (msg : Redis.message) : M state unit :=
  let (id, data) := msg in
  try_catch
    (fill <- match data with
             | Some v => ret v
             | None => throw SyntaxError
             end ;;
     joined <- upsertFill fill ;;
     match joined with
     | Some r =>
         match computeTradeFromFills r with
         | Some trade =>
             modify (fun s =>
                       {| pending := pending s; tradesBuilt := tradesBuilt s;
                          redis := redis s;
                          trades_collection := trades_collection s ++ [trade];
                          clock := clock s |}) ;;
             modify (fun s =>
                       set_redis
                         (Redis.xadd "arb.trades"
                            (Obj (object [("id", Str (id_text id));
                                          ("ts", get "ts" trade);
                                          ("type", Str "trade");
                                          ("payload", trade)]))
                            (redis s)) s) ;;
             modify (fun s =>
                       {| pending := pending s;
                          tradesBuilt := S (tradesBuilt s);
                          redis := redis s;
                          trades_collection := trades_collection s;
                          clock := clock s |})
         | None => ret tt
         end
     | None => ret tt
     end)
    (fun _ => ret tt) ;;
  modify (fun s => set_redis (Redis.xack "orders.fills" GROUP id (redis s)) s).

(** One pass of the loop of [run]. *)
Definition run_once : M state unit :=
  fun s =>
    let (msgs, r) := Redis.xreadgroup GROUP 50 "orders.fills" (redis s) in
    for_of msgs onFill (set_redis r s).

End Code.
End Assembler.

(** ** Risk engine (services/risk-slippage-engine/src/index.js) *)

Module Risk.
Import JS.

(** The policy thresholds and stream names read from the environment. *)
Record config : Type := {
  EDGE_MIN_BPS : float;
  NET_MIN_BPS : float;
  MAX_TOTAL_SIZE : float;
  REQUIRE_BOTH_SIDES : bool;
  ALLOW_PAPER_ONLY : bool;
  INPUT_STREAM : string;
  OUTPUT_STREAM : string
}.

(** The result of [evaluateRisk]: [{ ok, reason, netBps?, totalFeesLikeBps? }]. *)
Record verdict : Type := {
  ok : bool;
  reason : string;
  netBps : value;
  totalFeesLikeBps : value
}.

Record state : Type := {
  approvedCounter : nat;
  rejectedCounter : nat;
  redis : Redis.t
}.

Definition set_redis (r : Redis.t) (s : state) : state :=
  {| approvedCounter := approvedCounter s;
     rejectedCounter := rejectedCounter s; redis := r |}.

Section Code.
Context {rt : Runtime}.
Variable cfg : config.

Definition toUpper (s : value) : string :=
  toUpperCase (ToString (or_else s (Str ""))).

Definition safeNum (v : value) (d : float) : float :=
  if nullish v || isNaN v then d else ToNumber v.

Definition reject (why : string) : verdict :=
  {| ok := false; reason := why; netBps := Undefined;
     totalFeesLikeBps := Undefined |}.

Definition evaluateRisk (opp : value) : verdict :=
  let p := or_else (get "payload" opp) (Obj []) in
  let mode := if truthy (get "paper" p) then "paper" else "live" in
  if negb (ALLOW_PAPER_ONLY cfg) && String.eqb mode "paper"
  then reject "paper_mode_not_allowed"
  else
    let legs := match get "legs" p with
                | Arr xs => filter truthy xs
                | _ => []
                end in
    let hasBuy := existsb (fun l => String.eqb (toUpper (get "side" l)) "BUY") legs in
    let hasSell := existsb (fun l => String.eqb (toUpper (get "side" l)) "SELL") legs in
    if REQUIRE_BOTH_SIDES cfg && (negb hasBuy || negb hasSell)
    then reject "missing_side"
    else
      let totalSize :=
        fold_left (fun a b => (a + safeNum (get "size" b) 0)%float) legs 0%float in
      if PrimFloat.ltb 0 totalSize && PrimFloat.ltb (MAX_TOTAL_SIZE cfg) totalSize
      then reject "size_exceeds_cap"
      else
        let buy := match find (fun l => String.eqb (toUpper (get "side" l)) "BUY") legs with
                   | Some l => l | None => Undefined end in
        let sell := match find (fun l => String.eqb (toUpper (get "side" l)) "SELL") legs with
                    | Some l => l | None => Undefined end in
        let buyPx := safeNum (get "estPx" buy) nan in
        let sellPx := safeNum (get "estPx" sell) nan in
        let grossBps0 :=
          if Number_isFinite (get "edgeBps" p) then ToNumber (get "edgeBps" p)
          else nan in
        let grossBps :=
          if negb (PrimFloat.is_finite grossBps0)
             && PrimFloat.is_finite buyPx && PrimFloat.is_finite sellPx
          then
            let mid := ((buyPx + sellPx) / 2)%float in
            if PrimFloat.ltb 0 mid
            then (((sellPx - buyPx) / mid) * 10000)%float
            else grossBps0
          else grossBps0 in
        if negb (PrimFloat.is_finite grossBps)
           || PrimFloat.ltb grossBps (EDGE_MIN_BPS cfg)
        then reject "edge_below_threshold"
        else
          let legsFeeBps :=
            fold_left (fun a b => (a + b)%float)
                      (map (fun l => safeNum (get "feeBps" l) 0) legs) 0%float in
          let costs := get "costs" p in
          let feesBpsAbs := (safeNum (get "fees" costs) 0 * 10000)%float in
          let feesBps := if PrimFloat.ltb 0 legsFeeBps then legsFeeBps
                         else feesBpsAbs in
          let slippageBps := (safeNum (get "slippage" costs) 0 * 10000)%float in
          let borrowBps := (safeNum (get "borrow" costs) 0 * 10000)%float in
          let total := (feesBps + slippageBps + borrowBps)%float in
          let net := StringToNumber (toFixed (grossBps - total)%float 2) in
          if PrimFloat.ltb net (NET_MIN_BPS cfg)
          then {| ok := false; reason := "net_below_threshold";
                  netBps := Num net; totalFeesLikeBps := Num total |}
          else {| ok := true; reason := "approved";
                  netBps := Num net; totalFeesLikeBps := Num total |}.

(** The [risk] block of an approved opportunity. *)
Definition riskBlock (ev : verdict) : value :=
  Obj (object
         [("reason", or_else (Str (reason ev)) (Str "approved"));
          ("netBps", netBps ev);
          ("totalFeesLikeBps", totalFeesLikeBps ev);
          ("policy",
           Obj (object
                  [("EDGE_MIN_BPS", Num (EDGE_MIN_BPS cfg));
                   ("NET_MIN_BPS", Num (NET_MIN_BPS cfg));
                   ("MAX_TOTAL_SIZE", Num (MAX_TOTAL_SIZE cfg));
                   ("REQUIRE_BOTH_SIDES", Bool (REQUIRE_BOTH_SIDES cfg))]))]).

(** [{ ...opp, approved: true, risk: {...} }]. *)
Definition buildApproved (opp : value) (ev : verdict) : value :=
  Obj (setProp "risk" (riskBlock ev)
         (setProp "approved" (Bool true) (spread opp []))).

Definition GROUP : string := "risk".

(** The body of the loop of [consume] for one message. *)
Definition onMessage (msg : Redis.message) : M state unit :=
  let (id, data) := msg in
  try_finally
    (try_catch
       (opp <- match data with
               | Some v => ret v
               | None => throw SyntaxError
               end ;;
        let ev := evaluateRisk opp in
        if ok ev then
          let approved := buildApproved opp ev in
          modify (fun s => set_redis
                             (Redis.xadd (OUTPUT_STREAM cfg) approved (redis s)) s) ;;
          modify (fun s => {| approvedCounter := S (approvedCounter s);
                              rejectedCounter := rejectedCounter s;
                              redis := redis s |})
        else
          modify (fun s => {| approvedCounter := approvedCounter s;
                              rejectedCounter := S (rejectedCounter s);
                              redis := redis s |}))
       (fun _ => ret tt))
    (modify (fun s => set_redis
                        (Redis.xack (INPUT_STREAM cfg) GROUP id (redis s)) s)).

Definition consume : M state unit :=
  fun s =>
    let (msgs, r) := Redis.xreadgroup GROUP 50 (INPUT_STREAM cfg) (redis s) in
    for_of msgs onMessage (set_redis r s).

End Code.
End Risk.

(** ** Options scanner (the first program of
    services/scanner-options-arb/src/index.js) *)

Module Scanner.
Import JS.

Record config : Type := {
  OPT_EX1_PREFIX : string;
  OPT_EX2_PREFIX : string;
  OPT_EX1_LABEL : string;
  OPT_EX2_LABEL : string;
  EX1_TAKER_BPS : float;
  EX2_TAKER_BPS : float;
  MIN_NET_BPS : float;
  MIN_GROSS_BPS : float;
  MIN_ABS_SPREAD : float;
  MIN_NOTIONAL : float;
  MAX_BOOK_AGE_MS : float;
  EMIT_RATE_PER_SEC : float;
  EMIT_BURST : float
}.

(** The token bucket, Redis, and the count of the calls of [Date.now]. *)
Record state : Type := {
  tokens : float;
  lastRefill : float;
  redis : Redis.t;
  clock : nat
}.

(** A parsed top of book [{ bid, ask, ts }]. *)
Record book : Type := {
  bid : float;
  ask : float;
  ts : float
}.

(** The result of [calcEdge]: [{ mid, grossBps, feesBps, netBps, abs }]. *)
Record edge : Type := {
  mid : float;
  grossBps : float;
  feesBps : float;
  netBps : float;
  abs : float
}.

(** An element of the intersection: [{ canon, native1, native2 }]. *)
Record pair : Type := {
  canon : string;
  native1 : string;
  native2 : string
}.

Section Code.
Context {rt : Runtime}.
Variable cfg : config.

Definition obKey (exPrefix nativeId : string) : string :=
  String.append "orderbook:" (String.append exPrefix (String.append ":" nativeId)).

Definition now : M state float :=
  fun s => (Normal (Date_now (clock s)),
            {| tokens := tokens s; lastRefill := lastRefill s;
               redis := redis s; clock := S (clock s) |}).

Definition bps (x : float) : float := (x * 10000)%float.

(** [safeNum]: the number a value converts to when it is finite. *)
Definition safeNum (x : value) : option float :=
  let n := ToNumber x in
  if PrimFloat.is_finite n then Some n else None.

(** [takeToken()], with its default [n = 1]. *)
Definition takeToken : M state bool :=
  t <- now ;;
  fun s =>
    let delta := ((t - lastRefill s) / 1000)%float in
    let tk := Math_min (EMIT_BURST cfg)
                (tokens s + delta * EMIT_RATE_PER_SEC cfg)%float in
    if PrimFloat.leb 1 tk
    then (Normal true,
          {| tokens := (tk - 1)%float; lastRefill := t; redis := redis s;
             clock := clock s |})
    else (Normal false,
          {| tokens := tk; lastRefill := t; redis := redis s;
             clock := clock s |}).

(** [parseBook(raw)]: [raw] is the reply of MGET for a key, [None] for a
    missing key; a text that does not parse, or parses to null, gives null. *)
Definition parseBook (raw : option (option value)) : M state (option book) :=
  match raw with
  | None | Some None | Some (Some Null) => ret None
  | Some (Some obj) =>
      match safeNum (get "bid" obj), safeNum (get "ask" obj) with
      | Some b, Some a =>
          if truthy (get "ts" obj)
          then ret (Some {| bid := b; ask := a; ts := ToNumber (get "ts" obj) |})
          else (t <- now ;;
                ret (Some {| bid := b; ask := a; ts := ToNumber (Num t) |}))
      | _, _ => ret None
      end
  end.

Definition calcEdge (pxBuy feeBuyBps pxSell feeSellBps : float) : edge :=
  let mid := ((pxBuy + pxSell) / 2)%float in
  if negb (PrimFloat.ltb 0 mid)
  then {| mid := 0; grossBps := 0; feesBps := 0; netBps := 0; abs := 0 |}
  else
    let grossBps := bps ((pxSell - pxBuy) / mid)%float in
    let feesBps := ((if truthy (Num feeBuyBps) then feeBuyBps else 0)
                    + (if truthy (Num feeSellBps) then feeSellBps else 0))%float in
    let netBps := (grossBps - feesBps)%float in
    let abs := (pxSell - pxBuy)%float in
    {| mid := mid; grossBps := grossBps; feesBps := feesBps;
       netBps := netBps; abs := abs |}.

(** [emitOpp(legs, edgeBps, feesBps, paper)]. *)
Definition emitOpp (legs : value) (edgeBps feesBps : float) (paper : bool)
  : M state unit :=
  granted <- takeToken ;;
  if negb granted then ret tt
  else
    let payload := Obj (object [("edgeBps", Num edgeBps); ("legs", legs);
                                ("paper", Bool paper)]) in
    t <- now ;;
    modify (fun s =>
              {| tokens := tokens s; lastRefill := lastRefill s;
                 redis := Redis.xadd "arb.opportunities"
                            (Obj (object [("ts", Num t); ("payload", payload)]))
                            (redis s);
                 clock := clock s |}).

(** The condition both paths of [scanOnce] test on the result of [calcEdge]. *)
Definition qualifies (e : edge) : bool :=
  let notionalOK := PrimFloat.leb (MIN_NOTIONAL cfg) (mid e * 1)%float in
  PrimFloat.is_finite (netBps e)
  && PrimFloat.leb (MIN_GROSS_BPS cfg) (grossBps e)
  && PrimFloat.leb (MIN_NET_BPS cfg) (netBps e)
  && PrimFloat.leb (MIN_ABS_SPREAD cfg) (abs e)
  && notionalOK.

Definition legValue (exchange instrumentId side : string) (estPx feeBps : float)
  : value :=
  Obj (object [("exchange", Str exchange); ("instrumentId", Str instrumentId);
               ("side", Str side); ("estPx", Num estPx); ("feeBps", Num feeBps)]).

(** The legs of path A (BUY on the first venue at its ask, SELL on the
    second at its bid) and of path B (the reverse). *)
Definition legsA (canon : string) (b1 b2 : book) : value :=
  Arr [legValue (OPT_EX1_LABEL cfg) canon "BUY" (ask b1) (EX1_TAKER_BPS cfg);
       legValue (OPT_EX2_LABEL cfg) canon "SELL" (bid b2) (EX2_TAKER_BPS cfg)].

Definition legsB (canon : string) (b1 b2 : book) : value :=
  Arr [legValue (OPT_EX2_LABEL cfg) canon "BUY" (ask b2) (EX2_TAKER_BPS cfg);
       legValue (OPT_EX1_LABEL cfg) canon "SELL" (bid b1) (EX1_TAKER_BPS cfg)].

Definition pathA (canon : string) (b1 b2 : book) : M state unit :=
  if truthy (Num (ask b1)) && truthy (Num (bid b2)) then
    let e := calcEdge (ask b1) (EX1_TAKER_BPS cfg) (bid b2) (EX2_TAKER_BPS cfg) in
    if qualifies e then emitOpp (legsA canon b1 b2) (grossBps e) (feesBps e) true
    else ret tt
  else ret tt.

Definition pathB (canon : string) (b1 b2 : book) : M state unit :=
  if truthy (Num (ask b2)) && truthy (Num (bid b1)) then
    let e := calcEdge (ask b2) (EX2_TAKER_BPS cfg) (bid b1) (EX1_TAKER_BPS cfg) in
    if qualifies e then emitOpp (legsB canon b1 b2) (grossBps e) (feesBps e) true
    else ret tt
  else ret tt.

Definition stale (tNow : float) (b : book) : bool :=
  PrimFloat.ltb (MAX_BOOK_AGE_MS cfg) (tNow - ts b)%float.

(** The body of the loop of [scanOnce] for a pair whose two books parsed. *)
Definition scanBooks (tNow : float) (canon : string) (b1 b2 : book)
  : M state unit :=
  if stale tNow b1 || stale tNow b2 then ret tt
  else (pathA canon b1 b2 ;; pathB canon b1 b2).

(** The body of the loop of [scanOnce] for the [i]-th pair. *)
Definition scanPair (tNow : float) (raws : list (option (option value)))
  (ip : nat * pair) : M state unit :=
  let (i, p) := ip in
  b1 <- parseBook (nth (i * 2 + 0) raws None) ;;
  b2 <- parseBook (nth (i * 2 + 1) raws None) ;;
  match b1, b2 with
  | Some b1, Some b2 => scanBooks tNow (canon p) b1 b2
  | _, _ => ret tt
  end.

(** [scanOnce()], for the pairs [discoverIntersection()] returned. *)
Definition scanOnce (pairs : list pair) : M state unit :=
  if Nat.eqb (List.length pairs) 0 then ret tt
  else
    let keys :=
      flat_map (fun p => [obKey (OPT_EX1_PREFIX cfg) (native1 p);
                          obKey (OPT_EX2_PREFIX cfg) (native2 p)]) pairs in
    raws <- gets (fun s => map (Redis.docs (redis s)) keys) ;;
    tNow <- now ;;
    for_of (Redis.number_from 0 pairs) (scanPair tNow raws).

End Code.
End Scanner.

(** ** Canonical instrument ids (the options scanner's discovery) *)

Module Canon.
Import JS.

(** The result of [parseNativeOptionId]: [{ base, y, m, d, strike, cp }]. *)
Record parsed : Type := {
  base : string;
  y : float;
  m : float;
  d : float;
  strike : float;
  cp : string
}.

(** *** The three patterns

    None of the groups of the three regular expressions can hold a hyphen,
    so a string matches one of them exactly when its hyphen-separated fields
    are as many as the pattern's and each is in the class of its group. *)

Definition is_upper (c : ascii) : bool :=
  let n := nat_of_ascii c in Nat.leb 65 n && Nat.leb n 90.

Definition is_digit (c : ascii) : bool :=
  let n := nat_of_ascii c in Nat.leb 48 n && Nat.leb n 57.

Definition is_strike (c : ascii) : bool := is_digit c || Ascii.eqb c ".".

Fixpoint all (p : ascii -> bool) (s : string) : bool :=
  match s with
  | EmptyString => true
  | String c r => p c && all p r
  end.

(** [[class]+]: one or more characters of the class. *)
Definition some (p : ascii -> bool) (s : string) : bool :=
  negb (String.eqb s "") && all p s.

(** [\d{n}]. *)
Definition digits (n : nat) (s : string) : bool :=
  Nat.eqb (String.length s) n && all is_digit s.

(** [(C|P)]. *)
Definition is_cp (s : string) : bool := String.eqb s "C" || String.eqb s "P".

(** The fields of [s] between its hyphens. *)
Fixpoint fields (s : string) : list string :=
  match s with
  | EmptyString => [EmptyString]
  | String c r =>
      if Ascii.eqb c "-" then EmptyString :: fields r
      else match fields r with
           | f :: fs => String c f :: fs
           | [] => [String c EmptyString]
           end
  end.

(** [Number(s)] for a string of decimal digits, as the groups [\d{n}]
    capture: the integer it names. *)
Definition digitsNumber (s : string) : float :=
  match Executor.digits_value s 0 with
  | Some z => PrimFloat.of_uint63 (Uint63.of_Z z)
  | None => nan
  end.

Definition MONTHS3 : list (string * float) :=
  [("JAN", 1); ("FEB", 2); ("MAR", 3); ("APR", 4); ("MAY", 5); ("JUN", 6);
   ("JUL", 7); ("AUG", 8); ("SEP", 9); ("OCT", 10); ("NOV", 11);
   ("DEC", 12)]%float.

Fixpoint month (name : string) (table : list (string * float)) : option float :=
  match table with
  | [] => None
  | (k, v) :: r => if String.eqb k name then Some v else month name r
  end.

(** [s.replace(/\.0+$/, '')]: a final dot followed by zeros only is cut. *)
Fixpoint stripZeros (s : string) : string :=
  match s with
  | EmptyString => EmptyString
  | String c r =>
      if Ascii.eqb c "." && some (Ascii.eqb "0") r then EmptyString
      else String c (stripZeros r)
  end.

Section Code.
Context {rt : Runtime}.

(** [String(x).padStart(2, '0')]. *)
Definition pad2 (x : float) : string :=
  let s := NumberToString x in
  match String.length s with
  | 0 => "00"
  | 1 => String.append "0" s
  | _ => s
  end.

Definition toCanonDate (y m d : float) : string :=
  String.append (NumberToString y)
    (String.append "-" (String.append (pad2 m) (String.append "-" (pad2 d)))).

Definition between (lo x hi : float) : bool :=
  PrimFloat.leb lo x && PrimFloat.leb x hi.

(** Pattern 1, [BASE-YYMMDD-STRIKE-C|P]. *)
Definition pattern1 (s : string) : option parsed :=
  match fields s with
  | [b; ymd; k; c] =>
      if some is_upper b && digits 6 ymd && some is_strike k && is_cp c then
        let y2 := digitsNumber (String.substring 0 2 ymd) in
        let m2 := digitsNumber (String.substring 2 2 ymd) in
        let d2 := digitsNumber (String.substring 4 2 ymd) in
        let year := (2000 + y2)%float in
        let strike := StringToNumber k in
        if PrimFloat.ltb 0 strike && between 1 m2 12 && between 1 d2 31
        then Some {| base := b; y := year; m := m2; d := d2;
                     strike := strike; cp := c |}
        else None
      else None
  | _ => None
  end.

(** Pattern 2, [BASE-DDMMMYY-STRIKE-C|P]. *)
Definition pattern2 (s : string) : option parsed :=
  match fields s with
  | [b; dmy; k; c] =>
      if some is_upper b
         && Nat.eqb (String.length dmy) 7
         && digits 2 (String.substring 0 2 dmy)
         && all is_upper (String.substring 2 3 dmy)
         && digits 2 (String.substring 5 2 dmy)
         && some is_strike k && is_cp c then
        let d2 := digitsNumber (String.substring 0 2 dmy) in
        let mon := month (String.substring 2 3 dmy) MONTHS3 in
        let y2 := digitsNumber (String.substring 5 2 dmy) in
        let year := (2000 + y2)%float in
        let strike := StringToNumber k in
        match mon with
        | Some mo =>
            if PrimFloat.ltb 0 strike && truthy (Num mo) && between 1 d2 31
            then Some {| base := b; y := year; m := mo; d := d2;
                         strike := strike; cp := c |}
            else None
        | None => None
        end
      else None
  | _ => None
  end.

(** Pattern 3, [BASE-YYYY-MM-DD-STRIKE-C|P]. *)
Definition pattern3 (s : string) : option parsed :=
  match fields s with
  | [b; yyyy; mm; dd; k; c] =>
      if some is_upper b && digits 4 yyyy && digits 2 mm && digits 2 dd
         && some is_strike k && is_cp c then
        let y := digitsNumber yyyy in
        let mo := digitsNumber mm in
        let d := digitsNumber dd in
        let strike := StringToNumber k in
        if PrimFloat.leb 2000 y && PrimFloat.ltb 0 strike
           && between 1 mo 12 && between 1 d 31
        then Some {| base := b; y := y; m := mo; d := d;
                     strike := strike; cp := c |}
        else None
      else None
  | _ => None
  end.

Definition parseNativeOptionId (native : value) : option parsed :=
  match native with
  | Str n =>
      if String.eqb n "" then None
      else
        let s := toUpperCase (trim n) in
        match pattern1 s with
        | Some p => Some p
        | None =>
            match pattern2 s with
            | Some p => Some p
            | None => pattern3 s
            end
        end
  | _ => None
  end.

Definition toCanonicalId (p : option parsed) : option string :=
  match p with
  | None => None
  | Some p =>
      let date := toCanonDate (y p) (m p) (d p) in
      let strikeStr := stripZeros (NumberToString (strike p)) in
      Some (String.append (base p)
              (String.append "-"
                 (String.append date
                    (String.append "-"
                       (String.append strikeStr
                          (String.append "-" (cp p)))))))
  end.

(** The canonical id of a native id, if it is recognized. *)
Definition canonOf (native : string) : option string :=
  toCanonicalId (parseNativeOptionId (Str native)).

(** *** Discovery maps: canonical id to native id, in insertion order *)

Definition has (k : string) (m : list (string * string)) : bool :=
  existsb (fun kv => String.eqb (fst kv) k) m.

Fixpoint lookupNative (k : string) (m : list (string * string))
  : option string :=
  match m with
  | [] => None
  | (k', v) :: r => if String.eqb k' k then Some v else lookupNative k r
  end.

(** The loop of [buildCanonMap] over the native ids of a venue. *)
Definition buildCanonMap (nativeList : list string) : list (string * string) :=
  fold_left
    (fun map native =>
       match canonOf native with
       | Some canon =>
           if negb (String.eqb canon "") && negb (has canon map)
           then map ++ [(canon, native)]
           else map
       | None => map
       end)
    nativeList [].

Definition intersectCanonMaps (m1 m2 : list (string * string))
  : list Scanner.pair :=
  flat_map
    (fun kv =>
       let canon := fst kv in
       match lookupNative canon m1, lookupNative canon m2 with
       | Some n1, Some n2 =>
           [{| Scanner.canon := canon; Scanner.native1 := n1;
               Scanner.native2 := n2 |}]
       | _, _ => []
       end)
    m1.

End Code.
End Canon.

(** ** A runtime for the examples

    The theorems below hold for every [Runtime]. The closed examples run on
    this one. Its conversions are those of ECMAScript on the inputs the
    examples use: [StringToNumber] on the empty string, on [Infinity] and on
    signed decimal literals without exponent of at most 2^53 in mantissa
    (where one division of two exact floats rounds correctly);
    [NumberToString] on NaN, the infinities and the integers below 10^21;
    [toFixed] on every number below 10^21 in magnitude. Elsewhere they
    answer NaN and a placeholder. *)

Module Host.
Import JS.

Definition float_of_Z (z : Z) : float :=
  if (z <? 0)%Z then PrimFloat.opp (PrimFloat.of_uint63 (Uint63.of_Z (- z)))
  else PrimFloat.of_uint63 (Uint63.of_Z z).

Fixpoint scan_digits (s : string) (acc : Z) (n : nat) : Z * nat * string :=
  match s with
  | String c r =>
      let d := nat_of_ascii c in
      if Nat.leb 48 d && Nat.leb d 57
      then scan_digits r (10 * acc + Z.of_nat (d - 48))%Z (S n)
      else (acc, n, s)
  | EmptyString => (acc, n, s)
  end.

(** The mantissa and the number of fraction digits of [ddd], [ddd.ddd],
    [ddd.] or [.ddd]. *)
Definition parse_decimal (s : string) : option (Z * nat) :=
  let '(i, ni, r) := scan_digits s 0 0 in
  match r with
  | EmptyString => if Nat.eqb ni 0 then None else Some (i, 0)
  | String c r' =>
      if Ascii.eqb c "."%char then
        let '(f, nf, r'') := scan_digits r' i 0 in
        match r'' with
        | EmptyString => if Nat.eqb (ni + nf) 0 then None else Some (f, nf)
        | _ => None
        end
      else None
  end.

Definition host_StringToNumber (s : string) : float :=
  let s := trim s in
  match s with
  | EmptyString => 0%float
  | String c r =>
      let neg := Ascii.eqb c "-"%char in
      let body := if neg || Ascii.eqb c "+"%char then r else s in
      if String.eqb body "Infinity"
      then (if neg then neg_infinity else infinity)
      else
        match parse_decimal body with
        | Some (m, k) =>
            if (m <? 2 ^ 53)%Z && Nat.leb k 22 then
              let v := (float_of_Z m / float_of_Z (10 ^ Z.of_nat k))%float in
              if neg then PrimFloat.opp v else v
            else nan
        | None => nan
        end
  end.

Definition placeholder : string := "<unsupported>".

Definition host_NumberToString (n : float) : string :=
  if PrimFloat.is_nan n then "NaN"
  else if PrimFloat.eqb n infinity then "Infinity"
  else if PrimFloat.eqb n neg_infinity then "-Infinity"
  else
    match float_to_Z n with
    | Some z =>
        if (Z.abs z <? 10 ^ 21)%Z then
          if (z <? 0)%Z then String.append "-" (decimalN (Z.to_N (- z)))
          else decimalN (Z.to_N z)
        else placeholder
    | None => placeholder
    end.

Fixpoint zeros (n : nat) : string :=
  match n with
  | O => EmptyString
  | S m => String "0"%char (zeros m)
  end.

(** [x.toFixed(d)]: the integer [n] nearest to [x * 10^d], the larger of two,
    written with [d] fraction digits. *)
Definition host_toFixed (x : float) (d : nat) : string :=
  if negb (PrimFloat.is_finite x) then host_NumberToString x
  else if PrimFloat.leb 1e21 (PrimFloat.abs x) then host_NumberToString x
  else
    let n :=
      match Prim2SF x with
      | S754_finite _ m e =>
          let scaled := (Z.pos m * 10 ^ Z.of_nat d)%Z in
          if (0 <=? e)%Z then (scaled * 2 ^ e)%Z
          else ((2 * scaled + 2 ^ (- e)) / (2 * 2 ^ (- e)))%Z
      | _ => 0%Z
      end in
    let ds := decimalN (Z.to_N n) in
    let ds := String.append (zeros (S d - String.length ds)) ds in
    let int_part := String.substring 0 (String.length ds - d) ds in
    let frac := String.substring (String.length ds - d) d ds in
    String.append (if PrimFloat.ltb x 0 then "-" else "")
      (if Nat.eqb d 0 then int_part
       else String.append int_part (String.append "." frac)).

#[export] Instance runtime : Runtime := {|
  StringToNumber := host_StringToNumber;
  NumberToString := host_NumberToString;
  toFixed := host_toFixed;
  Date_now := fun k => float_of_Z (1710000000000 + Z.of_nat k);
  uuidv4 := fun k => String.append "uuid-" (decimal k)
|}.

End Host.


(** ** Concrete inputs

    The opportunity of the end-to-end scenarios of the specification, and
    the states the examples start from. *)

Module Examples.
Import JS.

Definition leg (exchange side_ : string) (estPx size_ : float) : value :=
  Obj [("exchange", Str exchange); ("instrumentId", Str "BTCUSDT");
       ("side", Str side_); ("estPx", Num estPx); ("size", Num size_)].

Definition legBuy : value := leg "binance" "BUY" 100 1.
Definition legSell : value := leg "bybit" "SELL" 101 1.

(** [{id:"opp-1", approved:true, payload:{paper:true, edgeBps:250, legs}}]. *)
Definition opportunity (legs : list value) : value :=
  Obj [("id", Str "opp-1"); ("ts", Num 1710000000000); ("approved", Bool true);
       ("payload", Obj [("paper", Bool true); ("edgeBps", Num 250);
                        ("legs", Arr legs)])].

Definition opp1 : value := opportunity [legBuy; legSell].

(** A fill [{id, ts, type:"order.fill", payload:{corrId, legIndex, ...}}]. *)
Definition fill (corrId : string) (legIndex : float) (exchange side_ : string)
  (px filledSize : float) : value :=
  Obj [("id", Str "fill-1"); ("ts", Num 1710000000500);
       ("type", Str "order.fill");
       ("payload", Obj [("corrId", Str corrId); ("legIndex", Num legIndex);
                        ("exchange", Str exchange);
                        ("instrumentId", Str "BTCUSDT"); ("side", Str side_);
                        ("px", Num px); ("requestedSize", Num 1);
                        ("filledSize", Num filledSize)])].

(** Redis holding one stream. *)
Definition redis_with (stream : string) (entries : list (option value))
  : Redis.t :=
  {| Redis.streams := Redis.upd (fun _ => []) stream entries;
     Redis.delivered := fun _ _ => 0;
     Redis.pending := fun _ _ => [];
     Redis.text := fun _ => None;
     Redis.docs := fun _ => None |}.

(** The executor just started, with the given toggle, table and Redis. *)
Definition executor (autoTrade : bool)
  (table : list (value * Executor.entry)) (r : Redis.t) : Executor.state :=
  {| Executor.AUTO_TRADE := autoTrade; Executor.MODE := "paper";
     Executor.inflight := table; Executor.Trade := true;
     Executor.oppReady := true; Executor.fillsReady := true;
     Executor.execCounter := 0; Executor.legCounter := 0;
     Executor.tradeCounter := 0; Executor.redis := r;
     Executor.trades_collection := []; Executor.clock := 0;
     Executor.uuids := 0 |}.

(** The inflight entry of [opp1] after its protective (SELL) leg was sent. *)
Definition entry1 : Executor.entry :=
  {| Executor.opp := opp1; Executor.legs := [legSell; legBuy];
     Executor.fills := []; Executor.startedTs := 1710000000000 |}.

Definition assembler (r : Redis.t) : Assembler.state :=
  {| Assembler.pending := []; Assembler.tradesBuilt := 0;
     Assembler.redis := r; Assembler.trades_collection := [];
     Assembler.clock := 0 |}.

End Examples.

(** * Properties *)

Import JS.

(** ** Frames of monadic code *)

(** [preserves R m]: running [m] relates every state to the state it
    reaches, whether [m] returns or throws. *)
Definition preserves {S A} (R : S -> S -> Prop) (m : M S A) : Prop :=
  forall s, R s (snd (m s)).

Section Frames.
Variables (S : Type) (R : S -> S -> Prop).
Hypothesis R_refl : forall s, R s s.
Hypothesis R_trans : forall a b c, R a b -> R b c -> R a c.

Lemma preserves_ret A (a : A) : preserves R (ret a).
Proof. intro s; apply R_refl. Qed.

Lemma preserves_throw A (e : error) : preserves R (@throw S A e).
Proof. intro s; apply R_refl. Qed.

Lemma preserves_gets A (f : S -> A) : preserves R (gets f).
Proof. intro s; apply R_refl. Qed.

Lemma preserves_lift A (c : completion A) : preserves R (@lift S A c).
Proof. intro s; apply R_refl. Qed.

Lemma preserves_modify (f : S -> S) :
  (forall s, R s (f s)) -> preserves R (modify f).
Proof. intros H s; apply H. Qed.

Lemma preserves_bind A B (m : M S A) (k : A -> M S B) :
  preserves R m -> (forall a, preserves R (k a)) -> preserves R (bind m k).
Proof.
  intros Hm Hk s. unfold bind. specialize (Hm s).
  destruct (m s) as [[a|e] s']; simpl in *; [|assumption].
  eapply R_trans; [eassumption|apply Hk].
Qed.

Lemma preserves_try_catch A (m : M S A) (h : error -> M S A) :
  preserves R m -> (forall e, preserves R (h e)) ->
  preserves R (try_catch m h).
Proof.
  intros Hm Hh s. unfold try_catch. specialize (Hm s).
  destruct (m s) as [[a|e] s']; simpl in *; [assumption|].
  eapply R_trans; [eassumption|apply Hh].
Qed.

Lemma preserves_try_finally A (m : M S A) (f : M S unit) :
  preserves R m -> preserves R f -> preserves R (try_finally m f).
Proof.
  intros Hm Hf s. unfold try_finally. specialize (Hm s).
  destruct (m s) as [r s']. specialize (Hf s').
  destruct (f s') as [[u|e] s'']; simpl in *; eapply R_trans; eassumption.
Qed.

Lemma preserves_for_of A (xs : list A) (body : A -> M S unit) :
  (forall x, preserves R (body x)) -> preserves R (for_of xs body).
Proof.
  intros Hb. induction xs as [|x r IH]; simpl.
  - apply preserves_ret.
  - apply preserves_bind; auto.
Qed.

Lemma preserves_when (b : bool) (m : M S unit) :
  preserves R m -> preserves R (when b m).
Proof. destruct b; simpl; auto using preserves_ret. Qed.

End Frames.

(** [same_on f]: the two states agree on the observation [f]. *)
Definition same_on {S X} (f : S -> X) : S -> S -> Prop :=
  fun s s' => f s' = f s.

Create HintDb frame.

Ltac frame_side := solve [unfold same_on; intros; simpl in *; congruence].

(** Decomposes a goal [preserves R m] along the structure of [m]; the steps
    that write the state are closed by computation or by the hints of
    [frame]. *)
Ltac frame_step :=
  first
    [ solve [auto with frame]
    | apply preserves_ret; frame_side
    | apply preserves_throw; frame_side
    | apply preserves_gets; frame_side
    | apply preserves_lift; frame_side
    | apply preserves_modify; solve [intro; reflexivity]
    | apply preserves_bind; [frame_side | | intro]
    | apply preserves_try_catch; [frame_side | | intro]
    | apply preserves_try_finally; [frame_side | | ]
    | apply preserves_for_of; [frame_side | frame_side | intro]
    | apply preserves_when; [frame_side | ]
    | match goal with
      | |- preserves _ (if ?b then _ else _) => destruct b
      | |- preserves _ (match ?x with _ => _ end) => destruct x
      | |- preserves _ (let (_, _) := ?x in _) => destruct x
      end
    | solve [intro; reflexivity] ].

Ltac frame := repeat frame_step.

(** ** Maps and objects *)

Lemma Map_get_delete A (k : value) (m : list (value * A)) :
  Map_get k (Map_delete k m) = None.
Proof.
  induction m as [|[k' a] r IH]; simpl; [reflexivity|].
  destruct (sameValueZero k' k) eqn:E; simpl; [assumption|].
  now rewrite E.
Qed.

Lemma Map_get_set A (k : value) (a : A) (m : list (value * A)) :
  sameValueZero k k = true -> Map_get k (Map_set k a m) = Some a.
Proof.
  intros Hk. induction m as [|[k' a'] r IH]; simpl.
  - now rewrite Hk.
  - destruct (sameValueZero k' k) eqn:E; simpl; now rewrite E.
Qed.

Lemma filter_not_In (id : nat) (l : list nat) :
  ~ In id (filter (fun i => negb (Nat.eqb i id)) l).
Proof.
  intros H. apply filter_In in H as [_ H].
  now rewrite Nat.eqb_refl in H.
Qed.

Lemma lookup_absent (k : string) (ps : list (string * value)) :
  ~ In k (map fst ps) -> lookup k ps = Undefined.
Proof.
  induction ps as [|[k' v] r IH]; simpl; intros H; [reflexivity|].
  destruct (String.eqb_spec k' k); [tauto|]. apply IH. tauto.
Qed.

(** Reading a property of a document after it went through JSON. *)
Lemma get_wire (k : string) (ps : list (string * value)) :
  NoDup (map fst ps) -> get k (wire (Obj ps)) = wire (lookup k ps).
Proof.
  cbn [wire get]. induction ps as [|[k' v] r IH]; intros Hd; [reflexivity|].
  inversion Hd as [|? ? Hk Hr]; subst. cbn [flat_map lookup].
  destruct (String.eqb_spec k' k) as [->|Hne].
  - destruct v; cbn [app lookup]; rewrite ?String.eqb_refl; try reflexivity.
    rewrite IH by assumption. now rewrite lookup_absent.
  - destruct v; cbn [app lookup];
      try (destruct (String.eqb_spec k' k); [contradiction|]); auto.
Qed.

(** The properties of a parsed object after it went through JSON. *)
Definition wire_props (ps : list (string * value)) : list (string * value) :=
  match wire (Obj ps) with
  | Obj qs => qs
  | _ => []
  end.

Lemma wire_Obj (ps : list (string * value)) :
  wire (Obj ps) = Obj (wire_props ps).
Proof. reflexivity. Qed.

Lemma lookup_setProp_same (k : string) (v : value) (ps : list (string * value)) :
  lookup k (setProp k v ps) = v.
Proof.
  induction ps as [|[k' v'] r IH]; cbn [setProp lookup].
  - now rewrite String.eqb_refl.
  - destruct (String.eqb k' k) eqn:E; cbn [lookup]; rewrite ?E; auto.
    now rewrite String.eqb_refl.
Qed.

Lemma lookup_setProp_other (k k' : string) (v : value)
  (ps : list (string * value)) :
  k <> k' -> lookup k (setProp k' v ps) = lookup k ps.
Proof.
  intros Hne. induction ps as [|[k0 v0] r IH]; cbn [setProp lookup].
  - destruct (String.eqb_spec k' k); [congruence|reflexivity].
  - destruct (String.eqb_spec k0 k') as [->|H0]; cbn [lookup].
    + destruct (String.eqb_spec k' k); [congruence|reflexivity].
    + destruct (String.eqb k0 k); auto.
Qed.

Lemma setProp_fresh (k : string) (v : value) (ps : list (string * value)) :
  ~ In k (map fst ps) -> setProp k v ps = ps ++ [(k, v)].
Proof.
  induction ps as [|[k' v'] r IH]; cbn [setProp map fst In app]; intros H.
  - reflexivity.
  - destruct (String.eqb_spec k' k); [tauto|]. f_equal. apply IH. tauto.
Qed.

Lemma object_from (ps acc : list (string * value)) :
  NoDup (map fst (acc ++ ps)) ->
  fold_left (fun a kv => setProp (fst kv) (snd kv) a) ps acc = acc ++ ps.
Proof.
  revert acc. induction ps as [|[k v] r IH]; intros acc Hd; cbn [fold_left fst snd].
  - now rewrite app_nil_r.
  - rewrite setProp_fresh.
    + rewrite IH; rewrite <- app_assoc; [reflexivity|exact Hd].
    + rewrite map_app in Hd. apply NoDup_remove_2 in Hd.
      intros Hin. apply Hd. apply in_or_app. now left.
Qed.

(** The spread of a parsed object copies its properties as they are. *)
Lemma spread_parsed (ps : list (string * value)) :
  NoDup (map fst ps) -> spread (Obj ps) [] = ps.
Proof. intros Hd. unfold spread. cbn [ownProps]. now rewrite object_from. Qed.

Lemma setProp_keys (k : string) (v : value) (ps : list (string * value)) :
  map fst (setProp k v ps)
  = if existsb (String.eqb k) (map fst ps) then map fst ps
    else map fst ps ++ [k].
Proof.
  induction ps as [|[k' v'] r IH]; cbn [setProp map fst existsb app].
  - reflexivity.
  - rewrite (String.eqb_sym k k').
    destruct (String.eqb_spec k' k) as [->|Hne]; cbn [map fst orb].
    + reflexivity.
    + rewrite IH. now destruct (existsb (String.eqb k) (map fst r)).
Qed.

Lemma setProp_NoDup (k : string) (v : value) (ps : list (string * value)) :
  NoDup (map fst ps) -> NoDup (map fst (setProp k v ps)).
Proof.
  intros Hd. rewrite setProp_keys.
  destruct (existsb (String.eqb k) (map fst ps)) eqn:E; [assumption|].
  apply NoDup_app; [assumption|repeat constructor; cbn; tauto|].
  intros x Hx [Hk|[]]. subst x.
  assert (existsb (String.eqb k) (map fst ps) = true); [|congruence].
  apply existsb_exists. exists k. split; [assumption|apply String.eqb_refl].
Qed.

(** ** Redis *)

Lemma number_from_length A (l : list A) (i : nat) :
  List.length (Redis.number_from i l) = List.length l.
Proof. revert i; induction l; simpl; auto. Qed.

Lemma xreadgroup_delivered (g : string) (n : nat) (st : string) (r : Redis.t) :
  Redis.delivered (snd (Redis.xreadgroup g n st r)) st g
  = Redis.delivered r st g
    + List.length (firstn n (skipn (Redis.delivered r st g) (Redis.streams r st))).
Proof.
  unfold Redis.xreadgroup. cbn [snd Redis.delivered]. unfold Redis.upd.
  now rewrite !String.eqb_refl, number_from_length.
Qed.

Lemma xreadgroup_other (g : string) (n : nat) (st st' : string) (r : Redis.t) :
  String.eqb st' st = false ->
  Redis.delivered (snd (Redis.xreadgroup g n st r)) st'
  = Redis.delivered r st'.
Proof.
  intros H. unfold Redis.xreadgroup. cbn [snd Redis.delivered].
  unfold Redis.upd. now rewrite H.
Qed.

(** ** Router-executor *)

Section ExecutorFacts.
Context {rt : Runtime}.
Variable MIN_REALIZED_PNL : float.
Import Executor.

(** No binding of [approved] is in scope in [emitTrade]. *)
Lemma identifier_approved (env : list (string * value)) :
  identifier env "approved" = throw (ReferenceError "approved").
Proof. reflexivity. Qed.

(** [emitTrade] returns without effect when trading is off or the PnL does
    not exceed the floor, and otherwise throws while it builds the trade,
    after the clock was read for [ts]. *)
Lemma emitTrade_outcome (o : value) (fs : list value) (s : state) :
  emitTrade MIN_REALIZED_PNL o fs s =
  if AUTO_TRADE s
     && (PrimFloat.is_finite (computePnlFromFills o fs)
         && PrimFloat.ltb MIN_REALIZED_PNL (computePnlFromFills o fs))
  then (Throw (ReferenceError "approved"),
        set_clock (S (clock s)) (uuids s) s)
  else (Normal tt, s).
Proof.
  unfold emitTrade, bind, gets, tradingEnabled.
  destruct (AUTO_TRADE s); simpl; [|reflexivity].
  destruct (PrimFloat.is_finite (computePnlFromFills o fs)
            && PrimFloat.ltb MIN_REALIZED_PNL (computePnlFromFills o fs));
    reflexivity.
Qed.

Lemma emitTrade_frame X (f : state -> X) (o : value) (fs : list value) :
  (forall s c u, f (set_clock c u s) = f s) ->
  preserves (same_on f) (emitTrade MIN_REALIZED_PNL o fs).
Proof.
  intros Hf s. rewrite emitTrade_outcome. unfold same_on.
  destruct (AUTO_TRADE s && _); simpl; auto.
Qed.

Definition trades_stream (s : state) : list (option value) :=
  Redis.streams (redis s) "arb.trades".

Definition deliveries (s : state) : string -> string -> nat :=
  Redis.delivered (redis s).

Lemma emitTrade_trades (o : value) (fs : list value) :
  preserves (same_on trades_stream) (emitTrade MIN_REALIZED_PNL o fs).
Proof. apply emitTrade_frame; reflexivity. Qed.

Lemma emitTrade_deliveries (o : value) (fs : list value) :
  preserves (same_on deliveries) (emitTrade MIN_REALIZED_PNL o fs).
Proof. apply emitTrade_frame; reflexivity. Qed.

Lemma sendOrder_trades (c i l : value) (tif : string) :
  preserves (same_on trades_stream) (sendOrder c i l tif).
Proof. unfold sendOrder. frame. Qed.

Lemma sendOrder_deliveries (c i l : value) (tif : string) :
  preserves (same_on deliveries) (sendOrder c i l tif).
Proof. unfold sendOrder. frame. Qed.

Hint Resolve emitTrade_trades emitTrade_deliveries sendOrder_trades
  sendOrder_deliveries : frame.

Lemma onFill_trades (msg : Redis.message) :
  preserves (same_on trades_stream) (onFill MIN_REALIZED_PNL msg).
Proof. unfold onFill, JSON_parse, xack. frame. Qed.

Lemma onFill_deliveries (msg : Redis.message) :
  preserves (same_on deliveries) (onFill MIN_REALIZED_PNL msg).
Proof. unfold onFill, JSON_parse, xack. frame. Qed.

Lemma onOpportunity_trades (source : string) (msg : Redis.message) :
  preserves (same_on trades_stream) (onOpportunity source msg).
Proof. unfold onOpportunity, JSON_parse, member, xack. frame. Qed.

Lemma onOpportunity_deliveries (source : string) (msg : Redis.message) :
  preserves (same_on deliveries) (onOpportunity source msg).
Proof. unfold onOpportunity, JSON_parse, member, xack. frame. Qed.

End ExecutorFacts.

Section ExecutorClaims.
Context {rt : Runtime}.
Variable MIN_REALIZED_PNL : float.
Import Executor.

Lemma for_of_frame S A (R : S -> S -> Prop) (xs : list A)
  (body : A -> M S unit) :
  (forall s, R s s) -> (forall a b c, R a b -> R b c -> R a c) ->
  (forall x, preserves R (body x)) -> preserves R (for_of xs body).
Proof. intros; apply preserves_for_of; assumption. Qed.

(** C1 (code defect): the executor never reads arb.approved, although it
    creates its group on that stream and the repository's end-to-end script
    for the approved path expects orders from it with autoTrade off. With
    autoTrade off, a consume cycle reads nothing: both consumers return at
    once and leave the state as it was, whatever waits on arb.approved.
    With autoTrade on (and the reader connection ready),
    [consumeOpportunities] takes the next entries, at most 20, of the
    pre-risk stream arb.opportunities, as the claim says. In neither mode
    does a consumer move the group's position in arb.approved: the source
    of [consumeOpportunities] is the constant arb.opportunities. *)
Theorem C1_stream_selection (s : state) :
  (AUTO_TRADE s = false ->
     consumeOpportunities s = (Normal tt, s) /\
     consumeFills MIN_REALIZED_PNL s = (Normal tt, s)) /\
  (AUTO_TRADE s = true -> oppReady s = true ->
     let d := Redis.delivered (redis s) "arb.opportunities" "executor" in
     Redis.delivered (redis (exec consumeOpportunities s))
       "arb.opportunities" "executor"
     = d + List.length
             (firstn 20 (skipn d (Redis.streams (redis s) "arb.opportunities")))) /\
  (forall g,
     Redis.delivered (redis (exec consumeOpportunities s)) "arb.approved" g
     = Redis.delivered (redis s) "arb.approved" g) /\
  (forall g,
     Redis.delivered (redis (exec (consumeFills MIN_REALIZED_PNL) s))
       "arb.approved" g
     = Redis.delivered (redis s) "arb.approved" g).
Proof.
  assert (Hloop : forall src msgs s0,
            deliveries (snd (for_of msgs (onOpportunity src) s0))
            = deliveries s0).
  { intros src msgs s0.
    apply (for_of_frame (R := same_on deliveries)); try frame_side.
    intro x; apply onOpportunity_deliveries. }
  assert (Hfills : forall msgs s0,
            deliveries (snd (for_of msgs (onFill MIN_REALIZED_PNL) s0))
            = deliveries s0).
  { intros msgs s0.
    apply (for_of_frame (R := same_on deliveries)); try frame_side.
    intro x; apply onFill_deliveries. }
  unfold deliveries in Hloop, Hfills.
  split; [|split; [|split]].
  - intros H; split.
    + unfold consumeOpportunities, bind, gets, tradingEnabled. now rewrite H.
    + unfold consumeFills, bind, gets, tradingEnabled. now rewrite H.
  - intros Ha Hr d. unfold exec, consumeOpportunities, bind, gets,
      tradingEnabled, xreadgroup. rewrite Ha. cbn [negb]. rewrite Hr.
    cbn [negb fst snd].
    destruct (Redis.xreadgroup GROUP 20 "arb.opportunities" (redis s))
      as [msgs r] eqn:E.
    rewrite Hloop. cbn [redis set_redis].
    change r with (snd (msgs, r)). rewrite <- E.
    apply xreadgroup_delivered.
  - intro g. unfold exec, consumeOpportunities, bind, gets, tradingEnabled,
      xreadgroup.
    destruct (AUTO_TRADE s); cbn [negb]; [|reflexivity].
    destruct (oppReady s); cbn [negb fst snd]; [|reflexivity].
    destruct (Redis.xreadgroup GROUP 20 "arb.opportunities" (redis s))
      as [msgs r] eqn:E.
    rewrite Hloop. cbn [redis set_redis].
    change r with (snd (msgs, r)). rewrite <- E.
    now rewrite xreadgroup_other.
  - intro g. unfold exec, consumeFills, bind, gets, tradingEnabled,
      xreadgroup.
    destruct (AUTO_TRADE s); cbn [negb]; [|reflexivity].
    destruct (fillsReady s); cbn [negb fst snd]; [|reflexivity].
    destruct (Redis.xreadgroup GROUP 50 "orders.fills" (redis s))
      as [msgs r] eqn:E.
    rewrite Hfills. cbn [redis set_redis].
    change r with (snd (msgs, r)). rewrite <- E.
    now rewrite xreadgroup_other.
Qed.

(** No consumer of the executor ever appends to arb.trades. *)
Lemma executor_emits_no_trade (s : state) :
  trades_stream (exec (consumeFills MIN_REALIZED_PNL) s) = trades_stream s /\
  trades_stream (exec consumeOpportunities s) = trades_stream s.
Proof.
  split.
  - unfold exec, consumeFills, bind, gets, tradingEnabled, xreadgroup.
    destruct (AUTO_TRADE s); cbn [negb]; [|reflexivity].
    destruct (fillsReady s); cbn [negb fst snd]; [|reflexivity].
    destruct (Redis.xreadgroup GROUP 50 "orders.fills" (redis s))
      as [msgs r] eqn:E.
    transitivity (trades_stream (set_redis r s)).
    + apply (for_of_frame (R := same_on trades_stream)); try frame_side.
      intro x; apply onFill_trades.
    + unfold trades_stream. cbn [redis set_redis].
      change r with (snd (msgs, r)). now rewrite <- E.
  - unfold exec, consumeOpportunities, bind, gets, tradingEnabled, xreadgroup.
    destruct (AUTO_TRADE s); cbn [negb]; [|reflexivity].
    destruct (oppReady s); cbn [negb fst snd]; [|reflexivity].
    destruct (Redis.xreadgroup GROUP 20 "arb.opportunities" (redis s))
      as [msgs r] eqn:E.
    transitivity (trades_stream (set_redis r s)).
    + apply (for_of_frame (R := same_on trades_stream)); try frame_side.
      intro x; apply onOpportunity_trades.
    + unfold trades_stream. cbn [redis set_redis].
      change r with (snd (msgs, r)). now rewrite <- E.
Qed.

(** C2 (code defect): [emitTrade] never appends to arb.trades. Whenever
    trading is on and the realized PnL is finite and strictly above
    MIN_REALIZED_PNL, the evaluation of the object literal of the trade
    throws a ReferenceError at the shorthand property [approved], for which
    no binding exists, before anything is written. *)
Theorem C2_emitTrade_throws_before_emitting (o : value) (fs : list value)
  (s : state) :
  let pnl := computePnlFromFills o fs in
  let r := emitTrade MIN_REALIZED_PNL o fs s in
  Redis.streams (redis (snd r)) = Redis.streams (redis s) /\
  trades_collection (snd r) = trades_collection s /\
  tradeCounter (snd r) = tradeCounter s /\
  fst r = (if AUTO_TRADE s
              && (PrimFloat.is_finite pnl
                  && PrimFloat.ltb MIN_REALIZED_PNL pnl)
           then Throw (ReferenceError "approved")
           else Normal tt).
Proof.
  intros pnl r. subst r pnl. rewrite emitTrade_outcome.
  destruct (AUTO_TRADE s && _); simpl; auto.
Qed.

(** The periodic refresh clears the table on the falling edge. *)
Lemma refreshToggles_falling_edge (s : state) :
  AUTO_TRADE s = true -> AUTO_TRADE (refreshToggles s) = false ->
  inflight (refreshToggles s) = [].
Proof.
  unfold refreshToggles. intros Hon.
  destruct (Redis.text (redis s) "toggles:autoTrade") as [a|].
  - rewrite Hon.
    destruct (parseBool (Str a) true) eqn:Hp; simpl.
    + destruct (Redis.text (redis s) "toggles:mode") as [m|]; simpl.
      * destruct (String.eqb m "live" || String.eqb m "paper");
          [destruct (negb (String.eqb m (MODE s)))|]; simpl; congruence.
      * congruence.
    + destruct (Redis.text (redis s) "toggles:mode") as [m|]; simpl.
      * destruct (String.eqb m "live" || String.eqb m "paper");
          [destruct (negb (String.eqb m (MODE s)))|]; simpl; reflexivity.
      * reflexivity.
  - destruct (Redis.text (redis s) "toggles:mode") as [m|]; simpl.
    + destruct (String.eqb m "live" || String.eqb m "paper");
        [destruct (negb (String.eqb m (MODE s)))|]; simpl; congruence.
    + congruence.
Qed.

(** C3 (code defect): the POST /toggles handler turns autoTrade off without
    clearing the inflight table, and the next periodic refresh, which finds
    the toggle already off, does not clear it either: every entry survives
    the falling edge made through the endpoint. *)
Theorem C3_post_toggles_keeps_inflight (s : state) :
  let s' := postToggles (Obj [("autoTrade", Bool false)]) s in
  AUTO_TRADE s' = false /\
  inflight s' = inflight s /\
  AUTO_TRADE (refreshToggles s') = false /\
  inflight (refreshToggles s') = inflight s.
Proof.
  intros s'. subst s'. unfold postToggles. simpl.
  split; [reflexivity|]. split; [reflexivity|].
  unfold refreshToggles. cbn. unfold Redis.upd. cbn.
  destruct (Redis.text (redis s) "toggles:mode") as [m|]; simpl.
  - destruct (String.eqb m "live" || String.eqb m "paper");
      [destruct (negb (String.eqb m (MODE s)))|]; simpl; auto.
  - auto.
Qed.

(** C7: when [consumeFills] handles a fill for leg 0 with filledSize 0
    whose corrId has an inflight entry, that entry is removed, no stream is
    written (no order for leg 1, no trade), nothing is persisted, and the
    fill is acknowledged. *)
Theorem C7_zero_fill_aborts (s : state) (id : nat) (fill : value)
  (st0 : entry) :
  let p := or_else (get "payload" fill) (Obj []) in
  get "legIndex" p = Num 0 ->
  get "filledSize" p = Num 0 ->
  Map_get (get "corrId" p) (inflight s) = Some st0 ->
  let r := onFill MIN_REALIZED_PNL (id, Some fill) s in
  fst r = Normal tt /\
  Map_get (get "corrId" p) (inflight (snd r)) = None /\
  Redis.streams (redis (snd r)) = Redis.streams (redis s) /\
  legCounter (snd r) = legCounter s /\
  tradeCounter (snd r) = tradeCounter s /\
  trades_collection (snd r) = trades_collection s /\
  ~ In id (Redis.pending (redis (snd r)) "orders.fills" "executor").
Proof.
  intros p Hl Hf Hg r. subst r.
  unfold onFill, try_catch, bind, JSON_parse, ret, gets. fold p.
  cbn [inflight]. rewrite Hg, Hl, Hf. cbn.
  repeat split.
  - apply Map_get_delete.
  - apply filter_not_In.
Qed.

End ExecutorClaims.

Section ProtectiveFirst.
Import Executor.

Lemma findIndex_split (p : value -> completion bool) (xs : list value) :
  forall i j, findIndex p xs i = Normal (Some j) ->
  exists pre s post,
    xs = pre ++ s :: post /\ j = i + List.length pre /\
    Forall (fun l => p l = Normal false) pre /\ p s = Normal true.
Proof.
  induction xs as [|x r IH]; intros i j H; simpl in H; [discriminate|].
  destruct (p x) as [[|]|e] eqn:Hx; try discriminate.
  - injection H as <-. exists [], x, r. repeat split; auto; simpl; lia.
  - destruct (IH _ _ H) as (pre & s & post & -> & -> & Hpre & Hs).
    exists (x :: pre), s, post. repeat split; auto; simpl; lia.
Qed.

Lemma findIndex_none (p : value -> completion bool) (xs : list value) :
  forall i, findIndex p xs i = Normal None ->
  Forall (fun l => p l = Normal false) xs.
Proof.
  induction xs as [|x r IH]; intros i H; simpl in H; [constructor|].
  destruct (p x) as [[|]|e] eqn:Hx; try discriminate.
  constructor; eauto.
Qed.

Lemma findIndex_first (p : value -> completion bool) pre s post :
  Forall (fun l => p l = Normal false) pre -> p s = Normal true ->
  forall i, findIndex p (pre ++ s :: post) i = Normal (Some (i + List.length pre)).
Proof.
  induction 1 as [|x r Hx _ IH]; intros Hs i; simpl.
  - rewrite Hs. f_equal. f_equal. lia.
  - rewrite Hx, IH by assumption. f_equal. f_equal. lia.
Qed.

Lemma findIndex_all_false (p : value -> completion bool) xs :
  Forall (fun l => p l = Normal false) xs ->
  forall i, findIndex p xs i = Normal None.
Proof.
  induction 1 as [|x r Hx _ IH]; intros i; simpl; [reflexivity|].
  now rewrite Hx.
Qed.

Lemma filteri_keep (xs : list value) : forall i k,
  k < i -> filteri (fun j => negb (Nat.eqb j k)) i xs = xs.
Proof.
  induction xs as [|x r IH]; intros i k Hk; simpl; [reflexivity|].
  destruct (Nat.eqb_spec i k); [lia|]. simpl. f_equal. apply IH. lia.
Qed.

Lemma filteri_drop pre s post : forall i,
  filteri (fun j => negb (Nat.eqb j (i + List.length pre))) i (pre ++ s :: post)
  = pre ++ post.
Proof.
  induction pre as [|x r IH]; intros i; simpl.
  - rewrite Nat.add_0_r, Nat.eqb_refl. simpl. apply filteri_keep. lia.
  - destruct (Nat.eqb_spec i (i + S (List.length r))); [lia|]. simpl.
    f_equal. replace (i + S (List.length r)) with (S i + List.length r) by lia.
    apply IH.
Qed.

Lemma filteri_drop0 pre s post :
  filteri (fun j => negb (Nat.eqb j (List.length pre))) 0 (pre ++ s :: post)
  = pre ++ post.
Proof. exact (filteri_drop pre s post 0). Qed.

Lemma nth_middle' (pre : list value) s post :
  nth (List.length pre) (pre ++ s :: post) Undefined = s.
Proof. induction pre; simpl; auto. Qed.

(** C8: [protectiveFirst] only reorders. When no leg is a SELL leg the
    list is returned as it is; otherwise the first SELL leg is put at index
    0 and the other legs follow in their original order. Every list it
    returns is a permutation of its argument, of one of these two shapes.
    ([isSell l = Normal b] says that the side of [l] can be read, and
    whether it is SELL, letter case apart.) *)
Theorem C8_protectiveFirst_reorders (L : list value) :
  (Forall (fun l => isSell l = Normal false) L ->
   protectiveFirst (Arr L) = Normal L) /\
  (forall pre s post,
     L = pre ++ s :: post ->
     Forall (fun l => isSell l = Normal false) pre ->
     isSell s = Normal true ->
     protectiveFirst (Arr L) = Normal (s :: pre ++ post)) /\
  (forall L',
     protectiveFirst (Arr L) = Normal L' ->
     Permutation L L' /\
     ((Forall (fun l => isSell l = Normal false) L /\ L' = L) \/
      (exists pre s post,
         L = pre ++ s :: post /\
         Forall (fun l => isSell l = Normal false) pre /\
         isSell s = Normal true /\ L' = s :: pre ++ post))).
Proof.
  unfold protectiveFirst; simpl. repeat split.
  - intros H. now rewrite findIndex_all_false.
  - intros pre s post -> Hpre Hs.
    rewrite findIndex_first by assumption. simpl.
    now rewrite nth_middle', filteri_drop0.
  - destruct (findIndex isSell L 0) as [[idx|]|e] eqn:Hf; try discriminate.
    + apply findIndex_split in Hf as (pre & s & post & -> & -> & _ & _).
      simpl in H. injection H as <-.
      rewrite nth_middle', filteri_drop0.
      apply Permutation_sym, Permutation_middle.
    + injection H as <-. apply Permutation_refl.
  - destruct (findIndex isSell L 0) as [[idx|]|e] eqn:Hf; try discriminate.
    + right. apply findIndex_split in Hf as (pre & s & post & -> & -> & Hp & Hs).
      simpl in H. injection H as <-.
      rewrite nth_middle', filteri_drop0.
      exists pre, s, post. auto.
    + left. injection H as <-. split; auto. eapply findIndex_none; eauto.
Qed.
End ProtectiveFirst.

(** The leg list of scenario S1, BUY then SELL, is reordered SELL first. *)
Lemma C8_protectiveFirst_reorders_witness :
  Executor.isSell Examples.legBuy = Normal false /\
  Executor.isSell Examples.legSell = Normal true /\
  Executor.protectiveFirst (Arr [Examples.legBuy; Examples.legSell])
  = Normal [Examples.legSell; Examples.legBuy].
Proof.
  split; [reflexivity|]. split; [reflexivity|].
  apply (proj1 (proj2 (C8_protectiveFirst_reorders
                         [Examples.legBuy; Examples.legSell]))
           [Examples.legBuy] Examples.legSell []).
  - reflexivity.
  - repeat constructor.
  - reflexivity.
Defined.

(** ** The executor on concrete inputs *)

Module ExecutorRuns.
Import Examples.
#[local] Existing Instance Host.runtime.

(** autoTrade off, one approved opportunity waiting on arb.approved. *)
Definition manual : Executor.state :=
  executor false [] (redis_with "arb.approved" [Some opp1]).

(** autoTrade on, one candidate waiting on arb.opportunities. *)
Definition auto : Executor.state :=
  executor true [] (redis_with "arb.opportunities" [Some opp1]).

(** A consume cycle: both consumers, as the two timers run them. *)
Definition cycle (s : Executor.state) : Executor.state :=
  exec (Executor.consumeFills 0) (exec Executor.consumeOpportunities s).

(** autoTrade on, [opp1] inflight after its SELL leg was sent. *)
Definition flying : Executor.state :=
  executor true [(Str "opp-1", entry1)] (redis_with "orders.fills" []).

Definition zeroFill : value := fill "opp-1" 0 "bybit" "SELL" 101 0.
Definition sellFill : value := fill "opp-1" 0 "bybit" "SELL" 101 1.
Definition buyFill : value := fill "opp-1" 1 "binance" "BUY" 100 1.

End ExecutorRuns.

Section ExecutorOnHost.
#[local] Existing Instance Host.runtime.

(** The approved path end to end: autoTrade off and one approved
    opportunity added to arb.approved. After a consume cycle the
    opportunity is still undelivered, nothing is inflight and no order was
    sent. *)
Lemma C1_approved_stream_not_read :
  Redis.streams (Executor.redis (ExecutorRuns.cycle ExecutorRuns.manual))
    "arb.approved" = [Some Examples.opp1] /\
  Redis.delivered (Executor.redis (ExecutorRuns.cycle ExecutorRuns.manual))
    "arb.approved" "executor" = 0 /\
  Executor.inflight (ExecutorRuns.cycle ExecutorRuns.manual) = [] /\
  Redis.streams (Executor.redis (ExecutorRuns.cycle ExecutorRuns.manual))
    "orders.new" = [].
Proof. repeat split; reflexivity. Qed.

Lemma C1_stream_selection_witness :
  Executor.consumeOpportunities ExecutorRuns.manual
  = (Normal tt, ExecutorRuns.manual) /\
  Redis.delivered
    (Executor.redis (exec Executor.consumeOpportunities ExecutorRuns.auto))
    "arb.opportunities" "executor" = 1.
Proof.
  split.
  - exact (proj1 (proj1 (C1_stream_selection 0 ExecutorRuns.manual) eq_refl)).
  - exact (proj1 (proj2 (C1_stream_selection 0 ExecutorRuns.auto))
             eq_refl eq_refl).
Defined.

(** Scenario S1 at the last step: both legs filled at 101 and 100, PnL 1
    above the floor 0, and [emitTrade] throws; the fill is acknowledged, no
    trade is on arb.trades, and the entry stays in the table. *)
Lemma C2_scenario_S1_emits_no_trade :
  Executor.computePnlFromFills Examples.opp1
    [ExecutorRuns.sellFill; ExecutorRuns.buyFill] = 1%float /\
  fst (Executor.emitTrade 0 Examples.opp1
         [ExecutorRuns.sellFill; ExecutorRuns.buyFill] ExecutorRuns.flying)
  = Throw (ReferenceError "approved") /\
  (let s1 := exec (Executor.onFill 0 (0, Some ExecutorRuns.sellFill))
               ExecutorRuns.flying in
   let s2 := exec (Executor.onFill 0 (1, Some ExecutorRuns.buyFill)) s1 in
   List.length (Redis.streams (Executor.redis s1) "orders.new") = 1 /\
   Redis.streams (Executor.redis s2) "arb.trades" = [] /\
   Executor.trades_collection s2 = [] /\
   List.length (Executor.inflight s2) = 1).
Proof. repeat split; vm_compute; reflexivity. Qed.

(** autoTrade is turned off through the endpoint while [opp1] is inflight,
    a refresh runs, and autoTrade is turned on again: the entry made before
    the falling edge is still there, and the late fill of leg 0 sends the
    order for leg 1. *)
Lemma C3_entry_survives_falling_edge :
  let off := Executor.refreshToggles
               (Executor.postToggles (Obj [("autoTrade", Bool false)])
                  ExecutorRuns.flying) in
  let on := Executor.postToggles (Obj [("autoTrade", Bool true)]) off in
  let late := exec (Executor.onFill 0 (0, Some ExecutorRuns.sellFill)) on in
  Executor.AUTO_TRADE ExecutorRuns.flying = true /\
  Executor.AUTO_TRADE off = false /\
  Executor.inflight off = [(Str "opp-1", Examples.entry1)] /\
  List.length (Redis.streams (Executor.redis late) "orders.new") = 1.
Proof. repeat split; vm_compute; reflexivity. Qed.

Lemma C7_zero_fill_aborts_witness :
  Map_get (Str "opp-1") (Executor.inflight ExecutorRuns.flying)
  = Some Examples.entry1 /\
  Map_get (Str "opp-1")
    (Executor.inflight
       (snd (Executor.onFill 0 (0, Some ExecutorRuns.zeroFill)
               ExecutorRuns.flying))) = None.
Proof.
  split; [reflexivity|].
  exact (proj1 (proj2 (C7_zero_fill_aborts 0 ExecutorRuns.flying 0
                         ExecutorRuns.zeroFill (st0 := Examples.entry1)
                         eq_refl eq_refl eq_refl))).
Defined.

End ExecutorOnHost.

(** ** Trade assembler *)

Section AssemblerFacts.
Context {rt : Runtime}.
Import Assembler.

Definition corrOf (f : value) : value := get "corrId" (get "payload" f).

(** The record [upsertFill] makes of a fill [f] added to the record [r]. *)
Definition joined (r : rec) (f : value) : rec :=
  {| legs := legs r ++ [f];
     ts := or_else (get "ts" f) (ts r);
     mode := if truthy (get "mode" (get "payload" f))
             then get "mode" (get "payload" f) else mode r |}.

(** The record a first fill starts from, at clock reading [t]. *)
Definition blank (t : float) : rec :=
  {| legs := []; ts := Num t; mode := Str "paper" |}.

Lemma upsertFill_first (f c : value) (s : state) :
  corrOf f = c -> truthy c = true -> Map_get c (pending s) = None ->
  upsertFill f s =
  (Normal None,
   {| pending := Map_set c (joined (blank (Date_now (clock s))) f) (pending s);
      tradesBuilt := tradesBuilt s; redis := redis s;
      trades_collection := trades_collection s; clock := S (clock s) |}).
Proof.
  unfold corrOf. intros Hc Ht Hn.
  unfold upsertFill, bind, gets, now, ret, modify. rewrite Hc, Ht.
  cbn [negb]. rewrite Hn. reflexivity.
Qed.

Lemma upsertFill_second (f c : value) (r : rec) (s : state) :
  corrOf f = c -> truthy c = true -> Map_get c (pending s) = Some r ->
  1 <= List.length (legs r) ->
  upsertFill f s =
  (Normal (Some (joined r f)),
   set_pending (Map_delete c (Map_set c (joined r f) (pending s))) s).
Proof.
  unfold corrOf. intros Hc Ht Hn Hl.
  unfold upsertFill, bind, gets, now, ret, modify. rewrite Hc, Ht.
  cbn [negb]. rewrite Hn. cbn [legs joined].
  rewrite length_app. cbn [List.length].
  destruct (Nat.leb_spec 2 (List.length (legs r) + 1)); [reflexivity|lia].
Qed.

Lemma computeTrade_same_side (r : rec) (f1 f2 : value) (w : string) :
  legs r = [f1; f2] ->
  side (leg_of_fill f1) = w -> side (leg_of_fill f2) = w ->
  computeTradeFromFills r = None.
Proof.
  intros Hl H1 H2. unfold computeTradeFromFills. rewrite Hl.
  cbn [map List.length Nat.ltb Nat.leb find]. rewrite H1, H2.
  destruct (String.eqb w "BUY") eqn:Hb; destruct (String.eqb w "SELL") eqn:Hs;
    try reflexivity.
  apply String.eqb_eq in Hb, Hs. congruence.
Qed.

Definition acked (id : nat) (s : state) : state :=
  set_redis (Redis.xack "orders.fills" GROUP id (redis s)) s.

Lemma onFill_outcome (id : nat) (f : value) (s : state) :
  onFill (id, Some f) s =
  match upsertFill f s with
  | (Normal (Some r), s1) =>
      match computeTradeFromFills r with
      | Some trade =>
          (Normal tt,
           acked id
             {| pending := pending s1; tradesBuilt := S (tradesBuilt s1);
                redis := Redis.xadd "arb.trades"
                           (Obj (object [("id", Str (id_text id));
                                         ("ts", get "ts" trade);
                                         ("type", Str "trade");
                                         ("payload", trade)])) (redis s1);
                trades_collection := trades_collection s1 ++ [trade];
                clock := clock s1 |})
      | None => (Normal tt, acked id s1)
      end
  | (_, s1) => (Normal tt, acked id s1)
  end.
Proof.
  unfold onFill, try_catch, bind, ret, modify.
  destruct (upsertFill f s) as [[[r|]|e] s1]; try reflexivity.
  destruct (computeTradeFromFills r); reflexivity.
Qed.

(** C10: the assembler drops the pending entry of a corrId when its second
    fill arrives, whatever the sides. If both fills are BUY, or both SELL,
    nothing is published or persisted, both messages are acknowledged, and
    a third fill for that corrId starts a new record that holds it alone.
    (The corrId [c] is truthy and a primitive value, as a key that [upsertFill]
    accepts and the [Map] finds again is; nothing is pending for it at the
    start.) *)
Theorem C10_same_side_pair_discarded (s : state) (i1 i2 i3 : nat)
  (f1 f2 f3 c : value) :
  corrOf f1 = c -> corrOf f2 = c -> corrOf f3 = c ->
  truthy c = true -> sameValueZero c c = true ->
  Map_get c (pending s) = None ->
  let s2 := exec (onFill (i2, Some f2)) (exec (onFill (i1, Some f1)) s) in
  let s3 := exec (onFill (i3, Some f3)) s2 in
  Map_get c (pending s2) = None /\
  ((side (leg_of_fill f1) = "BUY" /\ side (leg_of_fill f2) = "BUY") \/
   (side (leg_of_fill f1) = "SELL" /\ side (leg_of_fill f2) = "SELL") ->
   Redis.streams (redis s2) = Redis.streams (redis s) /\
   trades_collection s2 = trades_collection s /\
   tradesBuilt s2 = tradesBuilt s /\
   ~ In i1 (Redis.pending (redis s2) "orders.fills" "asm") /\
   ~ In i2 (Redis.pending (redis s2) "orders.fills" "asm") /\
   Map_get c (pending s3)
   = Some (joined (blank (Date_now (clock s2))) f3) /\
   Redis.streams (redis s3) = Redis.streams (redis s)).
Proof.
  intros H1 H2 H3 Ht Hk Hn.
  set (s1 := exec (onFill (i1, Some f1)) s). intros s2 s3.
  assert (E1 : onFill (i1, Some f1) s
               = (Normal tt, acked i1 (snd (upsertFill f1 s)))).
  { rewrite onFill_outcome, (@upsertFill_first f1 c s H1 Ht Hn). reflexivity. }
  pose (r1 := joined (blank (Date_now (clock s))) f1).
  assert (Hp1 : Map_get c (pending s1) = Some r1).
  { unfold s1, exec. rewrite E1, (@upsertFill_first f1 c s H1 Ht Hn).
    cbn. now apply Map_get_set. }
  assert (U2 : upsertFill f2 s1
               = (Normal (Some (joined r1 f2)),
                  set_pending (Map_delete c (Map_set c (joined r1 f2) (pending s1))) s1)).
  { apply upsertFill_second; auto. }
  assert (P2 : Map_get c (pending s2) = None).
  { unfold s2, exec. rewrite onFill_outcome, U2.
    destruct (computeTradeFromFills (joined r1 f2)); cbn; apply Map_get_delete. }
  split; [exact P2|].
  intros Hside.
  assert (Hnone : computeTradeFromFills (joined r1 f2) = None).
  { destruct Hside as [[A B]|[A B]].
    - now apply (@computeTrade_same_side (joined r1 f2) f1 f2 "BUY").
    - now apply (@computeTrade_same_side (joined r1 f2) f1 f2 "SELL"). }
  assert (E2 : s2 = acked i2 (set_pending (Map_delete c (Map_set c (joined r1 f2) (pending s1))) s1)).
  { unfold s2, exec. now rewrite onFill_outcome, U2, Hnone. }
  assert (E3 : s3 = acked i3 (snd (upsertFill f3 s2))).
  { unfold s3, exec. rewrite onFill_outcome, (@upsertFill_first f3 c s2 H3 Ht P2). reflexivity. }
  assert (S1 : s1 = acked i1 (snd (upsertFill f1 s))).
  { unfold s1, exec. now rewrite E1. }
  rewrite (@upsertFill_first f1 c s H1 Ht Hn) in S1. cbn [snd] in S1.
  rewrite (@upsertFill_first f3 c s2 H3 Ht P2) in E3. cbn [snd] in E3.
  repeat split.
  - rewrite E2, S1. reflexivity.
  - rewrite E2, S1. reflexivity.
  - rewrite E2, S1. reflexivity.
  - rewrite E2, S1. cbn. unfold Redis.upd. cbn.
    intros Hin. apply filter_In in Hin as [Hin _].
    now apply filter_not_In in Hin.
  - rewrite E2. cbn. unfold Redis.upd. cbn. apply filter_not_In.
  - rewrite E3. cbn. now apply Map_get_set.
  - rewrite E3. cbn. rewrite E2, S1. reflexivity.
Qed.

(** The trade [computeTradeFromFills] builds from a record, its fills [f1]
    then [f2], with the buy and sell fills [fb] and [fs]. *)
Definition tradeOf (r : rec) (f1 f2 fb fs : value) : value :=
  let realized :=
    ((px (leg_of_fill fs) - px (leg_of_fill fb))
     * Math_min (size (leg_of_fill fb)) (size (leg_of_fill fs)))%float in
  Obj [("ts", ts r); ("mode", or_else (mode r) (Str "paper"));
       ("legs", Arr [leg_value (leg_of_fill f1); leg_value (leg_of_fill f2)]);
       ("realizedPnl",
        Num (if PrimFloat.is_finite realized then realized else 0%float))].

(** The entry of arb.trades for a trade assembled at the message [id]. *)
Definition envelope (id : nat) (trade : value) : value :=
  Obj [("id", Str (id_text id)); ("ts", get "ts" trade); ("type", Str "trade");
       ("payload", trade)].

Lemma computeTrade_pair (r : rec) (f1 f2 fb fs : value) :
  legs r = [f1; f2] ->
  side (leg_of_fill fb) = "BUY" -> side (leg_of_fill fs) = "SELL" ->
  (f1 = fb /\ f2 = fs) \/ (f1 = fs /\ f2 = fb) ->
  computeTradeFromFills r = Some (tradeOf r f1 f2 fb fs).
Proof.
  intros Hl Hb Hs Ho. unfold computeTradeFromFills, tradeOf. rewrite Hl.
  cbn [map List.length Nat.ltb Nat.leb find].
  destruct Ho as [[-> ->]|[-> ->]]; rewrite Hb, Hs; reflexivity.
Qed.

(** C4 (as amended): when exactly two fills of a corrId reach the
    assembler, one BUY and one SELL, in either order, it appends exactly one
    entry to arb.trades, persists the trade and drops the pending entry. The
    trade's realizedPnl is (sell.px - buy.px) * min(buy.size, sell.size) when
    that number is finite and 0 otherwise. The trade has the fields ts,
    mode, legs and realizedPnl, and no source field; the entry wraps it as
    [{id, ts, type: "trade", payload}]. (The corrId [c] is truthy and a
    primitive value; nothing is pending for it at the start; px and size
    are the numbers [computeTradeFromFills] converts the fills' px and
    filledSize to.) *)
Theorem C4_buy_sell_pair_assembled (s : state) (i1 i2 : nat)
  (f1 f2 fb fs c : value) :
  corrOf f1 = c -> corrOf f2 = c ->
  truthy c = true -> sameValueZero c c = true ->
  Map_get c (pending s) = None ->
  side (leg_of_fill fb) = "BUY" -> side (leg_of_fill fs) = "SELL" ->
  (f1 = fb /\ f2 = fs) \/ (f1 = fs /\ f2 = fb) ->
  let s2 := exec (onFill (i2, Some f2)) (exec (onFill (i1, Some f1)) s) in
  let r2 := joined (joined (blank (Date_now (clock s))) f1) f2 in
  let realized :=
    ((px (leg_of_fill fs) - px (leg_of_fill fb))
     * Math_min (size (leg_of_fill fb)) (size (leg_of_fill fs)))%float in
  let trade := tradeOf r2 f1 f2 fb fs in
  Redis.streams (redis s2) "arb.trades"
  = Redis.streams (redis s) "arb.trades" ++ [Some (wire (envelope i2 trade))] /\
  trades_collection s2 = trades_collection s ++ [trade] /\
  tradesBuilt s2 = S (tradesBuilt s) /\
  Map_get c (pending s2) = None /\
  get "realizedPnl" trade
  = Num (if PrimFloat.is_finite realized then realized else 0%float) /\
  get "source" trade = Undefined /\
  get "source" (envelope i2 trade) = Undefined.
Proof.
  intros H1 H2 Ht Hk Hn Hb Hs Ho.
  set (s1 := exec (onFill (i1, Some f1)) s). intros s2 r2 realized trade.
  pose (r1 := joined (blank (Date_now (clock s))) f1).
  assert (S1 : s1 = acked i1 (snd (upsertFill f1 s))).
  { unfold s1, exec.
    now rewrite onFill_outcome, (@upsertFill_first f1 c s H1 Ht Hn). }
  rewrite (@upsertFill_first f1 c s H1 Ht Hn) in S1. cbn [snd] in S1.
  assert (Hp1 : Map_get c (pending s1) = Some r1).
  { rewrite S1. cbn. now apply Map_get_set. }
  assert (U2 : upsertFill f2 s1
               = (Normal (Some r2),
                  set_pending (Map_delete c (Map_set c r2 (pending s1))) s1)).
  { apply upsertFill_second; auto. }
  assert (T : computeTradeFromFills r2 = Some trade).
  { apply computeTrade_pair; auto. }
  assert (E2 : s2 = snd (onFill (i2, Some f2) s1)) by reflexivity.
  rewrite onFill_outcome, U2, T in E2. cbn [snd] in E2.
  repeat split.
  - rewrite E2, S1. reflexivity.
  - rewrite E2, S1. reflexivity.
  - rewrite E2, S1. reflexivity.
  - rewrite E2. cbn. apply Map_get_delete.
Qed.
End AssemblerFacts.

Section AssemblerOnHost.
#[local] Existing Instance Host.runtime.
Import Examples.

Definition asmBuy : value := fill "corr-1" 0 "binance" "BUY" 100 1.
Definition asmSell : value := fill "corr-1" 1 "bybit" "SELL" 101 1.

(** The two fills of the script force-trade-via-fills.sh, BUY at 100 then
    SELL at 101: one trade with realizedPnl 1 is published, and neither the
    trade nor its envelope has a source field. *)
Lemma C4_trade_has_no_source :
  map (fun e => match e with
                | Some d => (get "source" d, get "source" (get "payload" d),
                             get "realizedPnl" (get "payload" d))
                | None => (Null, Null, Null)
                end)
      (Redis.streams
         (Assembler.redis
            (exec (Assembler.onFill (1, Some asmSell))
               (exec (Assembler.onFill (0, Some asmBuy))
                  (assembler Redis.empty)))) "arb.trades")
  = [(Undefined, Undefined, Num 1)].
Proof. vm_compute. reflexivity. Qed.

Lemma C4_buy_sell_pair_assembled_witness :
  Assembler.side (Assembler.leg_of_fill asmBuy) = "BUY" /\
  Assembler.side (Assembler.leg_of_fill asmSell) = "SELL" /\
  Assembler.tradesBuilt
    (exec (Assembler.onFill (1, Some asmSell))
       (exec (Assembler.onFill (0, Some asmBuy)) (assembler Redis.empty)))
  = 1.
Proof.
  split; [reflexivity|]. split; [reflexivity|].
  exact (proj1 (proj2 (proj2
           (@C4_buy_sell_pair_assembled Host.runtime (assembler Redis.empty)
              0 1 asmBuy asmSell asmBuy asmSell (Str "corr-1")
              eq_refl eq_refl eq_refl eq_refl eq_refl eq_refl eq_refl
              (or_introl (conj eq_refl eq_refl)))))).
Defined.

Definition asmBuy2 : value := fill "corr-1" 1 "bybit" "BUY" 101 1.

Lemma C10_same_side_pair_discarded_witness :
  Map_get (Str "corr-1")
    (Assembler.pending
       (exec (Assembler.onFill (1, Some asmBuy2))
          (exec (Assembler.onFill (0, Some asmBuy)) (assembler Redis.empty))))
  = None /\
  Redis.streams
    (Assembler.redis
       (exec (Assembler.onFill (1, Some asmBuy2))
          (exec (Assembler.onFill (0, Some asmBuy)) (assembler Redis.empty))))
  = Redis.streams Redis.empty.
Proof.
  pose proof (@C10_same_side_pair_discarded Host.runtime
                (assembler Redis.empty) 0 1 2 asmBuy asmBuy2 asmSell
                (Str "corr-1") eq_refl eq_refl eq_refl eq_refl eq_refl eq_refl)
    as H.
  split.
  - exact (proj1 H).
  - exact (proj1 (proj2 H (or_introl (conj eq_refl eq_refl)))).
Defined.

End AssemblerOnHost.

(** ** Order simulator *)

Section SimulatorClaims.
Context {rt : Runtime}.
Variable MIN_REALIZED_PNL : float.

(** The test of [onFill] on a parsed fill that selects, for leg 0, between
    going on ([filledSize > 0]) and the abort branch. *)
Definition abortTest (fill : value) : bool :=
  let p := or_else (get "payload" fill) (Obj []) in
  negb (gt_num (match get "filledSize" p with
                | Undefined => Num 0
                | v => v
                end) 0).

Import Executor.

Lemma sendOrder_inflight (c i l : value) (tif : string) :
  preserves (same_on inflight) (sendOrder c i l tif).
Proof. unfold sendOrder. frame. Qed.

Lemma onFill_leg0 (s : state) (id : nat) (fill : value) (st0 : entry) :
  let p := or_else (get "payload" fill) (Obj []) in
  get "legIndex" p = Num 0 ->
  Map_get (get "corrId" p) (inflight s) = Some st0 ->
  truthy (nth 1 (legs st0) Undefined) = true ->
  sameValueZero (get "corrId" p) (get "corrId" p) = true ->
  let s' := exec (onFill MIN_REALIZED_PNL (id, Some fill)) s in
  Map_get (get "corrId" p) (inflight s')
  = if abortTest fill then None
    else Some {| opp := opp st0; legs := legs st0;
                 fills := assign (fills st0) 0 fill;
                 startedTs := startedTs st0 |}.
Proof.
  intros p Hl Hg Hleg Hk s'. subst s'. unfold abortTest. fold p.
  unfold exec, onFill, try_catch, bind, JSON_parse, ret, gets. fold p.
  cbn [inflight]. rewrite Hg, Hl.
  cbn [strict_eq_num legs]. change (PrimFloat.eqb 0 0) with true. cbn iota.
  unfold assign_key. cbn [arrayIndex]. change (float_to_Z 0) with (Some 0%Z).
  cbn [Z.leb Z.ltb Z.compare andb Z.to_nat].
  destruct (gt_num _ 0) eqn:G; cbn [negb].
  - rewrite Hleg. unfold modify, xack. cbn beta iota.
    match goal with
    | |- context [sendOrder ?c ?i ?l ?t ?s0] =>
        pose proof (sendOrder_inflight c i l t s0) as F;
        destruct (sendOrder c i l t s0) as [[a|e] s1]
    end; unfold same_on in F; cbn in F |- *; rewrite F;
      now apply Map_get_set.
  - cbn. apply Map_get_delete.
Qed.

Import Simulator.

Lemma fillOf_filledSize (ord : value) (ts : float) :
  get "requestedSize" (get "payload" (fillOf ord ts)) = Num (fillSize ord) /\
  get "filledSize" (get "payload" (fillOf ord ts)) = Num (fillSize ord).
Proof. split; reflexivity. Qed.

Lemma fillSize_not_zero (ord : value) :
  PrimFloat.is_zero (fillSize ord) = false /\
  PrimFloat.is_nan (fillSize ord) = false.
Proof.
  unfold fillSize.
  destruct (truthy (Num _)) eqn:T; [|split; reflexivity].
  cbn [truthy] in T. apply negb_true_iff, orb_false_iff in T. exact T.
Qed.

Ltac distinct_keys :=
  cbn [map fst]; repeat constructor; cbn [In]; intuition discriminate.

(** What the executor reads in the fill of an order, once parsed. *)
Lemma wired_fill (ord : value) (ts : float) :
  exists ps,
    get "payload" (wire (Simulator.fillOf ord ts)) = Obj ps /\
    get "filledSize" (Obj ps) = wire (Num (fillSize ord)) /\
    get "legIndex" (Obj ps) = wire (get "legIndex" (get "payload" ord)) /\
    get "corrId" (Obj ps) = wire (get "corrId" (get "payload" ord)).
Proof.
  unfold fillOf.
  cbn [object fold_left fst snd setProp String.eqb Ascii.eqb Bool.eqb].
  rewrite get_wire by distinct_keys.
  cbn [lookup String.eqb Ascii.eqb Bool.eqb].
  match goal with
  | |- context [wire (Obj ?inner)] =>
      exists (wire_props inner); rewrite (wire_Obj inner)
  end.
  split; [reflexivity|].
  repeat split; (rewrite <- wire_Obj, get_wire by distinct_keys; reflexivity).
Qed.

Lemma emitFillFromOrder_appends (ord : value) (s : Simulator.state) :
  Redis.streams (Simulator.redis (exec (emitFillFromOrder ord) s)) "orders.fills"
  = Redis.streams (Simulator.redis s) "orders.fills"
    ++ [Some (wire (fillOf ord (Date_now (Simulator.clock s))))].
Proof. reflexivity. Qed.

(** C9 (as amended): an order whose size is missing, or falsy once
    converted to a number (0, NaN, the empty string, false), is filled with
    requestedSize = filledSize = 1. The filledSize of the fill the simulator
    appends to orders.fills is never 0 and never NaN. When the filled size
    is positive and finite (so for every order of missing or falsy size)
    the fill, as the executor parses it, fails the test of the abort branch:
    for leg 0 of an inflight opportunity that has a second leg, the entry
    stays in the table. *)
Theorem C9_simulator_fill_size (ord : value) (ts : float) :
  let size := get "size" (get "payload" ord) in
  let n := fillSize ord in
  (nullish size = true \/ truthy (Num (ToNumber size)) = false ->
   n = 1%float) /\
  (forall s,
     Redis.streams (Simulator.redis (exec (emitFillFromOrder ord) s))
       "orders.fills"
     = Redis.streams (Simulator.redis s) "orders.fills"
       ++ [Some (wire (fillOf ord (Date_now (Simulator.clock s))))]) /\
  get "requestedSize" (get "payload" (fillOf ord ts)) = Num n /\
  get "filledSize" (get "payload" (fillOf ord ts)) = Num n /\
  PrimFloat.is_zero n = false /\
  PrimFloat.is_nan n = false /\
  (PrimFloat.ltb 0 n = true -> PrimFloat.is_finite n = true ->
   abortTest (wire (fillOf ord ts)) = false /\
   forall (s : Executor.state) (id : nat) (st0 : entry) (c : string),
     get "legIndex" (get "payload" ord) = Num 0 ->
     get "corrId" (get "payload" ord) = Str c ->
     Map_get (Str c) (inflight s) = Some st0 ->
     truthy (nth 1 (legs st0) Undefined) = true ->
     Map_get (Str c)
       (inflight (exec (Executor.onFill MIN_REALIZED_PNL
                          (id, Some (wire (fillOf ord ts)))) s))
     = Some {| opp := opp st0; legs := legs st0;
               fills := assign (fills st0) 0 (wire (fillOf ord ts));
               startedTs := startedTs st0 |}).
Proof.
  intros size n. subst n.
  assert (Hab : PrimFloat.ltb 0 (fillSize ord) = true ->
                PrimFloat.is_finite (fillSize ord) = true ->
                abortTest (wire (fillOf ord ts)) = false).
  { intros Hpos Hfin. unfold abortTest.
    destruct (wired_fill ord ts) as (ps & Hp & W & _). rewrite Hp.
    cbn [or_else truthy]. rewrite W. cbn [wire]. rewrite Hfin.
    destruct (fillSize_not_zero ord) as [Z _]. rewrite Z.
    unfold gt_num. cbn [ToNumber]. now rewrite Hpos. }
  split; [|split; [|split; [|split; [|split; [|split]]]]].
  - intros [Hn|Hf]; unfold fillSize; fold size.
    + unfold coalesce. rewrite Hn. reflexivity.
    + unfold coalesce. destruct (nullish size); [reflexivity|].
      now rewrite Hf.
  - intro s. apply emitFillFromOrder_appends.
  - reflexivity.
  - reflexivity.
  - apply fillSize_not_zero.
  - apply fillSize_not_zero.
  - intros Hpos Hfin. split; [now apply Hab|].
    intros s id st0 c Hl Hc Hg Hleg.
    destruct (wired_fill ord ts) as (ps & Hp & _ & Wl & Wc).
    rewrite Hl in Wl. rewrite Hc in Wc.
    change (wire (Num 0)) with (Num 0%float) in Wl. cbn [wire] in Wc.
    pose proof (@onFill_leg0 s id (wire (fillOf ord ts)) st0) as L.
    cbn zeta in L. rewrite Hp in L. cbn [or_else truthy] in L.
    rewrite Wl, Wc in L. rewrite (Hab Hpos Hfin) in L.
    apply L; auto. cbn. apply String.eqb_refl.
Qed.
End SimulatorClaims.

Section SimulatorOnHost.
#[local] Existing Instance Host.runtime.
Import Examples.

(** The order the executor sends for a leg of the given size. *)
Definition orderOf (size_ : float) : value :=
  Obj [("id", Str "uuid-0"); ("ts", Num 1710000000001);
       ("type", Str "order.new");
       ("payload", Obj [("corrId", Str "opp-1"); ("legIndex", Num 0);
                        ("tif", Str "IOC"); ("exchange", Str "bybit");
                        ("instrumentId", Str "BTCUSDT"); ("side", Str "SELL");
                        ("estPx", Num 101); ("size", Num size_)])].

(** An order of size -1 is filled with filledSize -1; the executor takes
    the abort branch on that fill: the entry is removed and leg 1 is not
    sent. *)
Lemma C9_negative_size_reaches_abort :
  let fill := wire (Simulator.fillOf (orderOf (-1)) 1710000000100) in
  let s' := exec (Executor.onFill 0 (0, Some fill)) ExecutorRuns.flying in
  get "filledSize" (get "payload" fill) = Num (-1) /\
  abortTest fill = true /\
  Map_get (Str "opp-1") (Executor.inflight ExecutorRuns.flying)
  = Some entry1 /\
  Map_get (Str "opp-1") (Executor.inflight s') = None /\
  Redis.streams (Executor.redis s') "orders.new" = [].
Proof. repeat split; vm_compute; reflexivity. Qed.

Lemma C9_simulator_fill_size_witness :
  Simulator.fillSize (orderOf 0) = 1%float /\
  abortTest (wire (Simulator.fillOf (orderOf 2) 1710000000100)) = false.
Proof.
  split.
  - apply (proj1 (C9_simulator_fill_size 0 (orderOf 0) 0)).
    right. reflexivity.
  - exact (proj1 (proj2 (proj2 (proj2 (proj2 (proj2 (proj2
             (C9_simulator_fill_size 0 (orderOf 2) 1710000000100))))))
             eq_refl eq_refl)).
Defined.

End SimulatorOnHost.

(** ** Risk engine *)

Section RiskClaims.
Context {rt : Runtime}.
Variable cfg : Risk.config.
Import Risk.

Lemma approved_is_object (opp : value) :
  ok (evaluateRisk cfg opp) = true -> exists ps, opp = Obj ps.
Proof.
  destruct opp; try (eexists; reflexivity); unfold evaluateRisk; cbn;
    destruct (ALLOW_PAPER_ONLY cfg), (REQUIRE_BOTH_SIDES cfg); cbn;
      discriminate.
Qed.

Lemma approved_verdict (opp : value) :
  ok (evaluateRisk cfg opp) = true ->
  reason (evaluateRisk cfg opp) = "approved" /\
  exists n t, netBps (evaluateRisk cfg opp) = Num n /\
              totalFeesLikeBps (evaluateRisk cfg opp) = Num t.
Proof.
  unfold evaluateRisk.
  repeat match goal with
         | |- context [if ?b then reject _ else _] => destruct b
         | |- context [if ?b then {| ok := false; reason := _; netBps := _; totalFeesLikeBps := _ |} else _] => destruct b
         end; cbn [ok reject reason netBps totalFeesLikeBps];
    intros H; try discriminate; split; eauto.
Qed.

(** The policy values the risk block records. *)
Definition policyValues : value :=
  Obj [("EDGE_MIN_BPS", Num (EDGE_MIN_BPS cfg));
       ("NET_MIN_BPS", Num (NET_MIN_BPS cfg));
       ("MAX_TOTAL_SIZE", Num (MAX_TOTAL_SIZE cfg));
       ("REQUIRE_BOTH_SIDES", Bool (REQUIRE_BOTH_SIDES cfg))].

Lemma buildApproved_fields (opp : value) (ev : verdict) :
  get "approved" (buildApproved cfg opp ev) = Bool true /\
  get "risk" (buildApproved cfg opp ev) = riskBlock cfg ev /\
  get "netBps" (riskBlock cfg ev) = netBps ev /\
  get "totalFeesLikeBps" (riskBlock cfg ev) = totalFeesLikeBps ev /\
  get "policy" (riskBlock cfg ev) = policyValues /\
  (forall k, k <> "approved" -> k <> "risk" ->
   get k (buildApproved cfg opp ev) = lookup k (spread opp [])).
Proof.
  unfold buildApproved. cbn [get]. repeat split.
  - rewrite lookup_setProp_other by discriminate.
    apply lookup_setProp_same.
  - apply lookup_setProp_same.
  - intros k Ha Hr. now rewrite !lookup_setProp_other.
Qed.

(** C5: every opportunity the risk engine consumes is acknowledged. If a
    policy check fails, the rejection is counted and no stream is written.
    If all pass, the approval is counted and one entry is appended to the
    output stream: the opportunity with [approved] set to true and a [risk]
    block that records the computed netBps and totalFeesLikeBps and the
    policy values, every other property being the one of the opportunity
    (which is then a JSON object; its keys are distinct as those of every
    parsed object are). *)
Theorem C5_risk_gate (s : state) (id : nat) (opp : value) :
  let ev := evaluateRisk cfg opp in
  let r := onMessage cfg (id, Some opp) s in
  fst r = Normal tt /\
  ~ In id (Redis.pending (redis (snd r)) (INPUT_STREAM cfg) "risk") /\
  (ok ev = false ->
   Redis.streams (redis (snd r)) = Redis.streams (redis s) /\
   rejectedCounter (snd r) = S (rejectedCounter s) /\
   approvedCounter (snd r) = approvedCounter s) /\
  (ok ev = true ->
   Redis.streams (redis (snd r)) (OUTPUT_STREAM cfg)
   = Redis.streams (redis s) (OUTPUT_STREAM cfg)
     ++ [Some (wire (buildApproved cfg opp ev))] /\
   approvedCounter (snd r) = S (approvedCounter s) /\
   rejectedCounter (snd r) = rejectedCounter s /\
   get "approved" (buildApproved cfg opp ev) = Bool true /\
   get "risk" (buildApproved cfg opp ev) = riskBlock cfg ev /\
   (exists n t,
      get "netBps" (riskBlock cfg ev) = Num n /\ netBps ev = Num n /\
      get "totalFeesLikeBps" (riskBlock cfg ev) = Num t /\
      totalFeesLikeBps ev = Num t) /\
   get "policy" (riskBlock cfg ev) = policyValues /\
   (exists ps, opp = Obj ps /\
      (NoDup (map fst ps) ->
       buildApproved cfg opp ev
       = Obj (setProp "risk" (riskBlock cfg ev)
                (setProp "approved" (Bool true) ps)) /\
       get "approved" (wire (buildApproved cfg opp ev)) = Bool true /\
       forall k, k <> "approved" -> k <> "risk" ->
       get k (buildApproved cfg opp ev) = get k opp /\
       get k (wire (buildApproved cfg opp ev)) = wire (get k opp)))).
Proof.
  intros ev r. subst r.
  unfold onMessage, try_finally, try_catch, bind, ret, modify.
  fold ev. destruct (ok ev) eqn:Hok;
    cbn [fst snd redis set_redis approvedCounter rejectedCounter
         Redis.pending Redis.streams Redis.xack Redis.xadd].
  - split; [reflexivity|]. split.
    { unfold Redis.upd. rewrite String.eqb_refl. cbn. apply filter_not_In. }
    split; [discriminate|]. intros _.
    destruct (buildApproved_fields opp ev) as (Ha & Hr & Hn & Ht & Hp & Hk).
    destruct (approved_verdict opp Hok) as (_ & n & t & En & Et).
    destruct (approved_is_object opp Hok) as [ps ->].
    fold ev in En, Et.
    split. { unfold Redis.upd. now rewrite String.eqb_refl. }
    repeat split; auto.
    + exists n, t. rewrite Hn, Ht. auto.
    + exists ps. split; [reflexivity|]. intros Hd.
      assert (Eb : buildApproved cfg (Obj ps) ev
                   = Obj (setProp "risk" (riskBlock cfg ev)
                            (setProp "approved" (Bool true) ps))).
      { unfold buildApproved. now rewrite spread_parsed. }
      assert (Hd' : NoDup (map fst (setProp "risk" (riskBlock cfg ev)
                                     (setProp "approved" (Bool true) ps)))).
      { now apply setProp_NoDup, setProp_NoDup. }
      split; [exact Eb|]. split.
      * rewrite Eb, get_wire by assumption.
        rewrite lookup_setProp_other by discriminate.
        now rewrite lookup_setProp_same.
      * intros k H1 H2. split.
        -- rewrite Hk by assumption. now rewrite spread_parsed.
        -- rewrite Eb, get_wire by assumption.
           now rewrite !lookup_setProp_other.
  - split; [reflexivity|]. split.
    { unfold Redis.upd. rewrite String.eqb_refl. cbn. apply filter_not_In. }
    split; [auto|discriminate].
Qed.
End RiskClaims.

Section RiskOnHost.
#[local] Existing Instance Host.runtime.
Import Examples.

(** The default policy, with paper opportunities allowed. *)
Definition policy : Risk.config :=
  {| Risk.EDGE_MIN_BPS := 20; Risk.NET_MIN_BPS := 0;
     Risk.MAX_TOTAL_SIZE := 10; Risk.REQUIRE_BOTH_SIDES := true;
     Risk.ALLOW_PAPER_ONLY := true;
     Risk.INPUT_STREAM := "scanner.to.risk";
     Risk.OUTPUT_STREAM := "arb.approved" |}.

Definition riskStart : Risk.state :=
  {| Risk.approvedCounter := 0; Risk.rejectedCounter := 0;
     Risk.redis := Redis.empty |}.

(** Scenario S3: an edge of 5 bps under a floor of 20. *)
Definition thinOpp : value :=
  Obj [("id", Str "opp-3"); ("ts", Num 1710000000000);
       ("payload", Obj [("paper", Bool true); ("edgeBps", Num 5);
                        ("legs", Arr [legBuy; legSell])])].

Lemma C5_risk_gate_witness :
  Risk.ok (Risk.evaluateRisk policy opp1) = true /\
  Redis.streams (Risk.redis (snd (Risk.onMessage policy (0, Some opp1) riskStart)))
    "arb.approved"
  = [Some (wire (Risk.buildApproved policy opp1
                   (Risk.evaluateRisk policy opp1)))] /\
  Risk.reason (Risk.evaluateRisk policy thinOpp) = "edge_below_threshold" /\
  Redis.streams (Risk.redis (snd (Risk.onMessage policy (0, Some thinOpp) riskStart)))
  = Redis.streams Redis.empty.
Proof.
  split; [reflexivity|]. split; [|split; [reflexivity|]].
  - exact (proj1 (proj2 (proj2 (proj2
             (C5_risk_gate policy riskStart 0 opp1))) eq_refl)).
  - exact (proj1 (proj1 (proj2 (proj2
             (C5_risk_gate policy riskStart 0 thinOpp))) eq_refl)).
Defined.

End RiskOnHost.

(** ** Options scanner *)

Section ScannerClaims.
Context {rt : Runtime}.
Variable cfg : Scanner.config.
Import Scanner.

(** The entries of arb.opportunities. *)
Definition opps (s : state) : list (option value) :=
  Redis.streams (redis s) "arb.opportunities".

(** Whether the token bucket grants a token in state [s]. *)
Definition granted (s : state) : bool :=
  match fst (takeToken cfg s) with
  | Normal b => b
  | Throw _ => false
  end.

(** The document [emitOpp] appends, stamped [t]. *)
Definition oppDoc (legs : value) (edgeBps t : float) : value :=
  Obj [("ts", Num t);
       ("payload", Obj [("edgeBps", Num edgeBps); ("legs", legs);
                        ("paper", Bool true)])].

(** The four thresholds, all inclusive. *)
Definition thresholds (e : edge) : bool :=
  PrimFloat.leb (MIN_GROSS_BPS cfg) (grossBps e)
  && PrimFloat.leb (MIN_NET_BPS cfg) (netBps e)
  && PrimFloat.leb (MIN_ABS_SPREAD cfg) (abs e)
  && PrimFloat.leb (MIN_NOTIONAL cfg) (mid e * 1)%float.

Lemma qualifies_thresholds (e : edge) :
  qualifies cfg e = PrimFloat.is_finite (netBps e) && thresholds e.
Proof.
  unfold qualifies, thresholds.
  destruct (PrimFloat.is_finite (netBps e)),
    (PrimFloat.leb (MIN_GROSS_BPS cfg) (grossBps e)),
    (PrimFloat.leb (MIN_NET_BPS cfg) (netBps e)),
    (PrimFloat.leb (MIN_ABS_SPREAD cfg) (abs e)),
    (PrimFloat.leb (MIN_NOTIONAL cfg) (mid e * 1)%float); reflexivity.
Qed.

Lemma emitOpp_outcome (legs : value) (e f : float) (s : state) :
  fst (emitOpp cfg legs e f true s) = Normal tt /\
  opps (snd (emitOpp cfg legs e f true s))
  = opps s ++ (if granted s
               then [Some (wire (oppDoc legs e (Date_now (S (clock s)))))]
               else []).
Proof.
  unfold granted, emitOpp, takeToken, bind, now, ret, modify, opps.
  cbn [fst snd clock].
  destruct (PrimFloat.leb 1 _); cbn [fst snd negb redis clock];
    [|now rewrite app_nil_r].
  split; reflexivity.
Qed.

Lemma pathA_outcome (canon : string) (b1 b2 : book) (s : state) :
  let e := calcEdge (ask b1) (EX1_TAKER_BPS cfg) (bid b2) (EX2_TAKER_BPS cfg) in
  let okA := truthy (Num (ask b1)) && truthy (Num (bid b2))
             && (PrimFloat.is_finite (netBps e) && thresholds e) in
  fst (pathA cfg canon b1 b2 s) = Normal tt /\
  opps (snd (pathA cfg canon b1 b2 s))
  = opps s ++ (if okA && granted s
               then [Some (wire (oppDoc (legsA cfg canon b1 b2) (grossBps e)
                                   (Date_now (S (clock s)))))]
               else []).
Proof.
  intros e okA. subst okA. unfold pathA. fold e.
  rewrite <- qualifies_thresholds.
  destruct (truthy (Num (ask b1)) && truthy (Num (bid b2)));
    [|cbn; now rewrite app_nil_r].
  destruct (qualifies cfg e); [|cbn; now rewrite app_nil_r].
  cbn [andb]. apply emitOpp_outcome.
Qed.

Lemma pathB_outcome (canon : string) (b1 b2 : book) (s : state) :
  let e := calcEdge (ask b2) (EX2_TAKER_BPS cfg) (bid b1) (EX1_TAKER_BPS cfg) in
  let okB := truthy (Num (ask b2)) && truthy (Num (bid b1))
             && (PrimFloat.is_finite (netBps e) && thresholds e) in
  fst (pathB cfg canon b1 b2 s) = Normal tt /\
  opps (snd (pathB cfg canon b1 b2 s))
  = opps s ++ (if okB && granted s
               then [Some (wire (oppDoc (legsB cfg canon b1 b2) (grossBps e)
                                   (Date_now (S (clock s)))))]
               else []).
Proof.
  intros e okB. subst okB. unfold pathB. fold e.
  rewrite <- qualifies_thresholds.
  destruct (truthy (Num (ask b2)) && truthy (Num (bid b1)));
    [|cbn; now rewrite app_nil_r].
  destruct (qualifies cfg e); [|cbn; now rewrite app_nil_r].
  cbn [andb]. apply emitOpp_outcome.
Qed.

(** Scenario S5: a pair with a stale book emits nothing and leaves the
    token bucket alone. *)
Lemma scanBooks_stale (tNow : float) (canon : string) (b1 b2 : book)
  (s : state) :
  stale cfg tNow b1 || stale cfg tNow b2 = true ->
  scanBooks cfg tNow canon b1 b2 s = (Normal tt, s).
Proof. unfold scanBooks. now intros ->. Qed.

(** C6 (as amended): for a pair whose two books parsed and of which
    neither is older than MAX_BOOK_AGE_MS (an age equal to it is not stale),
    the scan appends the opportunity of path A exactly when both prices of
    the path are non-zero, netBps is finite, the four inclusive thresholds
    hold on the result of [calcEdge], and the token bucket grants a token;
    then the same for path B, on the state path A left. *)
Theorem C6_scan_admission (tNow : float) (canon : string) (b1 b2 : book)
  (s : state) :
  stale cfg tNow b1 = false -> stale cfg tNow b2 = false ->
  let eA := calcEdge (ask b1) (EX1_TAKER_BPS cfg) (bid b2) (EX2_TAKER_BPS cfg) in
  let eB := calcEdge (ask b2) (EX2_TAKER_BPS cfg) (bid b1) (EX1_TAKER_BPS cfg) in
  let okA := truthy (Num (ask b1)) && truthy (Num (bid b2))
             && (PrimFloat.is_finite (netBps eA) && thresholds eA) in
  let okB := truthy (Num (ask b2)) && truthy (Num (bid b1))
             && (PrimFloat.is_finite (netBps eB) && thresholds eB) in
  let sA := exec (pathA cfg canon b1 b2) s in
  let sB := exec (scanBooks cfg tNow canon b1 b2) s in
  opps sA
  = opps s ++ (if okA && granted s
               then [Some (wire (oppDoc (legsA cfg canon b1 b2) (grossBps eA)
                                   (Date_now (S (clock s)))))]
               else []) /\
  opps sB
  = opps sA ++ (if okB && granted sA
                then [Some (wire (oppDoc (legsB cfg canon b1 b2) (grossBps eB)
                                    (Date_now (S (clock sA)))))]
                else []).
Proof.
  intros H1 H2 eA eB okA okB sA sB.
  destruct (pathA_outcome canon b1 b2 s) as [NA EA].
  split; [exact EA|].
  assert (E : sB = exec (pathB cfg canon b1 b2) sA).
  { unfold sB, sA, exec, scanBooks, bind. rewrite H1, H2. cbn [orb].
    destruct (pathA cfg canon b1 b2 s) as [c s']. cbn [fst snd] in *.
    now rewrite NA. }
  rewrite E. apply pathB_outcome.
Qed.
End ScannerClaims.

Section ScannerOnHost.
#[local] Existing Instance Host.runtime.

(** The defaults of the environment of the options scanner. *)
Definition scanDefaults : Scanner.config :=
  {| Scanner.OPT_EX1_PREFIX := "binance_opt";
     Scanner.OPT_EX2_PREFIX := "bybit_opt";
     Scanner.OPT_EX1_LABEL := "binance"; Scanner.OPT_EX2_LABEL := "bybit";
     Scanner.EX1_TAKER_BPS := 10; Scanner.EX2_TAKER_BPS := 10;
     Scanner.MIN_NET_BPS := 0; Scanner.MIN_GROSS_BPS := 0;
     Scanner.MIN_ABS_SPREAD := 0; Scanner.MIN_NOTIONAL := 0;
     Scanner.MAX_BOOK_AGE_MS := 2000;
     Scanner.EMIT_RATE_PER_SEC := 60; Scanner.EMIT_BURST := 120 |}.

Definition scanStart : Scanner.state :=
  {| Scanner.tokens := 120; Scanner.lastRefill := 1710000000000;
     Scanner.redis := Redis.empty; Scanner.clock := 0 |}.

(** The first venue has no ask (0) and bids 4; the second quotes 5 / 6. *)
Definition emptyAsk : Scanner.book :=
  {| Scanner.bid := 4; Scanner.ask := 0; Scanner.ts := 1710000000000 |}.
Definition quoted : Scanner.book :=
  {| Scanner.bid := 5; Scanner.ask := 6; Scanner.ts := 1710000000000 |}.

Definition edgeA : Scanner.edge :=
  Scanner.calcEdge (Scanner.ask emptyAsk) 10 (Scanner.bid quoted) 10.

(** Path A would buy at the ask 0 and sell at the bid 5: the books are
    fresh, netBps is finite, the four thresholds hold and a token is there,
    yet nothing is emitted, because the path is skipped when a price is 0.
    (Path B, buying at 6 to sell at 4, is below the thresholds.) *)
Lemma C6_zero_price_path_not_emitted :
  Scanner.stale scanDefaults 1710000000000 emptyAsk = false /\
  Scanner.stale scanDefaults 1710000000000 quoted = false /\
  PrimFloat.is_finite (Scanner.netBps edgeA) = true /\
  thresholds scanDefaults edgeA = true /\
  granted scanDefaults scanStart = true /\
  opps (exec (Scanner.scanBooks scanDefaults 1710000000000
                "BTC-2024-09-27-19000-C" emptyAsk quoted) scanStart) = [].
Proof. repeat split; vm_compute; reflexivity. Qed.

Definition lowBook : Scanner.book :=
  {| Scanner.bid := 99; Scanner.ask := 100; Scanner.ts := 1710000000000 |}.
Definition highBook : Scanner.book :=
  {| Scanner.bid := 101; Scanner.ask := 102; Scanner.ts := 1710000000000 |}.

(** Buying at 100 on the first venue and selling at 101 on the second 
    passes, at the age limit itself. *)
Lemma C6_scan_admission_witness :
  Scanner.stale scanDefaults 1710000002000 lowBook = false /\
  Scanner.stale scanDefaults 1710000002000 highBook = false /\
  opps (exec (Scanner.pathA scanDefaults "BTC-2024-09-27-19000-C"
                lowBook highBook) scanStart)
  = [Some (wire (oppDoc
                   (Scanner.legsA scanDefaults "BTC-2024-09-27-19000-C"
                      lowBook highBook)
                   (Scanner.grossBps
                      (Scanner.calcEdge 100 10 101 10))
                   (Date_now 1)))].
Proof.
  split; [reflexivity|]. split; [reflexivity|].
  exact (proj1 (@C6_scan_admission Host.runtime scanDefaults
                  1710000002000%float "BTC-2024-09-27-19000-C"
                  lowBook highBook scanStart eq_refl eq_refl)).
Defined.

End ScannerOnHost.

(** * Further properties *)

(** ** Consumers and acknowledgements *)

(** [without ids l]: the entries of [l] that are none of [ids]. *)
Definition without (ids l : list nat) : list nat :=
  filter (fun i => negb (existsb (Nat.eqb i) ids)) l.

(** [ends P m]: when [m] returns, it does so in a state where [P] holds. *)
Definition ends {S A} (P : S -> Prop) (m : M S A) : Prop :=
  forall s, match m s with
            | (Normal _, s') => P s'
            | (Throw _, _) => True
            end.

Section Handlers.
Variables (S : Type) (pend : S -> list nat).

Lemma ends_bind A B (P : S -> Prop) (m : M S A) (k : A -> M S B) :
  (forall a, ends P (k a)) -> ends P (bind m k).
Proof.
  intros Hk s. unfold bind. destruct (m s) as [[a|e] s']; [apply Hk|exact I].
Qed.

Lemma ends_modify (P : S -> Prop) (f : S -> S) :
  (forall s, P (f s)) -> ends P (modify f).
Proof. intros H s. apply H. Qed.

(** [try { m } catch { h }] where [m] ends with the acknowledgement and [h]
    is the acknowledgement. *)
Lemma try_catch_ends (P : S -> Prop) (m : M S unit) (h : error -> M S unit) :
  ends P m ->
  (forall e s, fst (h e s) = Normal tt /\ P (snd (h e s))) ->
  forall s, fst (try_catch m h s) = Normal tt /\ P (snd (try_catch m h s)).
Proof.
  intros Hm Hh s. unfold try_catch. specialize (Hm s).
  destruct (m s) as [[[]|e] s']; [split; [reflexivity|exact Hm]|apply Hh].
Qed.

(** A handler of the message [id]: it returns, and takes [id], and nothing
    else, out of the pending entries. *)
Definition handles (id : nat) (m : M S unit) : Prop :=
  forall s, fst (m s) = Normal tt /\ pend (snd (m s)) = without [id] (pend s).

Lemma without_cons (id : nat) (ids l : list nat) :
  without ids (without [id] l) = without (id :: ids) l.
Proof.
  induction l as [|x r IH]; [reflexivity|].
  change (without [id] (x :: r))
    with (if negb (Nat.eqb x id || false) then x :: without [id] r
          else without [id] r).
  change (without (id :: ids) (x :: r))
    with (if negb (Nat.eqb x id || existsb (Nat.eqb x) ids)
          then x :: without (id :: ids) r else without (id :: ids) r).
  rewrite orb_false_r.
  destruct (Nat.eqb x id); cbn [negb orb]; [exact IH|].
  change (without ids (x :: without [id] r))
    with (if negb (existsb (Nat.eqb x) ids)
          then x :: without ids (without [id] r)
          else without ids (without [id] r)).
  now rewrite IH.
Qed.

Lemma without_nil (l : list nat) : without [] l = l.
Proof.
  induction l as [|x r IH]; [reflexivity|].
  change (without [] (x :: r)) with (x :: without [] r). now rewrite IH.
Qed.

Lemma handles_intro (id : nat) (m : M S unit) :
  (forall s, fst (m s) = Normal tt /\ ~ In id (pend (snd (m s)))) ->
  preserves (same_on (fun s => without [id] (pend s))) m ->
  handles id m.
Proof.
  intros H F s. destruct (H s) as [Hn Hi]. split; [exact Hn|].
  rewrite <- (F s). unfold without. symmetry.
  apply forallb_filter_id. apply forallb_forall. intros x Hx.
  cbn [existsb]. rewrite orb_false_r.
  destruct (Nat.eqb_spec x id); [subst; contradiction|reflexivity].
Qed.

Lemma for_of_handles (body : Redis.message -> M S unit) :
  (forall id d, handles id (body (id, d))) ->
  forall msgs s,
    fst (for_of msgs body s) = Normal tt /\
    pend (snd (for_of msgs body s)) = without (map fst msgs) (pend s).
Proof.
  intros Hb. induction msgs as [|[id d] r IH]; intros s; cbn [for_of map fst].
  - split; [reflexivity|]. now rewrite without_nil.
  - unfold bind. destruct (Hb id d s) as [Hn Hp].
    destruct (body (id, d) s) as [c s1]. cbn [fst snd] in *. subst c.
    destruct (IH s1) as [Hn' Hp']. split; [exact Hn'|].
    now rewrite Hp', Hp, without_cons.
Qed.

Lemma without_read (ids l : list nat) :
  (forall i, In i (without ids (l ++ ids)) -> In i l) /\
  (forall i, In i ids -> ~ In i (without ids (l ++ ids))).
Proof.
  unfold without. split.
  - intros i Hi. apply filter_In in Hi as [Hi Hn].
    apply in_app_or in Hi as [Hi|Hi]; [exact Hi|].
    assert (existsb (Nat.eqb i) ids = true); [|now rewrite H in Hn].
    apply existsb_exists. exists i. split; [exact Hi|apply Nat.eqb_refl].
  - intros i Hi Hin. apply filter_In in Hin as [_ Hn].
    assert (existsb (Nat.eqb i) ids = true); [|now rewrite H in Hn].
    apply existsb_exists. exists i. split; [exact Hi|apply Nat.eqb_refl].
Qed.

End Handlers.

Lemma without_one (id : nat) (l : list nat) :
  without [id] l = filter (fun i => negb (Nat.eqb i id)) l.
Proof.
  unfold without. apply filter_ext. intro i. cbn [existsb].
  now rewrite orb_false_r.
Qed.

Lemma without_twice (id : nat) (l : list nat) :
  without [id] (without [id] l) = without [id] l.
Proof.
  rewrite !without_one. induction l as [|x r IH]; cbn [filter]; [reflexivity|].
  destruct (Nat.eqb x id) eqn:E; cbn [negb filter]; [exact IH|].
  rewrite E. cbn [negb]. now rewrite IH.
Qed.

Lemma not_In_without (id : nat) (l : list nat) : ~ In id (without [id] l).
Proof. rewrite without_one. apply filter_not_In. Qed.

(** The pending entries after [XACK]. *)
Lemma xack_pending (stream group : string) (id : nat) (r : Redis.t) :
  Redis.pending (Redis.xack stream group id r) stream group
  = without [id] (Redis.pending r stream group).
Proof.
  rewrite without_one. cbn [Redis.xack Redis.pending]. unfold Redis.upd.
  now rewrite !String.eqb_refl.
Qed.

(** The pending entries after [XREADGROUP]. *)
Lemma xreadgroup_pending (group : string) (n : nat) (stream : string)
  (r : Redis.t) :
  Redis.pending (snd (Redis.xreadgroup group n stream r)) stream group
  = Redis.pending r stream group
    ++ map fst (fst (Redis.xreadgroup group n stream r)).
Proof.
  unfold Redis.xreadgroup. cbn [fst snd Redis.pending]. unfold Redis.upd.
  now rewrite !String.eqb_refl.
Qed.

Ltac ends_step :=
  cbv beta zeta;
  first
    [ match goal with
      | |- ends _ (bind _ _) => apply ends_bind; intro
      | |- ends _ (if ?b then _ else _) => destruct b
      | |- ends _ (match ?x with _ => _ end) => destruct x
      end ].

(** ** Router-executor: the consumers *)

Section ExecutorConsumers.
Context {rt : Runtime}.
Variable MIN_REALIZED_PNL : float.
Import Executor.

(** The entries of [stream] delivered to the executor's group and not yet
    acknowledged. *)
Definition unacked (stream : string) (s : state) : list nat :=
  Redis.pending (redis s) stream GROUP.

Definition others (stream : string) (id : nat) (s : state) : list nat :=
  without [id] (unacked stream s).

Lemma xack_unacked (stream : string) (id : nat) (s : state) :
  fst (xack stream id s) = Normal tt /\
  unacked stream (snd (xack stream id s)) = without [id] (unacked stream s).
Proof. split; [reflexivity|]. apply xack_pending. Qed.

Lemma xack_others (stream : string) (id : nat) :
  preserves (same_on (others stream id)) (xack stream id).
Proof.
  intro s. unfold same_on, others.
  rewrite (proj2 (xack_unacked stream id s)). apply without_twice.
Qed.

Lemma xack_ends (stream : string) (id : nat) :
  ends (fun s => ~ In id (unacked stream s)) (xack stream id).
Proof.
  intro s. destruct (xack_unacked stream id s) as [H1 H2].
  destruct (xack stream id s) as [c s']. cbn [fst snd] in *. subst c.
  rewrite H2. apply not_In_without.
Qed.

Lemma sendOrder_others stream id (c i l : value) (tif : string) :
  preserves (same_on (others stream id)) (sendOrder c i l tif).
Proof. unfold sendOrder. frame. Qed.

Lemma emitTrade_others stream id (o : value) (fs : list value) :
  preserves (same_on (others stream id)) (emitTrade MIN_REALIZED_PNL o fs).
Proof. apply emitTrade_frame; reflexivity. Qed.

Hint Resolve xack_others sendOrder_others emitTrade_others : frame.

Lemma onFill_handles (id : nat) (d : option value) :
  handles (unacked "orders.fills") id (onFill MIN_REALIZED_PNL (id, d)).
Proof.
  apply handles_intro.
  - intro s. unfold onFill.
    apply (try_catch_ends (P := fun s => ~ In id (unacked "orders.fills" s))).
    + unfold JSON_parse. repeat ends_step; apply xack_ends.
    + intros e s0. split; [reflexivity|]. apply (xack_ends "orders.fills" id s0).
  - change (preserves (same_on (others "orders.fills" id))
              (onFill MIN_REALIZED_PNL (id, d))).
    unfold onFill, JSON_parse. frame.
Qed.

Lemma onOpportunity_handles (source : string) (id : nat) (d : option value) :
  handles (unacked source) id (onOpportunity source (id, d)).
Proof.
  apply handles_intro.
  - intro s. unfold onOpportunity.
    apply (try_catch_ends (P := fun s => ~ In id (unacked source s))).
    + unfold JSON_parse, member. repeat ends_step; apply xack_ends.
    + intros e s0. split; [reflexivity|]. apply (xack_ends source id s0).
  - change (preserves (same_on (others source id))
              (onOpportunity source (id, d))).
    unfold onOpportunity, JSON_parse, member. frame.
Qed.


(** X1: Every message [consumeFills] reads is handled without an exception
    leaving the loop and is acknowledged, whether its data parses or not and
    whatever branch handles it: after the call nothing is pending for the
    executor on orders.fills that was not pending before. A fill that does
    not parse, or whose corrId has no inflight entry, is only acknowledged. *)
Theorem consumeFills_acknowledges (s : state) :
  let msgs := fst (Redis.xreadgroup GROUP 50 "orders.fills" (redis s)) in
  let s' := exec (consumeFills MIN_REALIZED_PNL) s in
  fst (consumeFills MIN_REALIZED_PNL s) = Normal tt /\
  (forall i, In i (unacked "orders.fills" s') ->
             In i (unacked "orders.fills" s)) /\
  (AUTO_TRADE s = true -> fillsReady s = true ->
   forall i, In i (map fst msgs) -> ~ In i (unacked "orders.fills" s')) /\
  (forall id s0,
     onFill MIN_REALIZED_PNL (id, None) s0
     = (Normal tt, exec (xack "orders.fills" id) s0)) /\
  (forall id fill s0,
     Map_get (get "corrId" (or_else (get "payload" fill) (Obj [])))
       (inflight s0) = None ->
     onFill MIN_REALIZED_PNL (id, Some fill) s0
     = (Normal tt, exec (xack "orders.fills" id) s0)).
Proof.
  intros msgs s'. subst msgs s'.
  assert (Hbad : (forall id s0,
                    onFill MIN_REALIZED_PNL (id, None) s0
                    = (Normal tt, exec (xack "orders.fills" id) s0)) /\
                 (forall id fill s0,
                    Map_get (get "corrId" (or_else (get "payload" fill) (Obj [])))
                      (inflight s0) = None ->
                    onFill MIN_REALIZED_PNL (id, Some fill) s0
                    = (Normal tt, exec (xack "orders.fills" id) s0))).
  { split; [reflexivity|]. intros id fill s0 Hg.
    unfold onFill, try_catch, bind, JSON_parse, ret, gets. now rewrite Hg. }
  unfold exec at 1 2, consumeFills, bind, gets, tradingEnabled, xreadgroup.
  destruct (AUTO_TRADE s) eqn:Ha; cbn [negb fst snd];
    [|split; [reflexivity|split; [auto|split; [discriminate|exact Hbad]]]].
  destruct (fillsReady s) eqn:Hr; cbn [negb fst snd];
    [|split; [reflexivity|split; [auto|split; [discriminate|exact Hbad]]]].
  pose proof (xreadgroup_pending GROUP 50 "orders.fills" (redis s)) as Hp.
  destruct (Redis.xreadgroup GROUP 50 "orders.fills" (redis s)) as [msgs r].
  cbn [fst snd] in *.
  destruct (for_of_handles (pend := unacked "orders.fills")
              (onFill MIN_REALIZED_PNL) onFill_handles msgs
              (set_redis r s)) as [Hn Hq].
  split; [exact Hn|]. rewrite Hq.
  change (unacked "orders.fills" (set_redis r s))
    with (Redis.pending r "orders.fills" GROUP).
  rewrite Hp. split; [apply without_read|].
  split; [intros _ _; apply without_read|exact Hbad].
Qed.

(** X2: Every message [consumeOpportunities] reads from arb.opportunities is
    handled without an exception leaving the loop and is acknowledged,
    whether it parses or not, whether its legs can be ordered or not: after
    the call nothing is pending for the executor on that stream that was not
    pending before. A message that does not parse is only acknowledged. *)
Theorem consumeOpportunities_acknowledges (s : state) :
  let msgs := fst (Redis.xreadgroup GROUP 20 "arb.opportunities" (redis s)) in
  let s' := exec consumeOpportunities s in
  fst (consumeOpportunities s) = Normal tt /\
  (forall i, In i (unacked "arb.opportunities" s') ->
             In i (unacked "arb.opportunities" s)) /\
  (AUTO_TRADE s = true -> oppReady s = true ->
   forall i, In i (map fst msgs) -> ~ In i (unacked "arb.opportunities" s')) /\
  (forall source id s0,
     onOpportunity source (id, None) s0
     = (Normal tt, exec (xack source id) s0)).
Proof.
  intros msgs s'. subst msgs s'.
  assert (Hbad : forall source id s0,
                   onOpportunity source (id, None) s0
                   = (Normal tt, exec (xack source id) s0)) by reflexivity.
  unfold exec at 1 2, consumeOpportunities, bind, gets, tradingEnabled,
    xreadgroup.
  destruct (AUTO_TRADE s) eqn:Ha; cbn [negb fst snd];
    [|split; [reflexivity|split; [auto|split; [discriminate|exact Hbad]]]].
  destruct (oppReady s) eqn:Hr; cbn [negb fst snd];
    [|split; [reflexivity|split; [auto|split; [discriminate|exact Hbad]]]].
  pose proof (xreadgroup_pending GROUP 20 "arb.opportunities" (redis s)) as Hp.
  destruct (Redis.xreadgroup GROUP 20 "arb.opportunities" (redis s))
    as [msgs r].
  cbn [fst snd] in *.
  destruct (for_of_handles (pend := unacked "arb.opportunities")
              (onOpportunity "arb.opportunities")
              (onOpportunity_handles "arb.opportunities") msgs
              (set_redis r s)) as [Hn Hq].
  split; [exact Hn|]. rewrite Hq.
  change (unacked "arb.opportunities" (set_redis r s))
    with (Redis.pending r "arb.opportunities" GROUP).
  rewrite Hp. split; [apply without_read|].
  split; [intros _ _; apply without_read|exact Hbad].
Qed.

End ExecutorConsumers.

(** ** Router-executor: orders, PnL and toggles *)

(** Writing the properties [ps], in order, over the properties [acc]: a key
    of [ps] takes its value from [ps], any other key keeps the one of [acc]. *)
Lemma lookup_fold_setProp (k : string) (ps acc : list (string * value)) :
  NoDup (map fst ps) ->
  lookup k (fold_left (fun a kv => setProp (fst kv) (snd kv) a) ps acc)
  = if existsb (String.eqb k) (map fst ps) then lookup k ps else lookup k acc.
Proof.
  revert acc. induction ps as [|[k' v] r IH]; intros acc Hd;
    cbn [fold_left map fst snd existsb lookup]; [reflexivity|].
  inversion Hd as [|? ? Hk Hr]; subst. rewrite IH by assumption.
  rewrite (String.eqb_sym k k').
  destruct (String.eqb_spec k' k) as [->|Hne]; cbn [orb].
  - destruct (existsb (String.eqb k) (map fst r)) eqn:E.
    + apply existsb_exists in E as (x & Hx & Ex).
      apply String.eqb_eq in Ex. subst x. contradiction.
    + apply lookup_setProp_same.
  - destruct (existsb (String.eqb k) (map fst r)); [reflexivity|].
    apply lookup_setProp_other. congruence.
Qed.

Section ExecutorOrders.
Context {rt : Runtime}.
Variable MIN_REALIZED_PNL : float.
Import Executor.

(** The payload and the message of the order [sendOrder] writes. *)
Definition orderPayload (corrId legIndex leg : value) (tif : string) : value :=
  Obj (spread leg [("corrId", corrId); ("legIndex", legIndex);
                   ("tif", Str tif)]).

Definition orderMsg (orderId : string) (ts : float)
  (corrId legIndex leg : value) (tif : string) : value :=
  Obj [("id", Str orderId); ("ts", Num ts); ("type", Str "order.new");
       ("payload", orderPayload corrId legIndex leg tif)].

Lemma sendOrder_outcome (c i l : value) (tif : string) (s : state) :
  sendOrder c i l tif s =
  if AUTO_TRADE s
  then (Normal (Str (uuidv4 (uuids s))),
        set_counters (execCounter s) (S (legCounter s)) (tradeCounter s)
          (set_redis
             (Redis.xadd "orders.new"
                (orderMsg (uuidv4 (uuids s)) (Date_now (clock s)) c i l tif)
                (redis s))
             (set_clock (S (clock s)) (S (uuids s)) s)))
  else (Normal Null, s).
Proof.
  unfold sendOrder, bind, gets, tradingEnabled.
  destruct (AUTO_TRADE s); reflexivity.
Qed.

(** X3: [sendOrder] guards on the toggle: with autoTrade off it writes nothing
    and answers null. With autoTrade on it appends one order to orders.new
    and counts the leg. The payload of the order is the leg with the
    correlation data: every property of the leg is copied, and corrId,
    legIndex and tif are those of the call unless the leg has a property of
    that name, which then takes its place. *)
Theorem sendOrder_order (c i : value) (ps : list (string * value))
  (tif : string) (s : state) :
  NoDup (map fst ps) ->
  let r := sendOrder c i (Obj ps) tif s in
  let order := orderMsg (uuidv4 (uuids s)) (Date_now (clock s)) c i (Obj ps) tif in
  (AUTO_TRADE s = false -> r = (Normal Null, s)) /\
  (AUTO_TRADE s = true ->
   fst r = Normal (Str (uuidv4 (uuids s))) /\
   Redis.streams (redis (snd r)) "orders.new"
   = Redis.streams (redis s) "orders.new" ++ [Some (wire order)] /\
   (forall st, st <> "orders.new" ->
      Redis.streams (redis (snd r)) st = Redis.streams (redis s) st) /\
   legCounter (snd r) = S (legCounter s) /\
   inflight (snd r) = inflight s) /\
  (forall k,
     get k (get "payload" order)
     = if existsb (String.eqb k) (map fst ps) then lookup k ps
       else lookup k [("corrId", c); ("legIndex", i); ("tif", Str tif)]).
Proof.
  intros Hd r order. subst r. rewrite sendOrder_outcome.
  split; [|split].
  - now intros ->.
  - intros ->. cbn [fst snd redis set_redis set_counters Redis.xadd
                    Redis.streams legCounter inflight set_clock].
    unfold Redis.upd. rewrite String.eqb_refl.
    repeat split; try reflexivity.
    intros st Hst. destruct (String.eqb_spec st "orders.new"); congruence.
  - intro k. unfold order, orderMsg, orderPayload.
    cbn [get lookup String.eqb Ascii.eqb Bool.eqb].
    unfold spread. cbn [ownProps]. now apply lookup_fold_setProp.
Qed.

(** X4: [computePnlFromFills] never answers NaN or an infinity. It answers 0
    when there is no fill, and when the legs of the opportunity are not an
    array (the exception of [legs.find] is caught). A fill whose px or
    filledSize does not convert to a finite number is skipped: among other
    fills it does not change the result. *)
Theorem computePnlFromFills_finite (o : value) (fs : list value) :
  PrimFloat.is_finite (computePnlFromFills o fs) = true /\
  computePnlFromFills o [] = 0%float /\
  (Array_isArray (or_else (get "legs" (get "payload" o)) (Arr [])) = false ->
   computePnlFromFills o fs = 0%float) /\
  (forall f pre post,
     PrimFloat.is_finite (ToNumber (get "px" (get "payload" f)))
     && PrimFloat.is_finite
          (ToNumber (or_else (get "filledSize" (get "payload" f)) (Num 0)))
     = false ->
     pre ++ post <> [] ->
     computePnlFromFills o (pre ++ f :: post)
     = computePnlFromFills o (pre ++ post)).
Proof.
  unfold computePnlFromFills. split; [|split; [|split]].
  - destruct (Nat.eqb (List.length fs) 0); [reflexivity|].
    destruct (or_else (get "legs" (get "payload" o)) (Arr [])); try reflexivity.
    match goal with
    | |- PrimFloat.is_finite (if PrimFloat.is_finite ?x then _ else _) = true =>
        destruct (PrimFloat.is_finite x) eqn:E; [exact E|reflexivity]
    end.
  - reflexivity.
  - destruct (Nat.eqb (List.length fs) 0); [reflexivity|].
    destruct (or_else (get "legs" (get "payload" o)) (Arr []));
      cbn [Array_isArray]; try reflexivity; discriminate.
  - intros f pre post Hf Hne.
    assert (Hs : forall acc, pnl_step acc f = acc).
    { intro acc. unfold pnl_step.
      apply andb_false_iff in Hf as [-> | ->]; cbn [negb orb];
        [reflexivity|now rewrite orb_true_r]. }
    assert (L1 : Nat.eqb (List.length (pre ++ f :: post)) 0 = false).
    { apply Nat.eqb_neq. rewrite length_app. cbn [List.length]. lia. }
    assert (L2 : Nat.eqb (List.length (pre ++ post)) 0 = false).
    { apply Nat.eqb_neq. destruct (pre ++ post); [congruence|discriminate]. }
    rewrite L1, L2, !fold_left_app. cbn [fold_left]. now rewrite Hs.
Qed.

(** The correlation id [consumeOpportunities] files an opportunity under:
    [opp.corrId || opp.id || uuidv4()]. *)
Definition corrIdOf (opp : value) (s : state) : value :=
  if truthy (get "corrId" opp) then get "corrId" opp
  else if truthy (get "id" opp) then get "id" opp
  else Str (uuidv4 (uuids s)).

(** The state once the opportunity is counted and its correlation id
    chosen. *)
Definition counted (opp : value) (s : state) : state :=
  let s1 := set_counters (S (execCounter s)) (legCounter s) (tradeCounter s) s in
  if truthy (get "corrId" opp) || truthy (get "id" opp) then s1
  else set_clock (clock s1) (S (uuids s1)) s1.

Definition entryOf (opp : value) (L : list value) (s : state) : entry :=
  {| opp := opp; legs := L; fills := []; startedTs := Date_now (clock s) |}.

Lemma onOpportunity_outcome (source : string) (id : nat) (o : value)
  (s : state) :
  onOpportunity source (id, Some o) s =
  if nullish o
  then (Normal tt,
        exec (xack source id)
          (set_counters (S (execCounter s)) (legCounter s) (tradeCounter s) s))
  else
    match protectiveFirst (or_else (get "legs" (get "payload" o)) (Arr [])) with
    | Throw _ => (Normal tt, exec (xack source id) (counted o s))
    | Normal L =>
        let s3 := set_inflight
                    (Map_set (corrIdOf o s) (entryOf o L s) (inflight s))
                    (set_clock (S (clock s)) (uuids (counted o s))
                       (counted o s)) in
        (Normal tt,
         exec (xack source id)
           (if truthy (nth 0 L Undefined)
            then exec (sendOrder (corrIdOf o s) (Num 0) (nth 0 L Undefined)
                         "IOC") s3
            else s3))
    end.
Proof.
  unfold onOpportunity, try_catch, bind, JSON_parse, ret, modify, member,
    lift, corrIdOf, counted, entryOf, exec.
  destruct o; cbn [nullish]; try reflexivity.
  all: cbn [get truthy orb]; unfold ret; cbv beta iota.
  all: repeat match goal with
              | |- context [truthy ?x] => destruct (truthy x)
              end; cbn [orb fresh_uuid]; cbv beta iota.
  all: match goal with
       | |- context [protectiveFirst ?x] => destruct (protectiveFirst x)
       end; try reflexivity.
  all: cbn [now fst snd]; cbv beta iota.
  all: match goal with
       | |- context [truthy ?x] => destruct (truthy x)
       end; try reflexivity.
  all: rewrite !sendOrder_outcome;
    cbn [AUTO_TRADE set_inflight set_clock set_counters];
    destruct (AUTO_TRADE s); reflexivity.
Qed.

(** X5: An opportunity that parses to a value other than null, and whose legs
    [protectiveFirst] can order, is counted and filed in the inflight table
    under its correlation id ([corrId], else [id], else a fresh uuid), with
    the ordered legs, no fill and the time of its arrival; when trading is
    on and there is a first leg, its order is appended to orders.new in the
    same step. An opportunity that parses to null, or whose legs cannot be
    ordered (they are not an array, or a side is not a string), is counted
    too, and nothing is filed or sent. *)
Theorem onOpportunity_files (source : string) (id : nat) (o : value)
  (s : state) :
  let s' := exec (onOpportunity source (id, Some o)) s in
  let c := corrIdOf o s in
  let sorted :=
    protectiveFirst (or_else (get "legs" (get "payload" o)) (Arr [])) in
  execCounter s' = S (execCounter s) /\
  (forall L,
     nullish o = false -> sorted = Normal L -> sameValueZero c c = true ->
     Map_get c (inflight s') = Some (entryOf o L s) /\
     Redis.streams (redis s') "orders.new"
     = Redis.streams (redis s) "orders.new"
       ++ (if AUTO_TRADE s && truthy (nth 0 L Undefined)
           then [Some (wire (orderMsg (uuidv4 (uuids (counted o s)))
                               (Date_now (S (clock s)))
                               c (Num 0) (nth 0 L Undefined) "IOC"))]
           else [])) /\
  (nullish o = true \/ (exists e, sorted = Throw e) ->
   inflight s' = inflight s /\
   Redis.streams (redis s') = Redis.streams (redis s) /\
   legCounter s' = legCounter s).
Proof.
  intros s' c sorted. subst s' c sorted. unfold exec at 1 2 3 4 5 6.
  rewrite onOpportunity_outcome.
  destruct (nullish o) eqn:Hn.
  - split; [reflexivity|]. split; [discriminate|]. intros _.
    repeat split; reflexivity.
  - destruct (protectiveFirst _) as [L|e] eqn:HL.
    + split; [|split].
      * unfold exec. rewrite sendOrder_outcome. unfold counted.
        destruct (truthy (get "corrId" o) || truthy (get "id" o));
          cbn [AUTO_TRADE set_inflight set_clock set_counters];
          destruct (truthy (nth 0 L Undefined)), (AUTO_TRADE s); reflexivity.
      * intros L' _ E Hk. injection E as <-.
        unfold exec. rewrite sendOrder_outcome.
        rewrite (andb_comm (AUTO_TRADE s)). unfold counted.
        destruct (truthy (get "corrId" o) || truthy (get "id" o));
          cbn [AUTO_TRADE set_inflight set_clock set_counters];
          destruct (truthy (nth 0 L Undefined)), (AUTO_TRADE s);
          cbn [andb fst snd xack modify inflight set_redis set_counters
                 set_inflight set_clock redis Redis.xack Redis.xadd
                 Redis.streams clock uuids];
          (split; [now apply Map_get_set|]);
          unfold Redis.upd; rewrite ?String.eqb_refl, ?app_nil_r; reflexivity.
      * intros [H|[e H]]; discriminate.
    + split; [|split].
      * unfold counted.
        destruct (truthy (get "corrId" o) || truthy (get "id" o)); reflexivity.
      * discriminate.
      * intros _. unfold counted.
        destruct (truthy (get "corrId" o) || truthy (get "id" o));
          repeat split; reflexivity.
Qed.

(** The entry of a fill's opportunity once the fill is recorded in it. *)
Definition recorded (st0 : entry) (fill : value) : entry :=
  {| opp := opp st0; legs := legs st0;
     fills := assign_key (fills st0)
                (get "legIndex" (or_else (get "payload" fill) (Obj []))) fill;
     startedTs := startedTs st0 |}.

(** Whether [emitTrade] goes on to build the trade of an entry. *)
Definition profitable (st : entry) (s : state) : bool :=
  AUTO_TRADE s
  && (PrimFloat.is_finite (computePnlFromFills (opp st) (fills st))
      && PrimFloat.ltb MIN_REALIZED_PNL
           (computePnlFromFills (opp st) (fills st))).

Definition ackedFill (id : nat) (s : state) : state :=
  exec (xack "orders.fills" id) s.

Lemma executor_onFill_outcome (id : nat) (fill : value) (s : state) :
  let p := or_else (get "payload" fill) (Obj []) in
  let c := get "corrId" p in
  onFill MIN_REALIZED_PNL (id, Some fill) s =
  (Normal tt,
   ackedFill id
     match Map_get c (inflight s) with
     | None => s
     | Some st0 =>
         let st := recorded st0 fill in
         let s1 := set_inflight (Map_set c st (inflight s)) s in
         let dropped := set_inflight (Map_delete c (inflight s1)) s1 in
         let finished :=
           if profitable st s then set_clock (S (clock s)) (uuids s) s1
           else dropped in
         if strict_eq_num (get "legIndex" p) 0 then
           if gt_num (match get "filledSize" p with
                      | Undefined => Num 0
                      | v => v
                      end) 0
           then if truthy (nth 1 (legs st0) Undefined)
                then exec (sendOrder c (Num 1) (nth 1 (legs st0) Undefined)
                             "IOC") s1
                else finished
           else dropped
         else finished
     end).
Proof.
  intros p c. unfold onFill, try_catch, bind, JSON_parse, ret, gets, modify,
    ackedFill, exec, profitable, recorded.
  fold p. fold c.
  destruct (Map_get c (inflight s)) as [st0|]; [|reflexivity].
  cbn [legs opp fills].
  destruct (strict_eq_num (get "legIndex" p) 0).
  - destruct (gt_num _ 0); [|reflexivity].
    destruct (truthy (nth 1 (legs st0) Undefined)).
    + rewrite sendOrder_outcome. cbn [AUTO_TRADE set_inflight].
      destruct (AUTO_TRADE s); reflexivity.
    + rewrite emitTrade_outcome. cbn [AUTO_TRADE set_inflight].
      destruct (AUTO_TRADE s && _); reflexivity.
  - rewrite emitTrade_outcome. cbn [AUTO_TRADE set_inflight].
    destruct (AUTO_TRADE s && _); reflexivity.
Qed.


(** X6: A fill of leg 0 with a positive filled size, for an inflight
    opportunity that has a second leg: the fill is recorded in the entry,
    which stays in the table, and, trading being on, the order of leg 1 is
    appended to orders.new with the opportunity's correlation id. Nothing is
    written to arb.trades. *)
Theorem onFill_sends_second_leg (s : state) (id : nat) (fill : value)
  (st0 : entry) :
  let p := or_else (get "payload" fill) (Obj []) in
  let c := get "corrId" p in
  get "legIndex" p = Num 0 ->
  gt_num (get "filledSize" p) 0 = true ->
  Map_get c (inflight s) = Some st0 ->
  truthy (nth 1 (legs st0) Undefined) = true ->
  sameValueZero c c = true ->
  AUTO_TRADE s = true ->
  let s' := exec (onFill MIN_REALIZED_PNL (id, Some fill)) s in
  Redis.streams (redis s') "orders.new"
  = Redis.streams (redis s) "orders.new"
    ++ [Some (wire (orderMsg (uuidv4 (uuids s)) (Date_now (clock s)) c
                      (Num 1) (nth 1 (legs st0) Undefined) "IOC"))] /\
  Map_get c (inflight s') = Some (recorded st0 fill) /\
  legCounter s' = S (legCounter s) /\
  Redis.streams (redis s') "arb.trades" = Redis.streams (redis s) "arb.trades" /\
  ~ In id (Redis.pending (redis s') "orders.fills" "executor").
Proof.
  intros p c Hl Hf Hg Hleg Hk Ha s'. subst s'.
  unfold exec at 1 2 3 4 5. rewrite executor_onFill_outcome. fold p. fold c.
  rewrite Hg, Hl. cbn [snd strict_eq_num].
  change (PrimFloat.eqb 0 0) with true. cbv iota zeta.
  assert (Hf' : gt_num match get "filledSize" p with
                       | Undefined => Num 0
                       | v => v
                       end 0 = true).
  { destruct (get "filledSize" p); exact Hf. }
  rewrite Hf', Hleg. unfold exec at 1 2 3 4 5. rewrite sendOrder_outcome.
  cbn [AUTO_TRADE set_inflight]. rewrite Ha.
  cbn [snd ackedFill exec xack modify redis set_redis set_counters set_clock
         set_inflight Redis.xack Redis.xadd Redis.streams Redis.pending
         inflight legCounter].
  unfold Redis.upd. rewrite !String.eqb_refl. cbn [String.eqb Ascii.eqb Bool.eqb].
  repeat split.
  - now apply Map_get_set.
  - apply filter_not_In.
Qed.

(** X7: The fill that completes an opportunity (a fill of a later leg, or a
    positive fill of leg 0 when there is no second leg) goes through
    [emitTrade] and then drops the entry. As [emitTrade] throws on every
    trade it would emit, the entry is dropped exactly when no trade is due:
    for a PnL above the floor with trading on, the entry stays in the table,
    with the fill recorded. In both cases no stream is written, nothing is
    persisted, and the fill is acknowledged. *)
Theorem onFill_completion (s : state) (id : nat) (fill : value) (st0 : entry) :
  let p := or_else (get "payload" fill) (Obj []) in
  let c := get "corrId" p in
  Map_get c (inflight s) = Some st0 ->
  sameValueZero c c = true ->
  strict_eq_num (get "legIndex" p) 0 = false \/
  (get "legIndex" p = Num 0 /\ gt_num (get "filledSize" p) 0 = true /\
   truthy (nth 1 (legs st0) Undefined) = false) ->
  let s' := exec (onFill MIN_REALIZED_PNL (id, Some fill)) s in
  fst (onFill MIN_REALIZED_PNL (id, Some fill) s) = Normal tt /\
  Map_get c (inflight s')
  = (if profitable (recorded st0 fill) s then Some (recorded st0 fill)
     else None) /\
  Redis.streams (redis s') = Redis.streams (redis s) /\
  trades_collection s' = trades_collection s /\
  tradeCounter s' = tradeCounter s /\
  ~ In id (Redis.pending (redis s') "orders.fills" "executor").
Proof.
  intros p c Hg Hk Hlast s'. subst s'.
  unfold exec at 1 2 3 4 5. rewrite executor_onFill_outcome. fold p. fold c.
  rewrite Hg. cbn [fst snd]. cbv zeta.
  assert (Hf' : gt_num (get "filledSize" p) 0 = true ->
                gt_num match get "filledSize" p with
                       | Undefined => Num 0
                       | v => v
                       end 0 = true).
  { intro Hf. destruct (get "filledSize" p); exact Hf. }
  destruct Hlast as [H|(Hl & Hf & Hleg)];
    [rewrite H
    |rewrite Hl, (Hf' Hf), Hleg; cbn [strict_eq_num];
     change (PrimFloat.eqb 0 0) with true; cbv iota];
    (destruct (profitable (recorded st0 fill) s);
     cbn [ackedFill exec xack modify snd redis set_redis set_clock set_inflight
            inflight trades_collection tradeCounter Redis.xack Redis.streams
            Redis.pending];
     unfold Redis.upd; rewrite !String.eqb_refl;
     (split; [reflexivity|]);
     (split; [first [now apply Map_get_set | apply Map_get_delete]
             |repeat split; apply filter_not_In])).
Qed.

End ExecutorOrders.

Section ExecutorToggles.
Context {rt : Runtime}.
Import Executor.

(** The default of [parseBool] only serves for a value that is neither a
    boolean nor a string. *)
Lemma parseBool_text (a : string) (d d' : bool) :
  parseBool (Str a) d = parseBool (Str a) d'.
Proof. reflexivity. Qed.

Ltac toggle_cases :=
  repeat (cbn [Bool.eqb negb andb orb redis AUTO_TRADE MODE inflight
                 set_AUTO_TRADE set_MODE set_inflight set_redis] in *;
          match goal with
          | |- context [match Redis.text ?r ?k with _ => _ end] =>
              destruct (Redis.text r k) eqn:?
          | |- context [if ?b then _ else _] => destruct b eqn:?
          end).

(** What a refresh leaves in the variables: the value of the key, when
    there is one (and, for the mode, when it is live or paper). *)
Lemma refreshToggles_reads (s : state) :
  redis (refreshToggles s) = redis s /\
  AUTO_TRADE (refreshToggles s)
  = match Redis.text (redis s) "toggles:autoTrade" with
    | Some a => parseBool (Str a) false
    | None => AUTO_TRADE s
    end /\
  MODE (refreshToggles s)
  = match Redis.text (redis s) "toggles:mode" with
    | Some m => if String.eqb m "live" || String.eqb m "paper" then m
                else MODE s
    | None => MODE s
    end.
Proof.
  unfold refreshToggles.
  destruct (Redis.text (redis s) "toggles:autoTrade") as [a|];
    destruct (Redis.text (redis s) "toggles:mode") as [m|].
  all: try change (parseBool (Str a) (AUTO_TRADE s))
         with (parseBool (Str a) false).
  all: toggle_cases; repeat split; try reflexivity.
  all: repeat match goal with
              | H : negb _ = false |- _ => apply negb_false_iff in H
              | H : Bool.eqb _ _ = true |- _ => apply Bool.eqb_prop in H
              | H : String.eqb _ _ = true |- _ => apply String.eqb_eq in H
              end; try congruence.
Qed.

(** A refresh that finds the variables equal to the keys changes nothing. *)
Lemma refreshToggles_fixed (s : state) :
  (forall a, Redis.text (redis s) "toggles:autoTrade" = Some a ->
             parseBool (Str a) false = AUTO_TRADE s) ->
  (forall m, Redis.text (redis s) "toggles:mode" = Some m ->
             String.eqb m "live" || String.eqb m "paper" = true ->
             m = MODE s) ->
  refreshToggles s = s.
Proof.
  intros Ha Hm. unfold refreshToggles.
  destruct (Redis.text (redis s) "toggles:autoTrade") as [a|].
  - change (parseBool (Str a) (AUTO_TRADE s)) with (parseBool (Str a) false).
    rewrite (Ha a eq_refl), Bool.eqb_reflx. cbn [negb].
    destruct (Redis.text (redis s) "toggles:mode") as [m|]; [|reflexivity].
    destruct (String.eqb m "live" || String.eqb m "paper") eqn:V;
      [|reflexivity].
    rewrite <- (Hm m eq_refl V), String.eqb_refl. reflexivity.
  - destruct (Redis.text (redis s) "toggles:mode") as [m|]; [|reflexivity].
    destruct (String.eqb m "live" || String.eqb m "paper") eqn:V;
      [|reflexivity].
    rewrite <- (Hm m eq_refl V), String.eqb_refl. reflexivity.
Qed.

(** X8: [refreshToggles] is idempotent: a second refresh, with the keys of
    Redis unchanged, changes no variable of the executor. *)
Theorem refreshToggles_idempotent (s : state) :
  refreshToggles (refreshToggles s) = refreshToggles s.
Proof.
  destruct (refreshToggles_reads s) as (Hr & Ha & Hm).
  apply refreshToggles_fixed; rewrite Hr.
  - intros a E. now rewrite Ha, E.
  - intros m E V. now rewrite Hm, E, V.
Qed.


Lemma refreshToggles_inflight (s : state) :
  inflight (refreshToggles s)
  = if AUTO_TRADE s && negb (AUTO_TRADE (refreshToggles s)) then []
    else inflight s.
Proof.
  unfold refreshToggles.
  destruct (Redis.text (redis s) "toggles:autoTrade") as [a|];
    destruct (Redis.text (redis s) "toggles:mode") as [m|].
  all: try change (parseBool (Str a) (AUTO_TRADE s))
         with (parseBool (Str a) false).
  all: toggle_cases; try reflexivity.
  all: repeat match goal with
              | H : negb _ = false |- _ => apply negb_false_iff in H
              | H : negb _ = true |- _ => apply negb_true_iff in H
              | H : Bool.eqb _ _ = true |- _ => apply Bool.eqb_prop in H
              | H : andb _ _ = true |- _ => apply andb_true_iff in H as [? ?]
              | H : andb _ _ = false |- _ => apply andb_false_iff in H as [?|?]
              end; try congruence.
Qed.

(** X9: [refreshToggles] clears the inflight table exactly on a falling edge
    of autoTrade (on before, off after), and otherwise leaves the table as
    it is; it changes no other variable than AUTO_TRADE, MODE and the
    table, and writes nothing to Redis. *)
Theorem refreshToggles_clears_on_falling_edge (s : state) :
  inflight (refreshToggles s)
  = (if AUTO_TRADE s && negb (AUTO_TRADE (refreshToggles s)) then []
     else inflight s) /\
  redis (refreshToggles s) = redis s /\
  trades_collection (refreshToggles s) = trades_collection s /\
  (execCounter (refreshToggles s), legCounter (refreshToggles s),
   tradeCounter (refreshToggles s))
  = (execCounter s, legCounter s, tradeCounter s).
Proof.
  split; [apply refreshToggles_inflight|].
  unfold refreshToggles.
  destruct (Redis.text (redis s) "toggles:autoTrade") as [a|];
    destruct (Redis.text (redis s) "toggles:mode") as [m|].
  all: toggle_cases; repeat split; reflexivity.
Qed.

(** X10: POST /toggles and the refresh agree. When the body gives autoTrade, the
    handler stores its canonical text (true or false) in Redis and sets the
    variable, and the next refresh reads the same value back: it changes
    neither autoTrade nor the inflight table, which the handler itself never
    touches. When the body gives the mode live or paper, the handler stores
    and sets it, and the refresh keeps it. *)
Theorem postToggles_round_trip (body : value) (s : state) :
  let b := or_else body (Obj []) in
  let s1 := postToggles body s in
  inflight s1 = inflight s /\
  (get "autoTrade" b <> Undefined ->
   Redis.text (redis s1) "toggles:autoTrade"
   = Some (if truthy (get "autoTrade" b) then "true" else "false") /\
   AUTO_TRADE s1 = truthy (get "autoTrade" b) /\
   AUTO_TRADE (refreshToggles s1) = AUTO_TRADE s1 /\
   inflight (refreshToggles s1) = inflight s) /\
  (get "autoTrade" b = Undefined ->
   AUTO_TRADE s1 = AUTO_TRADE s /\
   Redis.text (redis s1) "toggles:autoTrade"
   = Redis.text (redis s) "toggles:autoTrade") /\
  (forall m,
     get "mode" b = Str m -> m = "live" \/ m = "paper" ->
     Redis.text (redis s1) "toggles:mode" = Some m /\
     MODE s1 = m /\ MODE (refreshToggles s1) = m).
Proof.
  intros b s1.
  assert (Hi : inflight s1 = inflight s).
  { unfold s1, postToggles. fold b.
    destruct (get "autoTrade" b);
      destruct (truthy (get "mode" b)
                && (strict_eq_str (get "mode" b) "live"
                    || strict_eq_str (get "mode" b) "paper")); reflexivity. }
  assert (Ht : get "autoTrade" b <> Undefined ->
               Redis.text (redis s1) "toggles:autoTrade"
               = Some (if truthy (get "autoTrade" b) then "true" else "false")
               /\ AUTO_TRADE s1 = truthy (get "autoTrade" b)).
  { intro Hd. unfold s1, postToggles. fold b.
    destruct (get "autoTrade" b) eqn:E; try congruence;
      destruct (truthy (get "mode" b)
                && (strict_eq_str (get "mode" b) "live"
                    || strict_eq_str (get "mode" b) "paper"));
      split; reflexivity. }
  split; [exact Hi|]. split; [|split].
  - intro Hd. destruct (Ht Hd) as [Hk Ha]. split; [exact Hk|].
    split; [exact Ha|].
    destruct (refreshToggles_reads s1) as (_ & Hr & _).
    assert (Hsame : AUTO_TRADE (refreshToggles s1) = AUTO_TRADE s1).
    { rewrite Hr, Hk, Ha. now destruct (truthy (get "autoTrade" b)). }
    split; [exact Hsame|].
    rewrite refreshToggles_inflight, Hsame, Hi.
    now destruct (AUTO_TRADE s1).
  - intro Hu. unfold s1, postToggles. fold b. rewrite Hu.
    destruct (truthy (get "mode" b)
              && (strict_eq_str (get "mode" b) "live"
                  || strict_eq_str (get "mode" b) "paper"));
      split; reflexivity.
  - intros m Hm Hv.
    assert (Hs : Redis.text (redis s1) "toggles:mode" = Some m /\ MODE s1 = m).
    { unfold s1, postToggles. fold b. rewrite Hm.
      destruct Hv as [-> | ->]; cbn [truthy strict_eq_str String.eqb Ascii.eqb
                                        Bool.eqb negb andb orb ToString];
        destruct (get "autoTrade" b); split; reflexivity. }
    destruct Hs as [Hk Hmode]. split; [exact Hk|]. split; [exact Hmode|].
    destruct (refreshToggles_reads s1) as (_ & _ & Hr).
    rewrite Hr, Hk.
    destruct Hv as [-> | ->]; reflexivity.
Qed.

End ExecutorToggles.

(** ** Order simulator: the loop *)

Section SimulatorRun.
Context {rt : Runtime}.
Import Simulator.

Definition newOrders (s : state) : list nat :=
  Redis.pending (redis s) "orders.new" GROUP.

Definition fillsStream (s : state) : list (option value) :=
  Redis.streams (redis s) "orders.fills".

Lemma onOrder_outcome (id : nat) (d : option value) (s : state) :
  onOrder (id, d) s =
  (Normal tt,
   exec (xack id)
     match d with
     | Some ord => if truthy ord then exec (emitFillFromOrder ord) s
                   else exec (xack id) s
     | None => exec (xack id) s
     end).
Proof.
  unfold onOrder, try_finally, try_catch.
  destruct d as [ord|]; [destruct (truthy ord)|]; reflexivity.
Qed.

Lemma xack_newOrders (id : nat) (s : state) :
  newOrders (exec (xack id) s) = without [id] (newOrders s).
Proof. apply xack_pending. Qed.

Lemma onOrder_handles (id : nat) (d : option value) :
  handles newOrders id (onOrder (id, d)).
Proof.
  intro s. rewrite onOrder_outcome. split; [reflexivity|].
  cbn [snd]. rewrite xack_newOrders.
  destruct d as [ord|]; [destruct (truthy ord)|];
    rewrite ?xack_newOrders, ?without_twice; reflexivity.
Qed.

(** The fills the loop writes for a batch of messages, the clock reading
    [k] at its start: one for each order that parses to a truthy value, in
    the order of the messages. *)
Fixpoint fillsFor (msgs : list Redis.message) (k : nat) : list (option value) :=
  match msgs with
  | [] => []
  | (_, Some ord) :: r =>
      if truthy ord
      then Some (wire (fillOf ord (Date_now k))) :: fillsFor r (S k)
      else fillsFor r k
  | (_, None) :: r => fillsFor r k
  end.

Lemma for_of_cons S A (x : A) (r : list A) (body : A -> M S unit) (s : S) :
  fst (body x s) = Normal tt ->
  exec (for_of (x :: r) body) s = exec (for_of r body) (exec (body x) s).
Proof.
  intros H. unfold exec. cbn [for_of]. unfold bind.
  destruct (body x s) as [c s1]. cbn [fst snd] in *. now subst c.
Qed.

Lemma onOrder_step (id : nat) (d : option value) (s : state) :
  let s1 := exec (onOrder (id, d)) s in
  fillsStream s1 = fillsStream s ++ fillsFor [(id, d)] (clock s) /\
  fillsCounter s1 = fillsCounter s + List.length (fillsFor [(id, d)] (clock s)) /\
  clock s1 = clock s + List.length (fillsFor [(id, d)] (clock s)) /\
  (forall st, st <> "orders.fills" ->
     Redis.streams (redis s1) st = Redis.streams (redis s) st).
Proof.
  cbn zeta. unfold exec at 1 2 3 4. rewrite onOrder_outcome. cbn [snd fillsFor].
  destruct d as [ord|]; [destruct (truthy ord)|].
  - unfold fillsStream. cbn. unfold Redis.upd. cbn.
    split; [reflexivity|]. split; [lia|]. split; [lia|].
    intros st Hst. destruct (String.eqb_spec st "orders.fills"); congruence.
  - cbn. rewrite app_nil_r, !Nat.add_0_r. auto.
  - cbn. rewrite app_nil_r, !Nat.add_0_r. auto.
Qed.

Lemma fillsFor_cons (m : Redis.message) (r : list Redis.message) (k : nat) :
  fillsFor (m :: r) k
  = fillsFor [m] k ++ fillsFor r (k + List.length (fillsFor [m] k)).
Proof.
  destruct m as [id [ord|]]; cbn [fillsFor]; [destruct (truthy ord)|].
  - cbn. now rewrite Nat.add_1_r.
  - cbn. now rewrite Nat.add_0_r.
  - cbn. now rewrite Nat.add_0_r.
Qed.

Lemma for_of_onOrder (msgs : list Redis.message) (s : state) :
  let s' := exec (for_of msgs onOrder) s in
  fillsStream s' = fillsStream s ++ fillsFor msgs (clock s) /\
  fillsCounter s' = fillsCounter s + List.length (fillsFor msgs (clock s)) /\
  (forall st, st <> "orders.fills" ->
     Redis.streams (redis s') st = Redis.streams (redis s) st).
Proof.
  revert s. induction msgs as [|[id d] r IH]; intros s; cbn zeta.
  - cbn. rewrite app_nil_r, Nat.add_0_r. auto.
  - rewrite for_of_cons by (rewrite onOrder_outcome; reflexivity).
    destruct (onOrder_step id d s) as (S1 & S2 & S3 & S4).
    destruct (IH (exec (onOrder (id, d)) s)) as (I1 & I2 & I3).
    rewrite I1, I2, S1, S2, S3, (fillsFor_cons (id, d) r (clock s)).
    rewrite length_app, <- app_assoc.
    split; [reflexivity|]. split; [symmetry; apply Nat.add_assoc|].
    intros st Hst. now rewrite (I3 st Hst), (S4 st Hst).
Qed.

(** X11: One pass of the simulator's loop returns without an exception and
    acknowledges every order it read, parseable or not: nothing is pending
    for the group on orders.new that was not pending before. It appends to
    orders.fills exactly one fill for each message that parses to a truthy
    value, in the order of the messages, counts each one, and writes no
    other stream. *)
Theorem run_once_fills_every_order (s : state) :
  let msgs := fst (Redis.xreadgroup GROUP 50 "orders.new" (redis s)) in
  let s' := exec run_once s in
  fst (run_once s) = Normal tt /\
  (forall i, In i (newOrders s') -> In i (newOrders s)) /\
  (forall i, In i (map fst msgs) -> ~ In i (newOrders s')) /\
  fillsStream s' = fillsStream s ++ fillsFor msgs (clock s) /\
  fillsCounter s' = fillsCounter s + List.length (fillsFor msgs (clock s)) /\
  (forall st, st <> "orders.fills" ->
     Redis.streams (redis s') st = Redis.streams (redis s) st).
Proof.
  intros msgs s'. subst msgs s'. unfold exec, run_once.
  pose proof (xreadgroup_pending GROUP 50 "orders.new" (redis s)) as Hp.
  destruct (Redis.xreadgroup GROUP 50 "orders.new" (redis s)) as [msgs r] eqn:E.
  cbn [fst snd] in *.
  destruct (for_of_handles (pend := newOrders) onOrder onOrder_handles msgs
              (set_redis r s)) as [Hn Hq].
  destruct (for_of_onOrder msgs (set_redis r s)) as (F1 & F2 & F3).
  unfold exec in F1, F2, F3.
  assert (Hs : Redis.streams r = Redis.streams (redis s)).
  { change r with (snd (msgs, r)). rewrite <- E. reflexivity. }
  split; [exact Hn|]. rewrite Hq.
  change (newOrders (set_redis r s)) with (Redis.pending r "orders.new" GROUP).
  rewrite Hp. split; [apply without_read|]. split; [apply without_read|].
  split; [|split].
  - rewrite F1. unfold fillsStream. cbn [redis set_redis clock]. now rewrite Hs.
  - rewrite F2. reflexivity.
  - intros st Hst. rewrite (F3 st Hst). cbn [redis set_redis]. now rewrite Hs.
Qed.

End SimulatorRun.

(** ** From an order to its fill *)

Ltac keys_distinct :=
  cbn [map fst]; repeat constructor; cbn [In]; intuition discriminate.

Section OrderToFill.
Context {rt : Runtime}.

Lemma wire_defined (v : value) : v <> Undefined -> wire v <> Undefined.
Proof.
  destruct v; cbn [wire]; try congruence.
  destruct (PrimFloat.is_finite n); [destruct (PrimFloat.is_zero n)|];
    discriminate.
Qed.

Lemma wire_number (n : float) : wire (wire (Num n)) = wire (Num n).
Proof.
  cbn [wire].
  destruct (PrimFloat.is_finite n) eqn:F; [|reflexivity].
  destruct (PrimFloat.is_zero n) eqn:Z; [reflexivity|].
  cbn [wire]. now rewrite F, Z.
Qed.

(** A document that went through JSON goes through it again unchanged. *)
Lemma wire_wire : forall v : value, wire (wire v) = wire v.
Proof.
  fix IH 1. intros [| |b|n|s|xs|ps]; try reflexivity.
  - apply wire_number.
  - cbn [wire]. f_equal. rewrite map_map.
    revert xs. fix IHxs 1. intros [|x r]; [reflexivity|].
    cbn [map]. f_equal; [|apply IHxs].
    pose proof (IH x) as E.
    destruct x as [| |b'|n'|s'|ys|qs]; try reflexivity; try exact E.
    assert (D : wire (Num n') <> Undefined) by (apply wire_defined; discriminate).
    destruct (wire (Num n')); try congruence; exact E.
  - cbn [wire]. f_equal.
    revert ps. fix IHps 1. intros [|[k x] r]; [reflexivity|].
    cbn [flat_map]. pose proof (IH x) as E. specialize (IHps r).
    destruct x as [| |b'|n'|s'|ys|qs];
      try (cbn [app flat_map]; rewrite IHps; reflexivity).
    + cbn [app flat_map]; rewrite IHps.
      assert (D : wire (Num n') <> Undefined) by (apply wire_defined; discriminate).
      destruct (wire (Num n')); try congruence; cbn [app]; rewrite E; reflexivity.
    + cbn [app flat_map]; rewrite IHps.
      cbn [wire] in E |- *. cbn [app]. now rewrite E.
    + cbn [app flat_map]; rewrite IHps.
      cbn [wire] in E |- *. cbn [app]. now rewrite E.
Qed.

Lemma spread_NoDup (ps acc : list (string * value)) :
  NoDup (map fst acc) ->
  NoDup (map fst (fold_left (fun a kv => setProp (fst kv) (snd kv) a) ps acc)).
Proof.
  revert acc. induction ps as [|[k v] r IH]; intros acc Hd; cbn [fold_left];
    [exact Hd|].
  apply IH. now apply setProp_NoDup.
Qed.

(** The fill the simulator writes for an order, as a consumer of
    orders.fills parses it. *)
Lemma fillOf_wired (ord : value) (ts : float) :
  let fill := wire (Simulator.fillOf ord ts) in
  let p := get "payload" fill in
  let q := get "payload" ord in
  get "id" fill = wire (get "id" ord) /\
  get "type" fill = Str "order.fill" /\
  get "ts" fill = wire (Num ts) /\
  (forall k, In k ["corrId"; "legIndex"; "exchange"; "instrumentId"; "side";
                   "mode"] ->
     get k p = wire (get k q)) /\
  get "px" p = wire (get "estPx" q) /\
  get "requestedSize" p = wire (Num (Simulator.fillSize ord)) /\
  get "filledSize" p = wire (Num (Simulator.fillSize ord)) /\
  get "estPx" p = Undefined /\ get "size" p = Undefined /\
  get "tif" p = Undefined.
Proof.
  cbn zeta. unfold Simulator.fillOf.
  cbn [object fold_left fst snd setProp String.eqb Ascii.eqb Bool.eqb].
  rewrite !get_wire by keys_distinct.
  cbn [lookup String.eqb Ascii.eqb Bool.eqb].
  split; [reflexivity|]. split; [reflexivity|]. split; [reflexivity|].
  rewrite !get_wire by keys_distinct.
  cbn [lookup String.eqb Ascii.eqb Bool.eqb].
  split; [|repeat split; reflexivity].
  intros k Hk. cbn [In] in Hk.
  repeat (destruct Hk as [<-|Hk];
          [rewrite get_wire by keys_distinct; reflexivity|]).
  contradiction.
Qed.

(** X12: From the executor to the simulator and back. The fill the simulator
    answers to the order that [sendOrder] wrote for a leg carries, once
    parsed, the order's id, and in its payload the leg's exchange,
    instrumentId and side and its estPx as px. If the leg has no property
    called corrId or legIndex, the fill's corrId and legIndex are those of
    the call of [sendOrder], as JSON writes them: the fill finds the
    inflight entry of its opportunity again. *)
Theorem fill_of_sent_order (c i : value) (ps : list (string * value))
  (tif oid : string) (ts ts' : float) :
  NoDup (map fst ps) ->
  let order := wire (orderMsg oid ts c i (Obj ps) tif) in
  let fill := wire (Simulator.fillOf order ts') in
  let p := get "payload" fill in
  get "id" fill = Str oid /\
  (forall k, In k ["exchange"; "instrumentId"; "side"; "mode"] ->
     get k p = wire (lookup k ps)) /\
  get "px" p = wire (lookup "estPx" ps) /\
  (~ In "corrId" (map fst ps) -> get "corrId" p = wire c) /\
  (~ In "legIndex" (map fst ps) -> get "legIndex" p = wire i).
Proof.
  intros Hd order fill p.
  destruct (fillOf_wired order ts') as (Hid & _ & _ & Hk & Hpx & _).
  fold fill in Hid. fold fill p in Hk, Hpx.
  assert (Hq : forall k,
             get k (get "payload" order)
             = wire (if existsb (String.eqb k) (map fst ps) then lookup k ps
                     else lookup k [("corrId", c); ("legIndex", i);
                                    ("tif", Str tif)])).
  { intro k. unfold order, orderMsg. rewrite get_wire by keys_distinct.
    cbn [lookup String.eqb Ascii.eqb Bool.eqb]. unfold orderPayload, spread.
    cbn [ownProps]. rewrite get_wire.
    - now rewrite lookup_fold_setProp.
    - apply spread_NoDup. keys_distinct. }
  assert (Hleg : forall k, k <> "corrId" -> k <> "legIndex" -> k <> "tif" ->
                 get k (get "payload" order) = wire (lookup k ps)).
  { intros k H1 H2 H3. rewrite Hq.
    destruct (existsb (String.eqb k) (map fst ps)) eqn:E; [reflexivity|].
    cbn [lookup].
    destruct (String.eqb_spec "corrId" k); [congruence|].
    destruct (String.eqb_spec "legIndex" k); [congruence|].
    destruct (String.eqb_spec "tif" k); [congruence|].
    rewrite lookup_absent; [reflexivity|].
    intro Hin. assert (existsb (String.eqb k) (map fst ps) = true);
      [|congruence].
    apply existsb_exists. exists k. split; [exact Hin|apply String.eqb_refl]. }
  assert (Hnot : forall k, ~ In k (map fst ps) ->
                 existsb (String.eqb k) (map fst ps) = false).
  { intros k Hn. destruct (existsb (String.eqb k) (map fst ps)) eqn:E;
      [|reflexivity].
    apply existsb_exists in E as (x & Hx & Ex). apply String.eqb_eq in Ex.
    now subst x. }
  split; [|split; [|split; [|split]]].
  - rewrite Hid. unfold order, orderMsg. rewrite get_wire by keys_distinct.
    reflexivity.
  - intros k Hin. rewrite (Hk k) by (cbn [In] in *; tauto).
    rewrite Hleg, wire_wire; [reflexivity|..];
      cbn [In] in Hin; intuition (subst; discriminate).
  - rewrite Hpx, Hleg, wire_wire; [reflexivity|..]; discriminate.
  - intro Hn. rewrite (Hk "corrId") by (cbn [In]; tauto).
    rewrite Hq, (Hnot _ Hn), wire_wire. reflexivity.
  - intro Hn. rewrite (Hk "legIndex") by (cbn [In]; tauto).
    rewrite Hq, (Hnot _ Hn), wire_wire. reflexivity.
Qed.

End OrderToFill.

(** ** Trade assembler: the join buffer and the loop *)

Lemma Map_delete_set A (k : value) (a x : A) (m : list (value * A)) :
  Map_get k m = Some x -> Map_delete k (Map_set k a m) = Map_delete k m.
Proof.
  induction m as [|[k' a'] r IH]; cbn [Map_get Map_set]; [discriminate|].
  destruct (sameValueZero k' k) eqn:E; intros H.
  - unfold Map_delete. cbn [filter fst]. now rewrite E.
  - unfold Map_delete in *. cbn [filter fst]. rewrite E. cbn [negb].
    now rewrite IH.
Qed.

Lemma Map_get_In A (k : value) (x : A) (m : list (value * A)) :
  Map_get k m = Some x -> exists k', In (k', x) m.
Proof.
  induction m as [|[k' a'] r IH]; cbn [Map_get]; [discriminate|].
  destruct (sameValueZero k' k); intros H.
  - injection H as <-. exists k'. now left.
  - destruct (IH H) as [k0 H0]. exists k0. now right.
Qed.

Lemma Map_set_Forall A (P : A -> Prop) (k : value) (a : A)
  (m : list (value * A)) :
  P a -> Forall (fun ka => P (snd ka)) m ->
  Forall (fun ka => P (snd ka)) (Map_set k a m).
Proof.
  intros Ha. induction 1 as [|[k' a'] r Hx Hr IH]; cbn [Map_set].
  - repeat constructor. exact Ha.
  - destruct (sameValueZero k' k); constructor; auto.
Qed.

Lemma Map_delete_Forall A (P : value * A -> Prop) (k : value)
  (m : list (value * A)) :
  Forall P m -> Forall P (Map_delete k m).
Proof.
  unfold Map_delete. induction 1 as [|x r Hx Hr IH]; cbn [filter];
    [constructor|].
  destruct (negb _); [constructor|]; assumption.
Qed.

Section AssemblerRun.
Context {rt : Runtime}.
Import Assembler.

Definition fillsPending (s : state) : list nat :=
  Redis.pending (redis s) "orders.fills" GROUP.

(** Every record of the join buffer holds exactly one fill. *)
Definition single (s : state) : Prop :=
  Forall (fun kr => List.length (legs (snd kr)) = 1) (pending s).

Lemma upsertFill_frame (f : value) (s : state) :
  redis (snd (upsertFill f s)) = redis s /\
  trades_collection (snd (upsertFill f s)) = trades_collection s /\
  tradesBuilt (snd (upsertFill f s)) = tradesBuilt s.
Proof.
  unfold upsertFill, bind, gets, now, ret, modify.
  destruct (negb (truthy (get "corrId" (get "payload" f)))); [auto|].
  destruct (Map_get _ (pending s)); cbn [fst snd];
    match goal with
    | |- context [Nat.leb 2 ?n] => destruct (Nat.leb 2 n)
    end; auto.
Qed.

(** [upsertFill] answers a record only for a fill whose corrId had a record
    pending, and keeps the buffer's records at one fill each. *)
Lemma upsertFill_single (f : value) (s : state) :
  single s ->
  single (snd (upsertFill f s)) /\
  (forall r, fst (upsertFill f s) = Normal (Some r) ->
     truthy (corrOf f) = true /\
     exists r0, Map_get (corrOf f) (pending s) = Some r0 /\ r = joined r0 f) /\
  (forall e, fst (upsertFill f s) <> Throw e).
Proof.
  intros Hs. unfold upsertFill, bind, gets, now, ret, modify, corrOf.
  destruct (truthy (get "corrId" (get "payload" f))) eqn:T; cbn [negb].
  2: { split; [exact Hs|]. split; [discriminate|discriminate]. }
  destruct (Map_get _ (pending s)) as [r0|] eqn:G; cbn [fst snd legs].
  - assert (L : List.length (legs r0) = 1).
    { destruct (Map_get_In _ _ G) as [k0 Hin].
      unfold single in Hs. rewrite Forall_forall in Hs. exact (Hs _ Hin). }
    rewrite length_app, L. cbn [List.length Nat.add Nat.leb fst snd pending
                                  set_pending].
    split; [|split; [|discriminate]].
    + unfold single. cbn [pending set_pending].
      rewrite (@Map_delete_set _ _ _ r0 _ G). now apply Map_delete_Forall.
    + intros r E. injection E as <-. split; [reflexivity|].
      exists r0. split; reflexivity.
  - cbn [List.length app Nat.leb fst snd pending set_pending].
    split; [|split; discriminate].
    unfold single. cbn [pending set_pending].
    apply (Map_set_Forall (fun r => List.length (legs r) = 1));
      [reflexivity|exact Hs].
Qed.

Definition tradesStream (s : state) : list (option value) :=
  Redis.streams (redis s) "arb.trades".

(** What the assembler adds from [s] to [s']: the entries [l] of arb.trades
    and as many documents of the collection, counted in the metric. *)
Definition adds (l : list (option value)) (s s' : state) : Prop :=
  tradesStream s' = tradesStream s ++ l /\
  (exists docs, trades_collection s' = trades_collection s ++ docs /\
                List.length docs = List.length l) /\
  tradesBuilt s' = tradesBuilt s + List.length l /\
  (forall st, st <> "arb.trades" ->
     Redis.streams (redis s') st = Redis.streams (redis s) st).

Lemma adds_nil (s s' : state) :
  Redis.streams (redis s') = Redis.streams (redis s) ->
  trades_collection s' = trades_collection s ->
  tradesBuilt s' = tradesBuilt s -> adds [] s s'.
Proof.
  intros Hr Hc Hb. unfold adds, tradesStream. rewrite Hr, Hc, Hb, app_nil_r.
  split; [reflexivity|]. split; [exists []; now rewrite app_nil_r|].
  split; [apply plus_n_O|reflexivity].
Qed.

Lemma adds_trans (l1 l2 : list (option value)) (s s1 s2 : state) :
  adds l1 s s1 -> adds l2 s1 s2 -> adds (l1 ++ l2) s s2.
Proof.
  intros (A1 & (d1 & C1 & L1) & B1 & O1) (A2 & (d2 & C2 & L2) & B2 & O2).
  unfold adds. rewrite A2, A1, C2, C1, B2, B1, !length_app, <- !app_assoc.
  split; [reflexivity|]. split.
  - exists (d1 ++ d2). split; [reflexivity|]. rewrite !length_app. congruence.
  - split; [symmetry; apply Nat.add_assoc|].
    intros st Hst. now rewrite (O2 st Hst), (O1 st Hst).
Qed.

Lemma asm_onFill_step (id : nat) (d : option value) (s : state) :
  fst (onFill (id, d) s) = Normal tt /\
  fillsPending (exec (onFill (id, d)) s) = without [id] (fillsPending s) /\
  ((exists f, d = Some f /\
              pending (exec (onFill (id, d)) s)
              = pending (snd (upsertFill f s)))
   \/ (d = None /\ pending (exec (onFill (id, d)) s) = pending s)) /\
  exists l, List.length l <= 1 /\ adds l s (exec (onFill (id, d)) s) /\
            (l <> [] -> exists f r, d = Some f /\
                          fst (upsertFill f s) = Normal (Some r)).
Proof.
  unfold exec. destruct d as [f|].
  - rewrite onFill_outcome.
    destruct (upsertFill_frame f s) as (Hr & Hc & Hb).
    destruct (upsertFill f s) as [[[r|]|e] s1] eqn:U; cbn [fst snd] in *.
    + destruct (computeTradeFromFills r) as [trade|]; cbn [fst snd].
      * split; [reflexivity|]. split.
        { unfold fillsPending, acked. cbn [redis set_redis].
          rewrite xack_pending. cbn [Redis.xadd Redis.pending]. now rewrite Hr. }
        split; [left; exists f; split; [reflexivity|now rewrite U]|].
        eexists [_]. split; [apply Nat.le_refl|]. split.
        { unfold adds, tradesStream, acked.
          cbn [redis set_redis Redis.xack Redis.xadd Redis.streams
                 trades_collection tradesBuilt].
          unfold Redis.upd. rewrite String.eqb_refl, Hr, Hc, Hb.
          split; [reflexivity|]. split; [exists [trade]; split; reflexivity|].
          split; [now rewrite Nat.add_1_r|].
          intros st Hst. destruct (String.eqb_spec st "arb.trades"); congruence. }
        intros _. exists f, r. split; [reflexivity|now rewrite U].
      * split; [reflexivity|]. split.
        { unfold fillsPending, acked. cbn [redis set_redis].
          rewrite xack_pending. now rewrite Hr. }
        split; [left; exists f; split; [reflexivity|now rewrite U]|].
        exists []. split; [apply Nat.le_0_l|]. split; [|congruence].
        apply adds_nil; cbn; congruence.
    + split; [reflexivity|]. split.
      { unfold fillsPending, acked. cbn [redis set_redis].
        rewrite xack_pending. now rewrite Hr. }
      split; [left; exists f; split; [reflexivity|now rewrite U]|].
      exists []. split; [apply Nat.le_0_l|]. split; [|congruence].
      apply adds_nil; cbn; congruence.
    + split; [reflexivity|]. split.
      { unfold fillsPending, acked. cbn [redis set_redis].
        rewrite xack_pending. now rewrite Hr. }
      split; [left; exists f; split; [reflexivity|now rewrite U]|].
      exists []. split; [apply Nat.le_0_l|]. split; [|congruence].
      apply adds_nil; cbn; congruence.
  - split; [reflexivity|]. split.
    { unfold fillsPending. cbn. unfold Redis.upd. cbn.
      now rewrite without_one. }
    split; [right; split; reflexivity|].
    exists []. split; [apply Nat.le_0_l|]. split; [|congruence].
    apply adds_nil; reflexivity.
Qed.

Lemma asm_onFill_handles (id : nat) (d : option value) :
  handles fillsPending id (onFill (id, d)).
Proof.
  intro s. destruct (asm_onFill_step id d s) as (H1 & H2 & _). now split.
Qed.

Lemma asm_onFill_single (id : nat) (d : option value) (s : state) :
  single s -> single (exec (onFill (id, d)) s).
Proof.
  intros Hs. destruct (asm_onFill_step id d s) as (_ & _ & Hp & _).
  unfold single.
  destruct Hp as [(f & -> & ->)|(-> & ->)]; [|exact Hs].
  now apply upsertFill_single.
Qed.

(** X13: The join buffer of the assembler holds one fill per record: if every
    pending record holds exactly one fill, so it is after any message. A
    trade is assembled only from the second fill of a correlation id: a
    fill whose corrId is falsy, or has no record pending, publishes and
    persists nothing. *)
Theorem assembler_joins_pairs (id : nat) (d : option value) (s : state) :
  single s ->
  let s' := exec (onFill (id, d)) s in
  single s' /\
  ((forall f, d = Some f ->
      truthy (corrOf f) = false \/ Map_get (corrOf f) (pending s) = None) ->
   tradesStream s' = tradesStream s /\
   trades_collection s' = trades_collection s /\
   tradesBuilt s' = tradesBuilt s).
Proof.
  intros Hs s'. split; [now apply asm_onFill_single|].
  intros Hfirst.
  destruct (asm_onFill_step id d s) as (_ & _ & _ & l & _ & Ha & Hl).
  fold s' in Ha.
  assert (E : l = []).
  { destruct l as [|x l']; [reflexivity|].
    destruct Hl as (f & r & -> & U); [discriminate|].
    destruct (upsertFill_single f Hs) as (_ & Hr & _).
    destruct (Hr r U) as (Ht & r0 & Hg & _).
    destruct (Hfirst f eq_refl); congruence. }
  subst l. destruct Ha as (A & (docs & C & L) & B & _).
  destruct docs; [|discriminate].
  rewrite A, C, B, !app_nil_r. cbn. rewrite Nat.add_0_r. auto.
Qed.

Lemma asm_for_of (msgs : list Redis.message) (s : state) :
  exists l, List.length l <= List.length msgs /\
            adds l s (exec (for_of msgs onFill) s) /\
            (single s -> single (exec (for_of msgs onFill) s)).
Proof.
  revert s. induction msgs as [|[id d] r IH]; intros s.
  - exists []. split; [apply Nat.le_refl|]. split; [|auto].
    apply adds_nil; reflexivity.
  - destruct (asm_onFill_step id d s) as (Hn & _ & _ & l1 & L1 & A1 & _).
    rewrite for_of_cons by exact Hn.
    destruct (IH (exec (onFill (id, d)) s)) as (l2 & L2 & A2 & S2).
    exists (l1 ++ l2). split; [rewrite length_app; cbn [List.length]; lia|].
    split; [eapply adds_trans; eassumption|].
    intro Hs. apply S2. now apply asm_onFill_single.
Qed.

(** X14: One pass of the assembler's loop returns without an exception and
    acknowledges every fill it read, parseable or not. What it publishes it
    also persists and counts: arb.trades, the trades collection and the
    metric grow by the same number, at most the number of fills read, and no
    other stream is written. *)
Theorem assembler_run_once (s : state) :
  let msgs := fst (Redis.xreadgroup GROUP 50 "orders.fills" (redis s)) in
  let s' := exec run_once s in
  fst (run_once s) = Normal tt /\
  (forall i, In i (fillsPending s') -> In i (fillsPending s)) /\
  (forall i, In i (map fst msgs) -> ~ In i (fillsPending s')) /\
  (exists l docs,
     List.length l <= List.length msgs /\
     tradesStream s' = tradesStream s ++ l /\
     trades_collection s' = trades_collection s ++ docs /\
     List.length docs = List.length l /\
     tradesBuilt s' = tradesBuilt s + List.length l) /\
  (forall st, st <> "arb.trades" ->
     Redis.streams (redis s') st = Redis.streams (redis s) st) /\
  (single s -> single s').
Proof.
  intros msgs s'. subst msgs s'. unfold exec, run_once.
  pose proof (xreadgroup_pending GROUP 50 "orders.fills" (redis s)) as Hp.
  destruct (Redis.xreadgroup GROUP 50 "orders.fills" (redis s)) as [msgs r] eqn:E.
  cbn [fst snd] in *.
  destruct (for_of_handles (pend := fillsPending) onFill asm_onFill_handles msgs
              (set_redis r s)) as [Hn Hq].
  destruct (asm_for_of msgs (set_redis r s))
    as (l & Ll & (A & (docs & C & Ld) & B & O) & Sg).
  unfold exec in A, C, B, O, Sg.
  assert (Hs : Redis.streams r = Redis.streams (redis s)).
  { change r with (snd (msgs, r)). rewrite <- E. reflexivity. }
  split; [exact Hn|]. rewrite Hq.
  change (fillsPending (set_redis r s))
    with (Redis.pending r "orders.fills" GROUP).
  rewrite Hp. split; [apply without_read|]. split; [apply without_read|].
  split; [|split].
  - exists l, docs. split; [exact Ll|]. rewrite A, C, B.
    unfold tradesStream. cbn [redis set_redis trades_collection tradesBuilt].
    rewrite Hs. auto.
  - intros st Hst. rewrite (O st Hst). cbn [redis set_redis]. now rewrite Hs.
  - exact Sg.
Qed.

End AssemblerRun.

(** ** Risk engine: verdicts and the loop *)

Section RiskRun.
Context {rt : Runtime}.
Variable cfg : Risk.config.
Import Risk.

(** The legs [evaluateRisk] looks at: the truthy elements of [payload.legs]
    when it is an array. *)
Definition riskLegs (opp : value) : list value :=
  match get "legs" (or_else (get "payload" opp) (Obj [])) with
  | Arr xs => filter truthy xs
  | _ => []
  end.

Definition hasSide (which : string) (legs : list value) : bool :=
  existsb (fun l => String.eqb (toUpper (get "side" l)) which) legs.

Ltac verdict_cases :=
  unfold evaluateRisk;
  repeat match goal with
         | |- context [if ?b then reject _ else _] => destruct b eqn:?
         | |- context [if ?b then {| ok := false; reason := _; netBps := _;
                                     totalFeesLikeBps := _ |} else _] =>
             destruct b eqn:?
         end;
  cbn [ok reject reason netBps totalFeesLikeBps].

(** X15: [evaluateRisk] answers one of six reasons, and approves exactly when
    the reason is approved. A paper opportunity is rejected outright unless
    ALLOW_PAPER_ONLY is set. An approval means that every check passed: the
    opportunity is not a paper one or paper is allowed; with
    REQUIRE_BOTH_SIDES, its legs hold a BUY and a SELL; a positive total
    size is within the cap; and the net edge recorded in the verdict is not
    below NET_MIN_BPS. *)
Theorem evaluateRisk_verdict (opp : value) :
  let v := evaluateRisk cfg opp in
  let p := or_else (get "payload" opp) (Obj []) in
  let legs := riskLegs opp in
  let totalSize :=
    fold_left (fun a b => (a + safeNum (get "size" b) 0)%float) legs 0%float in
  In (reason v) ["paper_mode_not_allowed"; "missing_side"; "size_exceeds_cap";
                 "edge_below_threshold"; "net_below_threshold"; "approved"] /\
  (ok v = true <-> reason v = "approved") /\
  (ALLOW_PAPER_ONLY cfg = false -> truthy (get "paper" p) = true ->
   v = reject "paper_mode_not_allowed") /\
  (ok v = true ->
   (ALLOW_PAPER_ONLY cfg = true \/ truthy (get "paper" p) = false) /\
   (REQUIRE_BOTH_SIDES cfg = true ->
    hasSide "BUY" legs = true /\ hasSide "SELL" legs = true) /\
   PrimFloat.ltb 0 totalSize && PrimFloat.ltb (MAX_TOTAL_SIZE cfg) totalSize
   = false /\
   exists n t, netBps v = Num n /\ totalFeesLikeBps v = Num t /\
               PrimFloat.ltb n (NET_MIN_BPS cfg) = false).
Proof.
  intros v p legs totalSize. subst v.
  split; [|split; [|split]].
  - verdict_cases; cbn [In]; tauto.
  - verdict_cases; split; intro; try discriminate; reflexivity.
  - intros Ha Hp. unfold evaluateRisk. fold p. rewrite Ha, Hp. reflexivity.
  - verdict_cases; intro H; try discriminate. clear H.
    match goal with
    | H1 : negb (ALLOW_PAPER_ONLY cfg) && _ = false,
      H2 : REQUIRE_BOTH_SIDES cfg && _ = false,
      H3 : PrimFloat.ltb 0 _ && _ = false,
      H5 : PrimFloat.ltb _ (NET_MIN_BPS cfg) = false |- _ =>
        rename H1 into C1; rename H2 into C2; rename H3 into C3;
        rename H5 into C5
    end.
    split; [|split; [|split]].
    + fold p in C1. destruct (ALLOW_PAPER_ONLY cfg); [now left|right].
      cbn [negb andb] in C1. destruct (truthy (get "paper" p)); [|reflexivity].
      discriminate C1.
    + intro Hr. rewrite Hr in C2. cbn [andb] in C2.
      apply orb_false_iff in C2 as [B1 B2].
      apply negb_false_iff in B1, B2. split; assumption.
    + exact C3.
    + eexists _, _. split; [reflexivity|]. split; [reflexivity|exact C5].
Qed.


(** X16: Everything the options scanner emits is a paper opportunity; a risk
    engine that does not allow paper (the default of ALLOW_PAPER_ONLY)
    rejects it: the verdict of [evaluateRisk] on each entry that [emitOpp]
    appends to arb.opportunities, once parsed, is paper_mode_not_allowed,
    whatever the legs and the edge. *)
Theorem scanner_output_rejected_as_paper (scan : Scanner.config)
  (legs : value) (edgeBps feesBps : float) (s : Scanner.state) :
  ALLOW_PAPER_ONLY cfg = false ->
  exists l,
    opps (exec (Scanner.emitOpp scan legs edgeBps feesBps true) s)
    = opps s ++ l /\
    Forall (fun x => exists doc, x = Some doc /\
                       evaluateRisk cfg doc = reject "paper_mode_not_allowed")
           l.
Proof.
  intros Ha.
  assert (Hp : forall t,
            evaluateRisk cfg (wire (oppDoc legs edgeBps t))
            = reject "paper_mode_not_allowed").
  { intro t. unfold evaluateRisk. rewrite Ha. cbn [negb andb].
    assert (Hp : truthy (get "paper"
                           (or_else
                              (get "payload" (wire (oppDoc legs edgeBps t)))
                              (Obj []))) = true).
    { unfold oppDoc. cbn [wire flat_map app get lookup String.eqb Ascii.eqb
                            Bool.eqb or_else truthy].
      destruct legs; cbn [app lookup String.eqb Ascii.eqb Bool.eqb truthy];
        reflexivity. }
    now rewrite Hp. }
  destruct (emitOpp_outcome scan legs edgeBps feesBps s) as [_ Ho].
  eexists. split; [exact Ho|].
  destruct (granted scan s); repeat constructor.
  eexists. split; [reflexivity|apply Hp].
Qed.

Definition riskPending (s : state) : list nat :=
  Redis.pending (redis s) (INPUT_STREAM cfg) GROUP.

(** The messages of a batch that parse and are approved, or rejected. *)
Definition verdictsOf (want : bool) (msgs : list Redis.message)
  : list value :=
  flat_map (fun m => match snd m with
                     | Some opp => if Bool.eqb (ok (evaluateRisk cfg opp)) want
                                   then [opp] else []
                     | None => []
                     end) msgs.

Definition approvals (msgs : list Redis.message) : list (option value) :=
  map (fun opp => Some (wire (buildApproved cfg opp (evaluateRisk cfg opp))))
      (verdictsOf true msgs).

Lemma onMessage_outcome (id : nat) (d : option value) (s : state) :
  fst (onMessage cfg (id, d) s) = Normal tt /\
  riskPending (exec (onMessage cfg (id, d)) s) = without [id] (riskPending s) /\
  Redis.streams (redis (exec (onMessage cfg (id, d)) s)) (OUTPUT_STREAM cfg)
  = Redis.streams (redis s) (OUTPUT_STREAM cfg) ++ approvals [(id, d)] /\
  (forall st, st <> OUTPUT_STREAM cfg ->
     Redis.streams (redis (exec (onMessage cfg (id, d)) s)) st
     = Redis.streams (redis s) st) /\
  approvedCounter (exec (onMessage cfg (id, d)) s)
  = approvedCounter s + List.length (verdictsOf true [(id, d)]) /\
  rejectedCounter (exec (onMessage cfg (id, d)) s)
  = rejectedCounter s + List.length (verdictsOf false [(id, d)]).
Proof.
  unfold exec, onMessage, try_finally, try_catch, bind, ret, modify, throw,
    riskPending, approvals, verdictsOf.
  cbn [flat_map snd app].
  destruct d as [opp|].
  - destruct (ok (evaluateRisk cfg opp)) eqn:Hok;
      cbn [fst snd redis set_redis approvedCounter rejectedCounter Bool.eqb
             app map List.length];
      rewrite xack_pending;
      cbn [Redis.xack Redis.xadd Redis.streams Redis.pending];
      rewrite ?app_nil_r, ?Nat.add_0_r, ?Nat.add_1_r.
    + unfold Redis.upd. rewrite String.eqb_refl.
      repeat split.
      intros st Hst. destruct (String.eqb_spec st (OUTPUT_STREAM cfg));
        congruence.
    + repeat split.
  - cbn [fst snd redis set_redis approvedCounter rejectedCounter app map
           List.length].
    rewrite xack_pending.
    cbn [Redis.xack Redis.streams]. rewrite ?app_nil_r, ?Nat.add_0_r.
    repeat split.
Qed.


Lemma onMessage_handles (id : nat) (d : option value) :
  handles riskPending id (onMessage cfg (id, d)).
Proof.
  intro s. destruct (onMessage_outcome id d s) as (H1 & H2 & _). now split.
Qed.

Lemma verdictsOf_cons (want : bool) (m : Redis.message)
  (r : list Redis.message) :
  verdictsOf want (m :: r) = verdictsOf want [m] ++ verdictsOf want r.
Proof. unfold verdictsOf. cbn [flat_map]. now rewrite app_nil_r. Qed.

Lemma risk_for_of (msgs : list Redis.message) (s : state) :
  let s' := exec (for_of msgs (onMessage cfg)) s in
  Redis.streams (redis s') (OUTPUT_STREAM cfg)
  = Redis.streams (redis s) (OUTPUT_STREAM cfg) ++ approvals msgs /\
  (forall st, st <> OUTPUT_STREAM cfg ->
     Redis.streams (redis s') st = Redis.streams (redis s) st) /\
  approvedCounter s' = approvedCounter s + List.length (verdictsOf true msgs) /\
  rejectedCounter s' = rejectedCounter s + List.length (verdictsOf false msgs).
Proof.
  revert s. induction msgs as [|[id d] r IH]; intros s; cbn zeta.
  - cbn. rewrite app_nil_r, !Nat.add_0_r. auto.
  - destruct (onMessage_outcome id d s) as (Hn & _ & O1 & O2 & O3 & O4).
    rewrite for_of_cons by exact Hn.
    destruct (IH (exec (onMessage cfg (id, d)) s)) as (I1 & I2 & I3 & I4).
    rewrite I1, I3, I4, O1, O3, O4.
    unfold approvals. rewrite (verdictsOf_cons true (id, d) r),
      (verdictsOf_cons false (id, d) r), map_app, !length_app, <- app_assoc.
    split; [reflexivity|]. split; [|split; symmetry; apply Nat.add_assoc].
    intros st Hst. now rewrite (I2 st Hst), (O2 st Hst).
Qed.

(** X17: One call of [consume] returns without an exception and acknowledges
    every message it read, parseable or not. Each message that parses is
    counted once, as approved or as rejected; the approved ones, and only
    they, are appended to the output stream, in the order read and each
    with its risk block; a message that does not parse is counted nowhere. *)
Theorem risk_consume_accounts (s : state) :
  let msgs := fst (Redis.xreadgroup GROUP 50 (INPUT_STREAM cfg) (redis s)) in
  let s' := exec (consume cfg) s in
  fst (consume cfg s) = Normal tt /\
  (forall i, In i (riskPending s') -> In i (riskPending s)) /\
  (forall i, In i (map fst msgs) -> ~ In i (riskPending s')) /\
  Redis.streams (redis s') (OUTPUT_STREAM cfg)
  = Redis.streams (redis s) (OUTPUT_STREAM cfg) ++ approvals msgs /\
  (forall st, st <> OUTPUT_STREAM cfg ->
     Redis.streams (redis s') st = Redis.streams (redis s) st) /\
  approvedCounter s' = approvedCounter s + List.length (verdictsOf true msgs) /\
  rejectedCounter s' = rejectedCounter s + List.length (verdictsOf false msgs).
Proof.
  intros msgs s'. subst msgs s'. unfold exec, consume.
  pose proof (xreadgroup_pending GROUP 50 (INPUT_STREAM cfg) (redis s)) as Hp.
  destruct (Redis.xreadgroup GROUP 50 (INPUT_STREAM cfg) (redis s))
    as [msgs r] eqn:E.
  cbn [fst snd] in *.
  destruct (for_of_handles (pend := riskPending) (onMessage cfg)
              onMessage_handles msgs (set_redis r s)) as [Hn Hq].
  destruct (risk_for_of msgs (set_redis r s)) as (F1 & F2 & F3 & F4).
  unfold exec in F1, F2, F3, F4.
  assert (Hs : Redis.streams r = Redis.streams (redis s)).
  { change r with (snd (msgs, r)). rewrite <- E. reflexivity. }
  split; [exact Hn|]. rewrite Hq.
  change (riskPending (set_redis r s))
    with (Redis.pending r (INPUT_STREAM cfg) GROUP).
  rewrite Hp. split; [apply without_read|]. split; [apply without_read|].
  rewrite F1, F3, F4. cbn [redis set_redis approvedCounter rejectedCounter].
  rewrite Hs. split; [reflexivity|]. split; [|split; reflexivity].
  intros st Hst. rewrite (F2 st Hst). cbn [redis set_redis]. now rewrite Hs.
Qed.

End RiskRun.

(** ** Options scanner: books, paths and the scan *)

Section ScannerScan.
Context {rt : Runtime}.
Variable cfg : Scanner.config.
Import Scanner.

(** X18: [parseBook] never throws and writes nothing. It answers null for a
    missing key, for a text that is not JSON and for the document null; a
    book it answers was read from a document whose bid and ask convert to
    finite numbers, which are the book's; its ts is the document's when that
    is truthy and the clock's otherwise, the clock being read in that case
    only. *)
Theorem parseBook_reads (raw : option (option value)) (s : state) :
  let r := parseBook raw s in
  (exists ob, fst r = Normal ob /\
     forall b, ob = Some b ->
       exists obj, raw = Some (Some obj) /\
         bid b = ToNumber (get "bid" obj) /\ PrimFloat.is_finite (bid b) = true /\
         ask b = ToNumber (get "ask" obj) /\ PrimFloat.is_finite (ask b) = true /\
         ts b = (if truthy (get "ts" obj) then ToNumber (get "ts" obj)
                 else Date_now (clock s)) /\
         clock (snd r) = (if truthy (get "ts" obj) then clock s
                          else S (clock s))) /\
  redis (snd r) = redis s /\ tokens (snd r) = tokens s /\
  lastRefill (snd r) = lastRefill s /\
  (raw = None \/ raw = Some None \/ raw = Some (Some Null) ->
   r = (Normal None, s)) /\
  (fst r = Normal None -> snd r = s).
Proof.
  cbn zeta. unfold parseBook, safeNum.
  assert (Hnone : forall c : state,
            (exists ob : option book, Normal (@None book) = Normal ob /\
               forall b, ob = Some b ->
                 exists obj, raw = Some (Some obj) /\
                   bid b = ToNumber (get "bid" obj) /\
                   PrimFloat.is_finite (bid b) = true /\
                   ask b = ToNumber (get "ask" obj) /\
                   PrimFloat.is_finite (ask b) = true /\
                   ts b = (if truthy (get "ts" obj) then ToNumber (get "ts" obj)
                           else Date_now (clock s)) /\
                   clock c = (if truthy (get "ts" obj) then clock s
                              else S (clock s)))).
  { intro c. exists None. split; [reflexivity|discriminate]. }
  destruct raw as [[obj|]|].
  2,3: split; [apply Hnone|]; repeat split; reflexivity.
  destruct obj as [| |b0|n0|s0|xs|ps].
  1-6: split; [apply Hnone|]; repeat split; try reflexivity;
       intros [H|[H|H]]; discriminate H.
  destruct (PrimFloat.is_finite (ToNumber (get "bid" (Obj ps)))) eqn:Fb;
    [destruct (PrimFloat.is_finite (ToNumber (get "ask" (Obj ps)))) eqn:Fa|].
  2,3: split; [apply Hnone|]; repeat split; try reflexivity;
       intros [H|[H|H]]; discriminate H.
  destruct (truthy (get "ts" (Obj ps))) eqn:T; unfold bind, now, ret;
    cbn [fst snd clock redis tokens lastRefill ToNumber].
  all: split;
    [eexists; split; [reflexivity|];
     intros bk E; injection E as <-; eexists; split; [reflexivity|];
     cbn [bid ask ts get] in *; rewrite ?T; repeat split; auto
    |repeat split; try reflexivity; try discriminate;
     intros [H|[H|H]]; discriminate H].
Qed.


(** The documents a path may emit for the books of a pair. *)
Definition emitted (canon : string) (b1 b2 : book) (x : option value) : Prop :=
  exists e t,
    x = Some (wire (oppDoc (legsA cfg canon b1 b2) e t)) \/
    x = Some (wire (oppDoc (legsB cfg canon b1 b2) e t)).

(** What a step of the scan adds to arb.opportunities; it writes nothing
    else. *)
Definition scans (n : nat) (canons : list string) (s s' : state) : Prop :=
  (exists l, opps s' = opps s ++ l /\ List.length l <= n /\
     Forall (fun x => exists c b1 b2, In c canons /\ emitted c b1 b2 x) l) /\
  (forall st, st <> "arb.opportunities" ->
     Redis.streams (redis s') st = Redis.streams (redis s) st) /\
  Redis.docs (redis s') = Redis.docs (redis s).

Lemma scans_refl (canons : list string) (s s' : state) :
  redis s' = redis s -> scans 0 canons s s'.
Proof.
  intros H. unfold scans, opps. rewrite H. split; [|auto].
  exists []. rewrite app_nil_r. auto.
Qed.

Lemma scans_trans (n m : nat) (canons : list string) (s s1 s2 : state) :
  scans n canons s s1 -> scans m canons s1 s2 -> scans (n + m) canons s s2.
Proof.
  intros ((l1 & A1 & L1 & F1) & O1 & D1) ((l2 & A2 & L2 & F2) & O2 & D2).
  split; [|split].
  - exists (l1 ++ l2). rewrite A2, A1, app_assoc, length_app. split; [reflexivity|].
    split; [now apply Nat.add_le_mono|]. apply Forall_app. now split.
  - intros st Hst. now rewrite (O2 st Hst), (O1 st Hst).
  - congruence.
Qed.

Lemma scans_weaken (n m : nat) (c1 c2 : list string) (s s' : state) :
  n <= m -> incl c1 c2 -> scans n c1 s s' -> scans m c2 s s'.
Proof.
  intros Hn Hc ((l & A & L & F) & O & D). split; [|split; assumption].
  exists l. split; [exact A|]. split; [eapply Nat.le_trans; eassumption|].
  eapply Forall_impl; [|exact F]. intros x (c & b1 & b2 & Hin & He).
  exists c, b1, b2. split; [now apply Hc|exact He].
Qed.

Lemma emitOpp_scans (canon : string) (b1 b2 : book) (legs : value)
  (e f : float) (s : state) :
  legs = legsA cfg canon b1 b2 \/ legs = legsB cfg canon b1 b2 ->
  fst (emitOpp cfg legs e f true s) = Normal tt /\
  scans 1 [canon] s (snd (emitOpp cfg legs e f true s)).
Proof.
  intros Hl. destruct (emitOpp_outcome cfg legs e f s) as [Hn Ho].
  split; [exact Hn|]. split; [|split].
  - eexists. split; [exact Ho|].
    destruct (granted cfg s); cbn [List.length]; split; auto.
    constructor; [|constructor]. exists canon, b1, b2. split; [now left|].
    exists e, (Date_now (S (clock s))).
    destruct Hl as [-> | ->]; [now left|now right].
  - unfold emitOpp, takeToken, bind, now, ret, modify. cbn [fst snd].
    destruct (PrimFloat.leb 1 _); cbn [fst snd negb redis Redis.xadd
                                         Redis.streams]; [|reflexivity].
    intros st Hst. unfold Redis.upd.
    destruct (String.eqb_spec st "arb.opportunities"); congruence.
  - unfold emitOpp, takeToken, bind, now, ret, modify. cbn [fst snd].
    destruct (PrimFloat.leb 1 _); reflexivity.
Qed.

Lemma scanBooks_scans (tNow : float) (canon : string) (b1 b2 : book)
  (s : state) :
  fst (scanBooks cfg tNow canon b1 b2 s) = Normal tt /\
  scans 2 [canon] s (snd (scanBooks cfg tNow canon b1 b2 s)).
Proof.
  unfold scanBooks.
  destruct (stale cfg tNow b1 || stale cfg tNow b2).
  { split; [reflexivity|]. apply (@scans_weaken 0 2 [canon] [canon]);
      [apply Nat.le_0_l|apply incl_refl|now apply scans_refl]. }
  assert (HA : fst (pathA cfg canon b1 b2 s) = Normal tt /\
               scans 1 [canon] s (snd (pathA cfg canon b1 b2 s))).
  { unfold pathA.
    destruct (truthy (Num (ask b1)) && truthy (Num (bid b2)));
      [destruct (qualifies cfg _)|].
    - apply (emitOpp_scans (canon := canon) (b1 := b1) (b2 := b2)). now left.
    - split; [reflexivity|]. apply (@scans_weaken 0 1 [canon] [canon]);
        [apply Nat.le_0_l|apply incl_refl|now apply scans_refl].
    - split; [reflexivity|]. apply (@scans_weaken 0 1 [canon] [canon]);
        [apply Nat.le_0_l|apply incl_refl|now apply scans_refl]. }
  assert (HB : forall s1, fst (pathB cfg canon b1 b2 s1) = Normal tt /\
               scans 1 [canon] s1 (snd (pathB cfg canon b1 b2 s1))).
  { intro s1. unfold pathB.
    destruct (truthy (Num (ask b2)) && truthy (Num (bid b1)));
      [destruct (qualifies cfg _)|].
    - apply (emitOpp_scans (canon := canon) (b1 := b1) (b2 := b2)). now right.
    - split; [reflexivity|]. apply (@scans_weaken 0 1 [canon] [canon]);
        [apply Nat.le_0_l|apply incl_refl|now apply scans_refl].
    - split; [reflexivity|]. apply (@scans_weaken 0 1 [canon] [canon]);
        [apply Nat.le_0_l|apply incl_refl|now apply scans_refl]. }
  unfold bind. destruct HA as [HAn HAs].
  destruct (pathA cfg canon b1 b2 s) as [c s1]. cbn [fst snd] in *. subst c.
  destruct (HB s1) as [HBn HBs]. split; [exact HBn|].
  exact (scans_trans HAs HBs).
Qed.


Lemma parseBook_frame (raw : option (option value)) (s : state) :
  (exists ob, fst (parseBook raw s) = Normal ob) /\
  redis (snd (parseBook raw s)) = redis s /\
  tokens (snd (parseBook raw s)) = tokens s /\
  (raw = None -> parseBook raw s = (Normal None, s)).
Proof.
  destruct raw as [[obj|]|].
  2,3: repeat split; try (now exists None); discriminate.
  split; [|split; [|split; [|discriminate]]];
    unfold parseBook; destruct obj; try (now exists None); try reflexivity.
  all: match goal with
       | |- context [safeNum (get "bid" ?o)] =>
           destruct (safeNum (get "bid" o)) as [x|];
           [destruct (safeNum (get "ask" o)) as [a|]|];
           try (now exists None); try reflexivity;
           destruct (truthy (get "ts" o)); unfold bind, now, ret;
           cbn [fst snd redis tokens]; try reflexivity; eexists; reflexivity
       end.
Qed.

(** The scan of one pair on the replies [raw1] and [raw2] of its two keys. *)
Definition scanReplies (tNow : float) (p : pair)
  (raw1 raw2 : option (option value)) : M state unit :=
  b1 <- parseBook raw1 ;;
  b2 <- parseBook raw2 ;;
  match b1, b2 with
  | Some b1, Some b2 => scanBooks cfg tNow (canon p) b1 b2
  | _, _ => ret tt
  end.

Lemma scanReplies_scans (tNow : float) (p : pair)
  (raw1 raw2 : option (option value)) (s : state) :
  fst (scanReplies tNow p raw1 raw2 s) = Normal tt /\
  scans 2 [canon p] s (snd (scanReplies tNow p raw1 raw2 s)) /\
  (raw1 = None \/ raw2 = None ->
   opps (snd (scanReplies tNow p raw1 raw2 s)) = opps s /\
   tokens (snd (scanReplies tNow p raw1 raw2 s)) = tokens s).
Proof.
  unfold scanReplies, bind.
  destruct (parseBook_frame raw1 s) as ((o1 & E1) & R1 & T1 & N1).
  destruct (parseBook raw1 s) as [c1 s1] eqn:P1. cbn [fst snd] in *. subst c1.
  destruct (parseBook_frame raw2 s1) as ((o2 & E2) & R2 & T2 & N2).
  destruct (parseBook raw2 s1) as [c2 s2] eqn:P2. cbn [fst snd] in *. subst c2.
  assert (Z : scans 0 [canon p] s s2) by (apply scans_refl; congruence).
  destruct o1 as [b1|], o2 as [b2|].
  - destruct (scanBooks_scans tNow (canon p) b1 b2 s2) as [Hn Hs].
    split; [exact Hn|]. split; [exact (scans_trans Z Hs)|].
    intros [-> | ->].
    + specialize (N1 eq_refl). congruence.
    + specialize (N2 eq_refl). congruence.
  - split; [reflexivity|]. split.
    + apply (scans_weaken (Nat.le_0_l 2) (incl_refl _) Z).
    + intros _. unfold opps. cbn [snd ret]. split; congruence.
  - split; [reflexivity|]. split.
    + apply (scans_weaken (Nat.le_0_l 2) (incl_refl _) Z).
    + intros _. unfold opps. cbn [snd ret]. split; congruence.
  - split; [reflexivity|]. split.
    + apply (scans_weaken (Nat.le_0_l 2) (incl_refl _) Z).
    + intros _. unfold opps. cbn [snd ret]. split; congruence.
Qed.

(** The keys [scanOnce] reads, two for each pair, and the replies. *)
Definition keysOf (pairs : list pair) : list string :=
  flat_map (fun p => [obKey (OPT_EX1_PREFIX cfg) (native1 p);
                      obKey (OPT_EX2_PREFIX cfg) (native2 p)]) pairs.

Lemma keysOf_length (pairs : list pair) :
  List.length (keysOf pairs) = List.length pairs * 2.
Proof.
  induction pairs as [|p r IH]; [reflexivity|].
  cbn [keysOf flat_map app List.length Nat.mul Nat.add] in *.
  unfold keysOf in IH. now rewrite IH.
Qed.

Lemma replies_nth (d : string -> option (option value)) (pre : list pair)
  (p : pair) (post : list pair) :
  nth (List.length pre * 2 + 0) (map d (keysOf (pre ++ p :: post))) None
  = d (obKey (OPT_EX1_PREFIX cfg) (native1 p)) /\
  nth (List.length pre * 2 + 1) (map d (keysOf (pre ++ p :: post))) None
  = d (obKey (OPT_EX2_PREFIX cfg) (native2 p)).
Proof.
  unfold keysOf. rewrite flat_map_app, map_app. fold (keysOf pre).
  rewrite <- (keysOf_length pre), <- (length_map d (keysOf pre)).
  split.
  - rewrite Nat.add_0_r, app_nth2, Nat.sub_diag by apply Nat.le_refl.
    reflexivity.
  - rewrite app_nth2 by apply Nat.le_add_r.
    replace (List.length (map d (keysOf pre)) + 1
             - List.length (map d (keysOf pre))) with 1
      by (rewrite Nat.add_comm; symmetry; apply Nat.add_sub).
    reflexivity.
Qed.

Lemma for_of_scanPair (tNow : float) (d : string -> option (option value))
  (pre rest : list pair) (s : state) :
  for_of (Redis.number_from (List.length pre) rest)
    (scanPair cfg tNow (map d (keysOf (pre ++ rest)))) s
  = for_of rest
      (fun p => scanReplies tNow p
                  (d (obKey (OPT_EX1_PREFIX cfg) (native1 p)))
                  (d (obKey (OPT_EX2_PREFIX cfg) (native2 p)))) s.
Proof.
  revert pre s. induction rest as [|p r IH]; intros pre s; [reflexivity|].
  cbn [Redis.number_from for_of]. unfold bind.
  assert (E : scanPair cfg tNow (map d (keysOf (pre ++ p :: r)))
                (List.length pre, p) s
              = scanReplies tNow p
                  (d (obKey (OPT_EX1_PREFIX cfg) (native1 p)))
                  (d (obKey (OPT_EX2_PREFIX cfg) (native2 p))) s).
  { unfold scanPair, scanReplies.
    destruct (replies_nth d pre p r) as [-> ->]. reflexivity. }
  rewrite E.
  destruct (scanReplies tNow p _ _ s) as [[[]|e] s1]; [|reflexivity].
  specialize (IH (pre ++ [p]) s1).
  rewrite length_app, <- app_assoc in IH. cbn [List.length app] in IH.
  rewrite Nat.add_1_r in IH. exact IH.
Qed.

(** X19: [scanOnce] prices every pair on its own two books: the replies it
    takes at the indices 2i and 2i+1 of the batch are those of the keys of
    the i-th pair's native ids on the two venues. The scan is the loop over
    the pairs, in order, of the scan of one pair on these replies, at the
    time read once before the loop; for no pair it does nothing. *)
Theorem scanOnce_reads_own_books (pairs : list pair) (s : state) :
  scanOnce cfg pairs s =
  match pairs with
  | [] => (Normal tt, s)
  | _ =>
      (tNow <- now ;;
       for_of pairs
         (fun p => scanReplies tNow p
                     (Redis.docs (redis s)
                        (obKey (OPT_EX1_PREFIX cfg) (native1 p)))
                     (Redis.docs (redis s)
                        (obKey (OPT_EX2_PREFIX cfg) (native2 p))))) s
  end.
Proof.
  destruct pairs as [|p r]; [reflexivity|].
  unfold scanOnce. cbn [List.length Nat.eqb]. unfold bind, gets, now.
  fold (keysOf (p :: r)).
  exact (for_of_scanPair _ (Redis.docs (redis s)) [] (p :: r) _).
Qed.


Lemma for_of_scans (tNow : float) (d : string -> option (option value))
  (rest : list pair) (s : state) :
  let body := fun p => scanReplies tNow p
                         (d (obKey (OPT_EX1_PREFIX cfg) (native1 p)))
                         (d (obKey (OPT_EX2_PREFIX cfg) (native2 p))) in
  fst (for_of rest body s) = Normal tt /\
  scans (2 * List.length rest) (map canon rest) s (snd (for_of rest body s)) /\
  ((forall p, In p rest ->
      d (obKey (OPT_EX1_PREFIX cfg) (native1 p)) = None \/
      d (obKey (OPT_EX2_PREFIX cfg) (native2 p)) = None) ->
   opps (snd (for_of rest body s)) = opps s /\
   tokens (snd (for_of rest body s)) = tokens s).
Proof.
  intro body. revert s. induction rest as [|p r IH]; intros s.
  - split; [reflexivity|]. split; [now apply scans_refl|]. auto.
  - cbn [for_of]. unfold bind.
    destruct (scanReplies_scans tNow p
                (d (obKey (OPT_EX1_PREFIX cfg) (native1 p)))
                (d (obKey (OPT_EX2_PREFIX cfg) (native2 p))) s)
      as (Hn & Hs & Hm).
    fold (body p) in Hn, Hs, Hm.
    destruct (body p s) as [c s1]. cbn [fst snd] in *. subst c.
    destruct (IH s1) as (In1 & Is & Im). split; [exact In1|]. split.
    + replace (2 * List.length (p :: r)) with (2 + 2 * List.length r)
        by (cbn [List.length]; lia).
      apply (@scans_trans 2 (2 * List.length r) (map canon (p :: r)) s s1).
      * refine (scans_weaken (Nat.le_refl 2) _ Hs).
        intros x [<-|[]]. now left.
      * refine (scans_weaken (Nat.le_refl _) _ Is).
        intros x Hx. now right.
    + intros Hmiss.
      destruct (Hm (Hmiss p (or_introl eq_refl))) as [Ho Ht].
      destruct (Im (fun q Hq => Hmiss q (or_intror Hq))) as [Ho' Ht'].
      split; congruence.
Qed.

(** X20: [scanOnce] returns without an exception. It only appends to
    arb.opportunities, at most two entries for each pair, each one the
    document of path A or of path B for the canonical id of one of the
    pairs; it writes no other stream and no key. A pair of which a key is
    missing adds nothing: when each pair misses a book, the stream and the
    token bucket are left as they were. *)
Theorem scanOnce_appends (pairs : list pair) (s : state) :
  let s' := exec (scanOnce cfg pairs) s in
  fst (scanOnce cfg pairs s) = Normal tt /\
  scans (2 * List.length pairs) (map canon pairs) s s' /\
  ((forall p, In p pairs ->
      Redis.docs (redis s) (obKey (OPT_EX1_PREFIX cfg) (native1 p)) = None \/
      Redis.docs (redis s) (obKey (OPT_EX2_PREFIX cfg) (native2 p)) = None) ->
   opps s' = opps s /\ tokens s' = tokens s).
Proof.
  cbn zeta. unfold exec.
  destruct pairs as [|p r].
  { split; [reflexivity|]. split; [now apply scans_refl|]. auto. }
  unfold scanOnce. cbn [List.length Nat.eqb]. unfold bind, gets, now.
  fold (keysOf (p :: r)).
  rewrite (for_of_scanPair _ (Redis.docs (redis s)) [] (p :: r) _).
  match goal with
  | |- context [for_of _ _ ?s0] =>
      destruct (for_of_scans (Date_now (clock s)) (Redis.docs (redis s))
                  (p :: r) s0) as (Hn & Hs & Hm)
  end.
  split; [exact Hn|]. split.
  - destruct Hs as (Hl & Ho & Hd). split; [exact Hl|]. split; assumption.
  - exact Hm.
Qed.


(** X21: [calcEdge] answers zeros when the mid price is not positive, and the
    scan does not skip such a path: with every threshold at most 0 (the
    defaults are 0) the zeros qualify, and path A, for two non-zero prices
    whose mid is not positive, emits an opportunity of edge 0 whenever the
    bucket grants a token. *)
Theorem nonpositive_mid_is_emitted (canon : string) (b1 b2 : book) (s : state) :
  truthy (Num (ask b1)) && truthy (Num (bid b2)) = true ->
  PrimFloat.ltb 0 ((ask b1 + bid b2) / 2)%float = false ->
  let low := PrimFloat.leb (MIN_GROSS_BPS cfg) 0
             && PrimFloat.leb (MIN_NET_BPS cfg) 0
             && PrimFloat.leb (MIN_ABS_SPREAD cfg) 0
             && PrimFloat.leb (MIN_NOTIONAL cfg) 0 in
  calcEdge (ask b1) (EX1_TAKER_BPS cfg) (bid b2) (EX2_TAKER_BPS cfg)
  = {| mid := 0; grossBps := 0; feesBps := 0; netBps := 0; abs := 0 |} /\
  opps (exec (pathA cfg canon b1 b2) s)
  = opps s ++ (if low && granted cfg s
               then [Some (wire (oppDoc (legsA cfg canon b1 b2) 0
                                   (Date_now (S (clock s)))))]
               else []).
Proof.
  intros Hp Hm low.
  assert (E : calcEdge (ask b1) (EX1_TAKER_BPS cfg) (bid b2) (EX2_TAKER_BPS cfg)
              = {| mid := 0; grossBps := 0; feesBps := 0; netBps := 0;
                   abs := 0 |}).
  { unfold calcEdge. now rewrite Hm. }
  split; [exact E|].
  destruct (pathA_outcome cfg canon b1 b2 s) as [_ Ho]. cbn zeta in Ho.
  unfold exec. rewrite Ho, Hp, E. unfold thresholds. cbn [andb netBps grossBps abs mid].
  change (PrimFloat.is_finite 0) with true. change (0 * 1)%float with 0%float.
  cbn [andb]. reflexivity.
Qed.

End ScannerScan.

(** ** Canonical instrument ids *)

Section CanonStrings.
Import Canon.

Lemma all_app (p : ascii -> bool) (a b : string) :
  all p (String.append a b) = all p a && all p b.
Proof.
  induction a as [|c r IH]; cbn [String.append all]; [reflexivity|].
  now rewrite IH, andb_assoc.
Qed.

Lemma all_impl (p q : ascii -> bool) (s : string) :
  (forall c, p c = true -> q c = true) -> all p s = true -> all q s = true.
Proof.
  intros H. induction s as [|c r IH]; cbn [all]; [reflexivity|].
  intros E. apply andb_true_iff in E as [E1 E2].
  now rewrite (H c E1), IH.
Qed.

(** The characters of a native id in upper case. *)
Definition plain (c : ascii) : bool :=
  is_upper c || is_strike c || Ascii.eqb c "-".

Definition nodash (c : ascii) : bool := negb (Ascii.eqb c "-").

Lemma plain_facts (c : ascii) :
  plain c = true -> is_space c = false /\ upper_ascii c = c.
Proof.
  destruct c as [[] [] [] [] [] [] [] []]; vm_compute; intros H;
    try discriminate H; split; reflexivity.
Qed.

Lemma upper_plain (c : ascii) : is_upper c = true -> plain c = true.
Proof. unfold plain. now intros ->. Qed.

Lemma strike_plain (c : ascii) : is_strike c = true -> plain c = true.
Proof. unfold plain. intros ->. now rewrite orb_true_r. Qed.

Lemma digit_strike (c : ascii) : is_digit c = true -> is_strike c = true.
Proof. unfold is_strike. now intros ->. Qed.

Lemma upper_nodash (c : ascii) : is_upper c = true -> nodash c = true.
Proof.
  destruct c as [[] [] [] [] [] [] [] []]; vm_compute; intros H;
    try discriminate H; reflexivity.
Qed.

Lemma strike_nodash (c : ascii) : is_strike c = true -> nodash c = true.
Proof.
  destruct c as [[] [] [] [] [] [] [] []]; vm_compute; intros H;
    try discriminate H; reflexivity.
Qed.

Lemma toUpperCase_plain (s : string) :
  all plain s = true -> toUpperCase s = s.
Proof.
  unfold toUpperCase. induction s as [|c r IH]; cbn [all map_string];
    [reflexivity|].
  intros E. apply andb_true_iff in E as [E1 E2].
  now rewrite (proj2 (plain_facts c E1)), IH.
Qed.

Lemma rev_string_app (a b acc : string) :
  rev_string (String.append a b) acc = rev_string b (rev_string a acc).
Proof.
  revert acc. induction a as [|c r IH]; intros acc; cbn [String.append rev_string];
    [reflexivity|apply IH].
Qed.

Lemma rev_string_rev (a b c : string) :
  rev_string (rev_string a b) c = rev_string b (String.append a c).
Proof.
  revert b c. induction a as [|x r IH]; intros b c; cbn [rev_string String.append];
    [reflexivity|].
  rewrite IH. reflexivity.
Qed.

Lemma all_rev (p : ascii -> bool) (s acc : string) :
  all p s = true -> all p acc = true -> all p (rev_string s acc) = true.
Proof.
  revert acc. induction s as [|c r IH]; intros acc Hs Ha; cbn [rev_string];
    [exact Ha|].
  cbn [all] in Hs. apply andb_true_iff in Hs as [H1 H2].
  apply IH; [exact H2|]. cbn [all]. now rewrite H1, Ha.
Qed.

Lemma trimStart_plain (s : string) : all plain s = true -> trimStart s = s.
Proof.
  destruct s as [|c r]; [reflexivity|]. cbn [all trimStart]. intros E.
  apply andb_true_iff in E as [E1 _].
  now rewrite (proj1 (plain_facts c E1)).
Qed.

(** A native id written in upper case, without spaces, is the string the
    patterns are matched against. *)
Lemma normal_plain (s : string) :
  all plain s = true -> toUpperCase (trim s) = s.
Proof.
  intros H. unfold trim.
  rewrite (trimStart_plain s H).
  rewrite (trimStart_plain (rev_string s "")) by now apply all_rev.
  rewrite rev_string_rev. cbn [rev_string].
  replace (String.append s "") with s.
  - now apply toUpperCase_plain.
  - clear H. induction s as [|c r IH]; cbn [String.append]; congruence.
Qed.

Lemma fields_nodash (a : string) : all nodash a = true -> fields a = [a].
Proof.
  induction a as [|c r IH]; cbn [all fields]; [reflexivity|].
  intros E. apply andb_true_iff in E as [E1 E2]. unfold nodash in E1.
  apply negb_true_iff in E1. now rewrite E1, IH.
Qed.

Lemma fields_app (a rest : string) :
  all nodash a = true ->
  fields (String.append a (String "-" rest)) = a :: fields rest.
Proof.
  induction a as [|c r IH]; cbn [all fields String.append]; [reflexivity|].
  intros E. apply andb_true_iff in E as [E1 E2]. unfold nodash in E1.
  apply negb_true_iff in E1. now rewrite E1, IH.
Qed.

(** The fields of hyphen-free strings joined by hyphens are these strings. *)
Lemma fields_join (l : list string) :
  l <> [] -> Forall (fun a => all nodash a = true) l ->
  fields (join "-" l) = l.
Proof.
  intros Hne H. induction H as [|a r Ha Hr IH]; [congruence|].
  destruct r as [|b r'].
  - cbn [join]. now apply fields_nodash.
  - change (join "-" (a :: b :: r'))
      with (String.append a (String "-" (join "-" (b :: r')))).
    rewrite fields_app by exact Ha. f_equal. apply IH. discriminate.
Qed.

Lemma all_join (p : ascii -> bool) (l : list string) :
  p "-"%char = true -> Forall (fun a => all p a = true) l ->
  all p (join "-" l) = true.
Proof.
  intros Hd H. induction H as [|a r Ha Hr IH]; [reflexivity|].
  destruct r as [|b r'].
  - exact Ha.
  - change (join "-" (a :: b :: r'))
      with (String.append a (String "-" (join "-" (b :: r')))).
    rewrite all_app, Ha. cbn [all andb]. now rewrite Hd, IH.
Qed.

End CanonStrings.

(** *** The three encodings of an option *)

(** The two-digit numeral of [n], the number of [n], and the name of the
    month [mm]. *)
Definition two (n : nat) : string :=
  String (digit (N.of_nat (n / 10))) (String (digit (N.of_nat (n mod 10))) "").

Definition natNumber (n : nat) : float :=
  PrimFloat.of_uint63 (Uint63.of_Z (Z.of_nat n)).

Definition monthName (mm : nat) : string :=
  nth (mm - 1) (map fst Canon.MONTHS3) "".

Section CanonDates.
Import Canon.

Ltac below n H :=
  do n (destruct H as [|H]; [vm_compute; repeat split; reflexivity|]).

Lemma year_facts (yy : nat) :
  yy < 100 ->
  all is_digit (two yy) = true /\
  digitsNumber (two yy) = natNumber yy /\
  digitsNumber (String "2" (String "0" (two yy))) = (2000 + natNumber yy)%float /\
  PrimFloat.leb 2000 (2000 + natNumber yy) = true.
Proof.
  intros H. do 100 (destruct yy as [|yy]; [vm_compute; repeat split; reflexivity|]).
  lia.
Qed.

Lemma day_facts (dd : nat) :
  1 <= dd <= 31 ->
  all is_digit (two dd) = true /\
  digitsNumber (two dd) = natNumber dd /\
  between 1 (natNumber dd) 31 = true.
Proof.
  intros H. destruct dd as [|dd]; [lia|].
  do 31 (destruct dd as [|dd]; [vm_compute; repeat split; reflexivity|]).
  lia.
Qed.

Lemma month_facts (mm : nat) :
  1 <= mm <= 12 ->
  all is_digit (two mm) = true /\
  digitsNumber (two mm) = natNumber mm /\
  between 1 (natNumber mm) 12 = true /\
  month (monthName mm) MONTHS3 = Some (natNumber mm) /\
  truthy (Num (natNumber mm)) = true /\
  exists a b c, monthName mm = String a (String b (String c "")) /\
                is_upper a && (is_upper b && (is_upper c && true)) = true.
Proof.
  intros H. destruct mm as [|mm]; [lia|].
  do 12 (destruct mm as [|mm];
         [vm_compute; repeat split; try reflexivity;
          do 3 eexists; split; reflexivity|]).
  lia.
Qed.


Lemma some_all (p : ascii -> bool) (s : string) :
  some p s = true -> s <> "" /\ all p s = true.
Proof.
  unfold some. intros E. apply andb_true_iff in E as [E1 E2].
  split; [|exact E2]. intros ->. discriminate E1.
Qed.

Lemma cp_facts (c : string) :
  is_cp c = true -> all is_upper c = true.
Proof.
  unfold is_cp. intros E. apply orb_true_iff in E as [E|E];
    apply String.eqb_eq in E; subst c; reflexivity.
Qed.

End CanonDates.

Section CanonForms.
Context {rt : Runtime}.
Import Canon.

Variables (b k c : string) (yy mm dd : nat).
Hypothesis Hb : some is_upper b = true.
Hypothesis Hk : some is_strike k = true.
Hypothesis Hc : is_cp c = true.
Hypothesis Hyy : yy < 100.
Hypothesis Hmm : 1 <= mm <= 12.
Hypothesis Hdd : 1 <= dd <= 31.

(** The option the three encodings denote. *)
Definition denoted : parsed :=
  {| base := b; y := (2000 + natNumber yy)%float; m := natNumber mm;
     d := natNumber dd; strike := StringToNumber k; cp := c |}.

Definition enc1 : string :=
  join "-" [b; String.append (two yy) (String.append (two mm) (two dd)); k; c].
Definition enc2 : string :=
  join "-" [b; String.append (two dd) (String.append (monthName mm) (two yy));
            k; c].
Definition enc3 : string :=
  join "-" [b; String.append "20" (two yy); two mm; two dd; k; c].

Lemma parts_in (q : ascii -> bool) :
  (forall x, is_upper x = true -> q x = true) ->
  (forall x, is_strike x = true -> q x = true) ->
  all q b = true /\ all q k = true /\ all q c = true /\
  all q (two yy) = true /\ all q (two mm) = true /\
  all q (two dd) = true /\ all q (monthName mm) = true.
Proof.
  intros Hu Hst.
  destruct (some_all _ _ Hb) as [_ Ab]. destruct (some_all _ _ Hk) as [_ Ak].
  destruct (year_facts Hyy) as (Ay & _).
  destruct (month_facts Hmm) as (Am & _ & _ & _ & _ & x1 & x2 & x3 & En & Eu).
  destruct (day_facts Hdd) as (Ad & _).
  assert (Hd : forall x, is_digit x = true -> q x = true).
  { intros x H. apply Hst. now apply digit_strike. }
  split; [eapply all_impl; [exact Hu|exact Ab]|].
  split; [eapply all_impl; [exact Hst|exact Ak]|].
  split; [eapply all_impl; [exact Hu|exact (cp_facts _ Hc)]|].
  split; [eapply all_impl; [exact Hd|exact Ay]|].
  split; [eapply all_impl; [exact Hd|exact Am]|].
  split; [eapply all_impl; [exact Hd|exact Ad]|].
  rewrite En. eapply all_impl; [exact Hu|exact Eu].
Qed.

Lemma parts_plain :
  all plain b = true /\ all plain k = true /\ all plain c = true /\
  all plain (two yy) = true /\ all plain (two mm) = true /\
  all plain (two dd) = true /\ all plain (monthName mm) = true.
Proof. exact (parts_in plain upper_plain strike_plain). Qed.

Lemma parts_nodash :
  all nodash b = true /\ all nodash k = true /\ all nodash c = true /\
  all nodash (two yy) = true /\ all nodash (two mm) = true /\
  all nodash (two dd) = true /\ all nodash (monthName mm) = true.
Proof. exact (parts_in nodash upper_nodash strike_nodash). Qed.

Lemma enc_nonempty (rest : list string) :
  String.eqb (join "-" (b :: rest)) "" = false.
Proof.
  destruct (some_all _ _ Hb) as [Hne _].
  destruct b as [|x r]; [congruence|]. destruct rest; reflexivity.
Qed.

Hypothesis Hs : PrimFloat.ltb 0 (StringToNumber k) = true.

Lemma parse_enc1 : parseNativeOptionId (Str enc1) = Some denoted.
Proof.
  destruct parts_plain as (Pb & Pk & Pc & Py & Pm & Pd & _).
  destruct parts_nodash as (Nb & Nk & Nc & Ny & Nm & Nd & _).
  destruct (year_facts Hyy) as (Ay & Ny' & _).
  destruct (month_facts Hmm) as (Am & Nm' & Bm & _).
  destruct (day_facts Hdd) as (Ad & Nd' & Bd).
  unfold parseNativeOptionId, enc1. rewrite enc_nonempty.
  rewrite normal_plain
    by (apply all_join; [reflexivity|];
        repeat constructor; rewrite ?all_app, ?Py, ?Pm, ?Pd; auto).
  unfold pattern1.
  rewrite fields_join
    by (try discriminate;
        repeat constructor; rewrite ?all_app, ?Ny, ?Nm, ?Nd; auto).
  rewrite Hb, Hk, Hc. unfold digits.
  rewrite !all_app, Ay, Am, Ad.
  change (String.substring 0 2 (String.append (two yy)
                                  (String.append (two mm) (two dd))))
    with (two yy).
  change (String.substring 2 2 (String.append (two yy)
                                  (String.append (two mm) (two dd))))
    with (two mm).
  change (String.substring 4 2 (String.append (two yy)
                                  (String.append (two mm) (two dd))))
    with (two dd).
  rewrite Ny', Nm', Nd', Hs, Bm, Bd. reflexivity.
Qed.


Lemma parse_enc2 : parseNativeOptionId (Str enc2) = Some denoted.
Proof.
  destruct parts_plain as (Pb & Pk & Pc & Py & Pm & Pd & Pn).
  destruct parts_nodash as (Nb & Nk & Nc & Ny & Nm & Nd & Nn).
  destruct (year_facts Hyy) as (Ay & Ny' & _).
  destruct (month_facts Hmm) as (_ & _ & _ & Mo & Tm & x1 & x2 & x3 & En & Eu).
  destruct (day_facts Hdd) as (Ad & Nd' & Bd).
  unfold parseNativeOptionId, enc2. rewrite enc_nonempty.
  rewrite normal_plain
    by (apply all_join; [reflexivity|];
        repeat constructor; rewrite ?all_app, ?Py, ?Pn, ?Pd; auto).
  assert (F : fields (join "-" [b; String.append (two dd)
                                     (String.append (monthName mm) (two yy));
                                k; c])
              = [b; String.append (two dd)
                      (String.append (monthName mm) (two yy)); k; c]).
  { apply fields_join; [discriminate|].
    repeat constructor; rewrite ?all_app, ?Ny, ?Nn, ?Nd; auto. }
  unfold pattern1, pattern2. rewrite F, Hb, Hk, Hc. rewrite En in *.
  unfold digits.
  change (String.length (String.append (two dd)
            (String.append (String x1 (String x2 (String x3 ""))) (two yy))))
    with 7.
  cbn [Nat.eqb andb].
  change (String.substring 0 2 (String.append (two dd)
            (String.append (String x1 (String x2 (String x3 ""))) (two yy))))
    with (two dd).
  change (String.substring 2 3 (String.append (two dd)
            (String.append (String x1 (String x2 (String x3 ""))) (two yy))))
    with (String x1 (String x2 (String x3 ""))).
  change (String.substring 5 2 (String.append (two dd)
            (String.append (String x1 (String x2 (String x3 ""))) (two yy))))
    with (two yy).
  change (String.length (two dd)) with 2.
  change (String.length (two yy)) with 2.
  cbn [Nat.eqb andb]. rewrite Ad, Ay. cbn [all]. rewrite Eu, Mo.
  rewrite Ny', Nd', Hs, Tm, Bd. reflexivity.
Qed.

Lemma parse_enc3 : parseNativeOptionId (Str enc3) = Some denoted.
Proof.
  destruct parts_plain as (Pb & Pk & Pc & Py & Pm & Pd & _).
  destruct parts_nodash as (Nb & Nk & Nc & Ny & Nm & Nd & _).
  destruct (year_facts Hyy) as (Ay & _ & Ny' & Ly).
  destruct (month_facts Hmm) as (Am & Nm' & Bm & _).
  destruct (day_facts Hdd) as (Ad & Nd' & Bd).
  unfold parseNativeOptionId, enc3. rewrite enc_nonempty.
  rewrite normal_plain
    by (apply all_join; [reflexivity|];
        repeat constructor; rewrite ?all_app, ?Py, ?Pm, ?Pd; auto).
  assert (F : fields (join "-" [b; String.append "20" (two yy); two mm;
                                two dd; k; c])
              = [b; String.append "20" (two yy); two mm; two dd; k; c]).
  { apply fields_join; [discriminate|].
    repeat constructor; rewrite ?all_app, ?Ny, ?Nm, ?Nd; auto. }
  unfold pattern1, pattern2, pattern3. rewrite F, Hb, Hk, Hc.
  unfold digits.
  change (String.length (String.append "20" (two yy))) with 4.
  change (String.length (two mm)) with 2.
  change (String.length (two dd)) with 2.
  cbn [Nat.eqb andb]. rewrite all_app, Ay, Am, Ad.
  change (all is_digit "20") with true. cbn [andb].
  change (String.append "20" (two yy)) with (String "2" (String "0" (two yy))).
  rewrite Ny', Nm', Nd', Ly, Hs, Bm, Bd. reflexivity.
Qed.

End CanonForms.

Section CanonAgree.
Context {rt : Runtime}.
Import Canon.

(** X22: The three native encodings of an option denote the same option: for a
    base of upper-case letters, a strike of digits and dots that converts to
    a positive number, a year of the century, a month and a day, the ids
    BASE-YYMMDD-STRIKE-cp, BASE-DDMMMYY-STRIKE-cp and
    BASE-20YY-MM-DD-STRIKE-cp are all recognized, parse to the same record
    and so get the same canonical id. *)
Theorem encodings_agree (b k c : string) (yy mm dd : nat) :
  some is_upper b = true -> some is_strike k = true -> is_cp c = true ->
  yy < 100 -> 1 <= mm <= 12 -> 1 <= dd <= 31 ->
  PrimFloat.ltb 0 (StringToNumber k) = true ->
  let p := denoted b k c yy mm dd in
  parseNativeOptionId (Str (enc1 b k c yy mm dd)) = Some p /\
  parseNativeOptionId (Str (enc2 b k c yy mm dd)) = Some p /\
  parseNativeOptionId (Str (enc3 b k c yy mm dd)) = Some p /\
  canonOf (enc1 b k c yy mm dd) = toCanonicalId (Some p) /\
  canonOf (enc2 b k c yy mm dd) = toCanonicalId (Some p) /\
  canonOf (enc3 b k c yy mm dd) = toCanonicalId (Some p).
Proof.
  intros Hb Hk Hc Hy Hm Hd Hs p. unfold canonOf.
  rewrite parse_enc1, parse_enc2, parse_enc3 by assumption.
  repeat split.
Qed.

End CanonAgree.

(** *** Discovery *)

Section CanonMaps.
Context {rt : Runtime}.
Import Canon.

Lemma canonOf_nonempty (n c : string) : canonOf n = Some c -> c <> "".
Proof.
  unfold canonOf, toCanonicalId.
  destruct (parseNativeOptionId (Str n)) as [p|]; [|discriminate].
  intros E. injection E as <-. destruct (base p); discriminate.
Qed.

Lemma has_In (k : string) (m : list (string * string)) :
  has k m = true <-> In k (map fst m).
Proof.
  unfold has. rewrite existsb_exists. split.
  - intros ([k' v] & Hin & E). apply String.eqb_eq in E. cbn in E. subst k'.
    apply in_map_iff. now exists (k, v).
  - intros Hin. apply in_map_iff in Hin as ([k' v] & E & Hin). cbn in E.
    subst k'. exists (k, v). split; [exact Hin|apply String.eqb_refl].
Qed.

Lemma lookupNative_In (k v : string) (m : list (string * string)) :
  lookupNative k m = Some v -> In (k, v) m.
Proof.
  induction m as [|[k' v'] r IH]; cbn [lookupNative]; [discriminate|].
  destruct (String.eqb_spec k' k) as [->|Hne]; intros E.
  - injection E as <-. now left.
  - right. now apply IH.
Qed.

Lemma lookupNative_has (k : string) (m : list (string * string)) :
  has k m = true -> exists v, lookupNative k m = Some v.
Proof.
  induction m as [|[k' v'] r IH]; cbn [has existsb lookupNative fst];
    [discriminate|].
  destruct (String.eqb_spec k' k) as [->|Hne]; cbn [orb]; intros E.
  - now exists v'.
  - now apply IH.
Qed.

(** The step of the loop of [buildCanonMap]. *)
Definition keep (map : list (string * string)) (native : string)
  : list (string * string) :=
  match canonOf native with
  | Some canon =>
      if negb (String.eqb canon "") && negb (has canon map)
      then map ++ [(canon, native)]
      else map
  | None => map
  end.

(** [first l c n]: [n] is the first native id of [l] whose canonical id is
    [c]. *)
Definition first (l : list string) (c n : string) : Prop :=
  exists pre post,
    l = pre ++ n :: post /\ canonOf n = Some c /\
    forall x, In x pre -> canonOf x <> Some c.

(** The map built from the native ids [seen]. *)
Definition built (seen : list string) (m : list (string * string)) : Prop :=
  NoDup (map fst m) /\
  (forall c n, In (c, n) m -> first seen c n) /\
  (forall n c, In n seen -> canonOf n = Some c -> has c m = true).

Lemma built_keep (seen : list string) (m : list (string * string))
  (x : string) :
  built seen m -> built (seen ++ [x]) (keep m x).
Proof.
  intros (I1 & I2 & I3).
  assert (Old : forall c n, In (c, n) m -> first (seen ++ [x]) c n).
  { intros c n Hin. destruct (I2 c n Hin) as (pre & post & -> & Hc & Hpre).
    exists pre, (post ++ [x]). rewrite <- app_assoc. now split. }
  unfold keep. destruct (canonOf x) as [c0|] eqn:Ex.
  - pose proof (canonOf_nonempty _ Ex) as Hne.
    destruct (String.eqb_spec c0 "") as [E0|_]; [exact (False_ind _ (Hne E0))|]. cbn [negb andb].
    destruct (has c0 m) eqn:Hh; cbn [negb].
    + split; [exact I1|]. split; [exact Old|].
      intros n' c' Hin Hc. apply in_app_or in Hin as [Hin|[<-|[]]].
      * now apply (I3 n' c').
      * congruence.
    + split; [|split].
      * rewrite map_app. apply NoDup_app; [exact I1|repeat constructor; cbn; tauto|].
        intros k Hk [E|[]]. cbn in E. subst k. apply has_In in Hk.
        rewrite Hk in Hh. discriminate.
      * intros c' n' Hin. apply in_app_or in Hin as [Hin|[E|[]]].
        -- now apply Old.
        -- injection E as <- <-. exists seen, []. split; [reflexivity|].
           split; [exact Ex|]. intros y Hy Hc. rewrite (I3 y c0 Hy Hc) in Hh.
           discriminate.
      * intros n' c' Hin Hc. apply has_In. rewrite map_app. apply in_or_app.
        apply in_app_or in Hin as [Hin|[<-|[]]].
        -- left. apply has_In. now apply (I3 n' c').
        -- right. left. cbn. congruence.
  - split; [exact I1|]. split; [exact Old|].
    intros n' c' Hin Hc. apply in_app_or in Hin as [Hin|[<-|[]]].
    + now apply (I3 n' c').
    + congruence.
Qed.

Lemma built_fold (l seen : list string) (m : list (string * string)) :
  built seen m -> built (seen ++ l) (fold_left keep l m).
Proof.
  revert seen m. induction l as [|x r IH]; intros seen m H; cbn [fold_left].
  - now rewrite app_nil_r.
  - replace (seen ++ x :: r) with ((seen ++ [x]) ++ r)
      by (now rewrite <- app_assoc).
    apply IH. now apply built_keep.
Qed.

Lemma buildCanonMap_built (l : list string) : built l (buildCanonMap l).
Proof.
  change (buildCanonMap l) with (fold_left keep l []).
  apply (built_fold l (seen := []) (m := [])).
  split; [constructor|]. split; intros ? ? [].
Qed.

(** X23: [buildCanonMap] keeps the first mapping seen: the canonical ids of the
    map are distinct, each is mapped to the first native id of the list that
    has it, and the canonical id of every recognized native id of the list
    is in the map (an id that is not recognized is left out). *)
Theorem buildCanonMap_first_wins (l : list string) :
  let m := buildCanonMap l in
  NoDup (map fst m) /\
  (forall c n, In (c, n) m -> first l c n) /\
  (forall n c, In n l -> canonOf n = Some c ->
     exists n0, lookupNative c m = Some n0 /\ first l c n0) /\
  (forall c, In c (map fst m) -> exists n, In n l /\ canonOf n = Some c).
Proof.
  destruct (buildCanonMap_built l) as (I1 & I2 & I3).
  split; [exact I1|]. split; [exact I2|]. split.
  - intros n c Hin Hc. destruct (lookupNative_has _ _ (I3 n c Hin Hc)) as [n0 E].
    exists n0. split; [exact E|]. apply I2. now apply lookupNative_In.
  - intros c Hc. apply in_map_iff in Hc as ([c' n] & E & Hin). cbn in E. subst c'.
    destruct (I2 c n Hin) as (pre & post & -> & Hc & _).
    exists n. split; [|exact Hc]. apply in_or_app. right. now left.
Qed.


Lemma lookupNative_first (k v : string) (r : list (string * string)) :
  lookupNative k ((k, v) :: r) = Some v.
Proof. cbn [lookupNative]. now rewrite String.eqb_refl. Qed.

Lemma intersect_keys (m1 m2 : list (string * string)) :
  forall p, In p (intersectCanonMaps m1 m2) ->
    In (Scanner.canon p) (map fst m1) /\
    lookupNative (Scanner.canon p) m1 = Some (Scanner.native1 p) /\
    lookupNative (Scanner.canon p) m2 = Some (Scanner.native2 p).
Proof.
  intros p Hin. unfold intersectCanonMaps in Hin.
  apply in_flat_map in Hin as ([c n] & Hm & Hp). cbn [fst] in Hp.
  destruct (lookupNative c m1) as [n1|] eqn:E1; [|contradiction].
  destruct (lookupNative c m2) as [n2|] eqn:E2; [|contradiction].
  destruct Hp as [<-|[]]. cbn.
  split; [|split; assumption]. apply in_map_iff. now exists (c, n).
Qed.

Lemma intersect_NoDup_gen (look : string -> option string)
  (m2 r : list (string * string)) :
  NoDup (map fst r) ->
  NoDup (map Scanner.canon
           (flat_map
              (fun kv =>
                 match look (fst kv), lookupNative (fst kv) m2 with
                 | Some n1, Some n2 =>
                     [{| Scanner.canon := fst kv; Scanner.native1 := n1;
                         Scanner.native2 := n2 |}]
                 | _, _ => []
                 end) r)).
Proof.
  induction r as [|[c n] r IH]; intros Hd; cbn [flat_map map fst];
    [constructor|].
  inversion Hd as [|? ? Hc Hr]; subst. rewrite map_app.
  destruct (look c) as [n1|].
  2: { cbn [map app]. now apply IH. }
  destruct (lookupNative c m2) as [n2|].
  2: { cbn [map app]. now apply IH. }
  cbn [map app Scanner.canon]. constructor; [|now apply IH].
  intros Hin. apply Hc. apply in_map_iff in Hin as (p & E & Hp).
  apply in_flat_map in Hp as ([c' n'] & Hm & Hp). cbn [fst] in Hp.
  destruct (look c'); [|contradiction].
  destruct (lookupNative c' m2); [|contradiction].
  destruct Hp as [<-|[]]. cbn in E. subst c'.
  apply in_map_iff. now exists (c, n').
Qed.

Lemma intersect_NoDup (m1 m2 : list (string * string)) :
  NoDup (map fst m1) ->
  NoDup (map Scanner.canon (intersectCanonMaps m1 m2)).
Proof. apply (intersect_NoDup_gen (fun c => lookupNative c m1)). Qed.

Lemma intersect_complete (m1 m2 : list (string * string)) (c : string) :
  has c m1 = true -> has c m2 = true ->
  In c (map Scanner.canon (intersectCanonMaps m1 m2)).
Proof.
  intros H1 H2. destruct (lookupNative_has _ _ H1) as [n1 E1].
  destruct (lookupNative_has _ _ H2) as [n2 E2].
  apply has_In in H1. apply in_map_iff in H1 as ([c' n] & E & Hin).
  cbn in E. subst c'.
  apply in_map_iff.
  exists {| Scanner.canon := c; Scanner.native1 := n1; Scanner.native2 := n2 |}.
  split; [reflexivity|]. unfold intersectCanonMaps. apply in_flat_map.
  exists (c, n). split; [exact Hin|]. cbn [fst]. rewrite E1, E2. now left.
Qed.

(** X24: The pairs of the intersection join like with like. For the native ids
    [l1] and [l2] of the two venues, every pair of
    [intersectCanonMaps (buildCanonMap l1) (buildCanonMap l2)] holds a
    native id of each venue, both of the pair's canonical id (each the
    first of its list with that id); no canonical id comes twice; and a
    canonical id that a native id of each venue has is the id of a pair. *)
Theorem intersection_pairs_match (l1 l2 : list string) :
  let pairs := intersectCanonMaps (buildCanonMap l1) (buildCanonMap l2) in
  Forall (fun p =>
            first l1 (Scanner.canon p) (Scanner.native1 p) /\
            first l2 (Scanner.canon p) (Scanner.native2 p) /\
            In (Scanner.native1 p) l1 /\ In (Scanner.native2 p) l2 /\
            canonOf (Scanner.native1 p) = Some (Scanner.canon p) /\
            canonOf (Scanner.native2 p) = Some (Scanner.canon p)) pairs /\
  NoDup (map Scanner.canon pairs) /\
  (forall n1 n2 c,
     In n1 l1 -> In n2 l2 -> canonOf n1 = Some c -> canonOf n2 = Some c ->
     In c (map Scanner.canon pairs)).
Proof.
  intros pairs. subst pairs.
  destruct (buildCanonMap_built l1) as (A1 & A2 & A3).
  destruct (buildCanonMap_built l2) as (B1 & B2 & B3).
  split; [|split].
  - apply Forall_forall. intros p Hin.
    destruct (intersect_keys _ _ p Hin) as (_ & E1 & E2).
    pose proof (A2 _ _ (lookupNative_In _ _ E1)) as F1.
    pose proof (B2 _ _ (lookupNative_In _ _ E2)) as F2.
    split; [exact F1|]. split; [exact F2|].
    destruct F1 as (pre1 & post1 & -> & C1 & _).
    destruct F2 as (pre2 & post2 & -> & C2 & _).
    repeat split; try assumption; apply in_or_app; right; now left.
  - now apply intersect_NoDup.
  - intros n1 n2 c H1 H2 C1 C2. apply intersect_complete.
    + exact (A3 n1 c H1 C1).
    + exact (B3 n2 c H2 C2).
Qed.

End CanonMaps.

(** ** The further properties on concrete inputs *)

Section FurtherOnHost.
#[local] Existing Instance Host.runtime.
Import Examples.

(** The properties of the BUY leg of the scenarios. *)
Definition buyProps : list (string * value) :=
  [("exchange", Str "binance"); ("instrumentId", Str "BTCUSDT");
   ("side", Str "BUY"); ("estPx", Num 100); ("size", Num 1)].

Lemma buyProps_distinct : NoDup (map fst buyProps).
Proof. cbn [map fst buyProps]. repeat constructor; cbn [In]; intuition discriminate. Defined.

(** With trading on, the order of the BUY leg is written and counted. *)
Lemma sendOrder_order_witness :
  NoDup (map fst buyProps) /\
  Executor.legCounter
    (snd (Executor.sendOrder (Str "opp-1") (Num 1) (Obj buyProps) "IOC"
            ExecutorRuns.flying)) = 1.
Proof.
  split; [exact buyProps_distinct|].
  exact (proj1 (proj2 (proj2 (proj2
           (proj1 (proj2 (@sendOrder_order Host.runtime (Str "opp-1") (Num 1)
                            buyProps "IOC" ExecutorRuns.flying
                            buyProps_distinct))
              eq_refl))))).
Defined.

(** The SELL leg of [opp1] fills: the order of its BUY leg goes out. *)
Lemma onFill_sends_second_leg_witness :
  Map_get (Str "opp-1") (Executor.inflight ExecutorRuns.flying)
  = Some entry1 /\
  Executor.legCounter
    (exec (Executor.onFill 0 (0, Some ExecutorRuns.sellFill))
       ExecutorRuns.flying) = 1.
Proof.
  split; [reflexivity|].
  exact (proj1 (proj2 (proj2
           (@onFill_sends_second_leg Host.runtime 0%float ExecutorRuns.flying
              0 ExecutorRuns.sellFill entry1
              eq_refl eq_refl eq_refl eq_refl eq_refl eq_refl)))).
Defined.

(** The fill of leg 1 completes [opp1]: nothing is written to a stream. *)
Lemma onFill_completion_witness :
  Map_get (Str "opp-1") (Executor.inflight ExecutorRuns.flying)
  = Some entry1 /\
  Redis.streams
    (Executor.redis
       (exec (Executor.onFill 0 (1, Some ExecutorRuns.buyFill))
          ExecutorRuns.flying))
  = Redis.streams (Executor.redis ExecutorRuns.flying).
Proof.
  split; [reflexivity|].
  exact (proj1 (proj2 (proj2
           (@onFill_completion Host.runtime 0%float ExecutorRuns.flying 1
              ExecutorRuns.buyFill entry1 eq_refl eq_refl
              (or_introl eq_refl))))).
Defined.

(** The first fill of a correlation id reaches an empty buffer. *)
Lemma assembler_joins_pairs_witness :
  single (assembler Redis.empty) /\
  single (exec (Assembler.onFill (0, Some asmBuy)) (assembler Redis.empty)).
Proof.
  assert (H : single (assembler Redis.empty)) by constructor.
  split; [exact H|].
  exact (proj1 (@assembler_joins_pairs Host.runtime 0 (Some asmBuy)
                  (assembler Redis.empty) H)).
Defined.

(** The default policy: paper opportunities are not allowed. *)
Definition strictPolicy : Risk.config :=
  {| Risk.EDGE_MIN_BPS := 20; Risk.NET_MIN_BPS := 0;
     Risk.MAX_TOTAL_SIZE := 10; Risk.REQUIRE_BOTH_SIDES := true;
     Risk.ALLOW_PAPER_ONLY := false;
     Risk.INPUT_STREAM := "scanner.to.risk";
     Risk.OUTPUT_STREAM := "arb.approved" |}.

Lemma scanner_output_rejected_as_paper_witness :
  Risk.ALLOW_PAPER_ONLY strictPolicy = false /\
  exists l,
    opps (exec (Scanner.emitOpp scanDefaults
                  (Scanner.legsA scanDefaults "BTC-2024-09-27-19000-C"
                     lowBook highBook) 99 20 true) scanStart)
    = opps scanStart ++ l /\
    Forall (fun x => exists doc, x = Some doc /\
                       Risk.evaluateRisk strictPolicy doc
                       = Risk.reject "paper_mode_not_allowed") l.
Proof.
  split; [reflexivity|].
  exact (@scanner_output_rejected_as_paper Host.runtime strictPolicy
           scanDefaults
           (Scanner.legsA scanDefaults "BTC-2024-09-27-19000-C"
              lowBook highBook) 99%float 20%float scanStart eq_refl).
Defined.

(** The fill of the order of the BUY leg carries the correlation id and
    the leg index the order was sent with. *)
Lemma fill_of_sent_order_witness :
  NoDup (map fst buyProps) /\
  get "corrId"
    (get "payload"
       (wire (Simulator.fillOf
                (wire (orderMsg "uuid-0" 1710000000000 (Str "opp-1") (Num 1)
                         (Obj buyProps) "IOC")) 1710000000100)))
  = Str "opp-1".
Proof.
  split; [exact buyProps_distinct|].
  refine (proj1 (proj2 (proj2 (proj2
            (@fill_of_sent_order Host.runtime (Str "opp-1") (Num 1) buyProps
               "IOC" "uuid-0" 1710000000000%float 1710000000100%float
               buyProps_distinct)))) _).
  cbn [map fst buyProps In]. intuition discriminate.
Defined.

(** Scenario S6: the two native ids of the 19000 call of 27 September 2024
    get one canonical id. *)
Lemma encodings_agree_witness :
  Canon.canonOf "BTC-240927-19000-C" = Some "BTC-2024-09-27-19000-C" /\
  Canon.canonOf "BTC-27SEP24-19000-C" = Some "BTC-2024-09-27-19000-C" /\
  Canon.canonOf "BTC-2024-09-27-19000-C" = Some "BTC-2024-09-27-19000-C".
Proof.
  pose proof (@encodings_agree Host.runtime "BTC" "19000" "C" 24 9 27
                eq_refl eq_refl eq_refl ltac:(lia) ltac:(lia) ltac:(lia)
                eq_refl) as H.
  split; [exact (proj1 (proj2 (proj2 (proj2 H))))|].
  split; [exact (proj1 (proj2 (proj2 (proj2 (proj2 H)))))|].
  exact (proj2 (proj2 (proj2 (proj2 (proj2 H))))).
Defined.

(** Two books at -1: the mid is negative, and path A emits an edge of 0. *)
Definition negBook : Scanner.book :=
  {| Scanner.bid := -1; Scanner.ask := -1; Scanner.ts := 1710000000000 |}.

Lemma nonpositive_mid_is_emitted_witness :
  PrimFloat.ltb 0 ((Scanner.ask negBook + Scanner.bid negBook) / 2)%float
  = false /\
  opps (exec (Scanner.pathA scanDefaults "BTC-2024-09-27-19000-C"
                negBook negBook) scanStart)
  = [Some (wire (oppDoc (Scanner.legsA scanDefaults "BTC-2024-09-27-19000-C"
                           negBook negBook) 0 (Date_now 1)))].
Proof.
  split; [reflexivity|].
  exact (proj2 (@nonpositive_mid_is_emitted Host.runtime scanDefaults
                  "BTC-2024-09-27-19000-C" negBook negBook scanStart
                  eq_refl eq_refl)).
Defined.

End FurtherOnHost.
